(** * The multi-provider failover router of [backend/src/ai_manager.py]

    A shallow embedding of the classes [AIProvider] and [MultiAIManager],
    of [initialize_ai_providers] and of the status endpoint of
    [ai_chat_enhanced.py], followed by the properties of the rotation, quota,
    context and configuration logic.

    Conventions of the embedding.
    - Python [int] is [Z]; a calendar date ([datetime.now().date()]) is the
      [Z] of its proleptic ordinal, so the order on dates is the order on [Z].
    - Python [str] is [string]; the texts handled here are read as ASCII, on
      which [str.lower] is the map below.
    - Every [datetime.now().date()] evaluated during one call reads the same
      date [today]: a call does not straddle midnight.  Different calls may
      run on different dates.
    - [requests.post] is the only contact with the outside.  The network is
      a function [post] giving the outcome of the n-th request ever issued;
      the requests issued so far are kept in a log, so that "no network call"
      is the statement that the log did not grow.
    - [logging] calls have no effect on the state observed here and are
      left out.
    - The file system maps a path to the JSON document stored there, an
      array of objects of strings and integers, which is what
      [save_configuration] writes and [load_configuration] reads. *)

From Stdlib Require Import ZArith String Ascii DecimalString.
From stdpp Require Import base list strings gmap.

Open Scope Z_scope.

(** ** Python primitives *)

Module Py.

(** One character of [str.lower()] on ASCII text. *)
Definition lower_char (c : ascii) : ascii :=
  let n := nat_of_ascii c in
  if ((65 <=? n) && (n <=? 90))%nat then ascii_of_nat (n + 32) else c.

(** [s.lower()] *)
Fixpoint lower (s : string) : string :=
  match s with
  | EmptyString => EmptyString
  | String c rest => String (lower_char c) (lower rest)
  end.

(** [needle in haystack] on strings. *)
Fixpoint contains (needle haystack : string) : bool :=
  String.prefix needle haystack ||
  match haystack with
  | EmptyString => false
  | String _ rest => contains needle rest
  end.

(** [str(n)] for an integer, as an f-string formats it. *)
Definition str (n : Z) : string := NilZero.string_of_int (Z.to_int n).

(** [l[start:]], with Python's reading of a negative or too large bound. *)
Definition slice_from {A : Type} (start : Z) (l : list A) : list A :=
  let len := Z.of_nat (length l) in
  let lo := if start <? 0 then Z.max (len + start) 0 else Z.min start len in
  drop (Z.to_nat lo) l.

End Py.

(** ** Data *)

(** An entry of a conversation: the dict [{"role": r, "content": c}]. *)
Record Msg := mkMsg { role : string; content : string }.

(** What [send_message] returns: the dict [{"error": e}], or the dict with
    the keys [success] (always [True]), [response], [provider] and
    [tokens_used].  The test ["error" not in result] separates the two. *)
Inductive Result :=
| Error (error : string)
| Success (response : string) (provider : string) (tokens_used : Z).

Definition is_error (r : Result) : bool :=
  match r with Error _ => true | Success _ _ _ => false end.

(** The JSON body of a request, in the two vendor shapes. *)
Inductive Payload :=
| ChatCompletion (model_id : string) (messages : list Msg)
                 (max_tokens : Z) (temperature_tenths : Z)
| ClaudeMessages (model_id : string) (max_tokens : Z) (messages : list Msg).

Record Request := mkRequest {
  url : string;
  headers : list (string * string);
  json : Payload;
  timeout : Z
}.

(** What evaluating the success branch's dict literal gives: [response.json()]
    and the vendor's field lookups either raise (with text [str(e)]) or yield
    the reply text and the token count. *)
Inductive Body :=
| BodyRaises (e : string)
| BodyDecoded (reply : string) (tokens : Z).

(** What [requests.post] does: it raises, or returns a response. *)
Inductive HttpOutcome :=
| PostRaises (e : string)
| PostReturns (status_code : Z) (text : string) (body : Body).

Definition Network := nat → Request → HttpOutcome.

(** ** class AIProvider *)

Module AIProvider.

Record t := mk {
  name : string;
  api_key : string;
  base_url : string;
  model : string;
  daily_limit : Z;
  messages_used_today : Z;
  last_reset : Z;
  is_available : bool;
  last_error : option string
}.

Definition set_messages_used_today (n : Z) (p : t) : t :=
  mk (name p) (api_key p) (base_url p) (model p) (daily_limit p)
     n (last_reset p) (is_available p) (last_error p).

Definition set_last_reset (d : Z) (p : t) : t :=
  mk (name p) (api_key p) (base_url p) (model p) (daily_limit p)
     (messages_used_today p) d (is_available p) (last_error p).

Definition set_is_available (b : bool) (p : t) : t :=
  mk (name p) (api_key p) (base_url p) (model p) (daily_limit p)
     (messages_used_today p) (last_reset p) b (last_error p).

Definition set_last_error (e : option string) (p : t) : t :=
  mk (name p) (api_key p) (base_url p) (model p) (daily_limit p)
     (messages_used_today p) (last_reset p) (is_available p) e.

(** What a method leaves behind, besides the value it returns ([inl e] when
    it raises an exception whose text is [e]): the provider itself, the
    contents of the list object the caller passed as [context] ([None] when
    the caller passed [None]), and the log of requests. *)
Record Effect (A : Type) := mkEffect {
  returned : A;
  self : t;
  context_after : option (list Msg);
  http_log : list Request
}.
Arguments mkEffect {A} _ _ _ _.
Arguments returned {A} _.
Arguments self {A} _.
Arguments context_after {A} _.
Arguments http_log {A} _.

(** [messages = context or []; messages.append(entry)].
    A non-empty list is truthy, so [messages] is then the caller's own list
    object and the append is seen by the caller; [None] and the empty list
    are falsy and give a fresh list.  Returns the contents of [messages] and
    the contents of the caller's list after the append. *)
Definition context_or_new_append (context : option (list Msg)) (entry : Msg)
  : list Msg * option (list Msg) :=
  match context with
  | None => ([entry], None)
  | Some [] => ([entry], Some [])
  | Some shared => (shared ++ [entry], Some (shared ++ [entry]))
  end.

(** The loop of [_send_claude_message] that copies the user and assistant
    entries of the context into a list of its own. *)
Definition claude_messages_of (context : option (list Msg)) : list Msg :=
  match context with
  | None => []
  | Some ctx =>
      omap (λ msg,
        if String.eqb (role msg) "user" then Some (mkMsg "user" (content msg))
        else if String.eqb (role msg) "assistant"
             then Some (mkMsg "assistant" (content msg))
             else None) ctx
  end.

(** [AIProvider.__init__], created on the date [today]. *)
Definition init (today : Z) (name api_key base_url model : string)
    (daily_limit : Z) : t :=
  mk name api_key base_url model daily_limit 0 today true None.

Section Methods.

Variable today : Z.
Variable post : Network.

Definition reset_daily_counter (p : t) : t :=
  if last_reset p <? today
  then set_is_available true (set_last_reset today (set_messages_used_today 0 p))
  else p.

(** Returns the boolean and the provider after the lazy reset. *)
Definition can_send_message (p : t) : bool * t :=
  let p := reset_daily_counter p in
  (is_available p && (messages_used_today p <? daily_limit p), p).

(** The part the three vendor methods share once the request is built:
    issue it, then branch on the status code. *)
Definition handle_response (p : t) (req : Request)
    (context' : option (list Msg)) (log : list Request)
  : Effect (string + Result) :=
  let log' := log ++ [req] in
  match post (length log) req with
  | PostRaises e => mkEffect (inl e) p context' log'
  | PostReturns status_code text body =>
      if status_code =? 200 then
        let p := set_messages_used_today (messages_used_today p + 1) p in
        match body with
        | BodyRaises e => mkEffect (inl e) p context' log'
        | BodyDecoded reply tokens =>
            mkEffect (inr (Success reply (name p) tokens)) p context' log'
        end
      else
        let error_msg := ("HTTP " +:+ Py.str status_code +:+ ": " +:+ text)%string in
        let p := if Py.contains "rate_limit" (Py.lower text)
                 then set_is_available false p else p in
        mkEffect (inr (Error error_msg)) p context' log'
  end.

Definition _send_openai_message (p : t) (message : string)
    (context : option (list Msg)) (log : list Request)
  : Effect (string + Result) :=
  let headers := [("Authorization", "Bearer " +:+ api_key p);
                  ("Content-Type", "application/json")]%string in
  let '(messages, context') :=
    context_or_new_append context (mkMsg "user" message) in
  let data := ChatCompletion (model p) messages 2000 7 in
  handle_response p
    (mkRequest (base_url p +:+ "/chat/completions") headers data 30)
    context' log.

Definition _send_claude_message (p : t) (message : string)
    (context : option (list Msg)) (log : list Request)
  : Effect (string + Result) :=
  let headers := [("x-api-key", api_key p);
                  ("Content-Type", "application/json");
                  ("anthropic-version", "2023-06-01")]%string in
  let claude_messages := claude_messages_of context ++ [mkMsg "user" message] in
  let data := ClaudeMessages (model p) 2000 claude_messages in
  handle_response p
    (mkRequest (base_url p +:+ "/messages") headers data 30)
    context log.

Definition _send_deepseek_message (p : t) (message : string)
    (context : option (list Msg)) (log : list Request)
  : Effect (string + Result) :=
  let headers := [("Authorization", "Bearer " +:+ api_key p);
                  ("Content-Type", "application/json")]%string in
  let '(messages, context') :=
    context_or_new_append context (mkMsg "user" message) in
  let data := ChatCompletion (model p) messages 2000 7 in
  handle_response p
    (mkRequest (base_url p +:+ "/chat/completions") headers data 30)
    context' log.

(** The [try] block of [send_message]: the dispatch on the lower-cased name.
    [None] is the final [else], which returns without calling a vendor. *)
Definition dispatch (p : t) (message : string)
    (context : option (list Msg)) (log : list Request)
  : option (Effect (string + Result)) :=
  if String.eqb (Py.lower (name p)) "openai"
  then Some (_send_openai_message p message context log)
  else if String.eqb (Py.lower (name p)) "claude"
  then Some (_send_claude_message p message context log)
  else if String.eqb (Py.lower (name p)) "deepseek"
  then Some (_send_deepseek_message p message context log)
  else None.

Definition send_message (p : t) (message : string)
    (context : option (list Msg)) (log : list Request) : Effect Result :=
  let '(ok, p) := can_send_message p in
  if negb ok
  then mkEffect (Error ("Daily limit reached for " +:+ name p)) p context log
  else
    match dispatch p message context log with
    | None => mkEffect (Error ("Unknown provider: " +:+ name p)) p context log
    | Some sent =>
        match returned sent with
        | inr result =>
            mkEffect result (self sent) (context_after sent) (http_log sent)
        | inl e =>
            (* except Exception as e: what the vendor method changed stays *)
            mkEffect (Error e) (set_last_error (Some e) (self sent))
                     (context_after sent) (http_log sent)
        end
    end.

End Methods.

End AIProvider.

(** ** class MultiAIManager *)

(** The JSON values [save_configuration] writes: the document is an array
    of objects whose fields hold strings and integers. *)
Inductive JSONValue :=
| JString (s : string)
| JInt (n : Z).

Definition JSONObject := list (string * JSONValue).

(** [obj[key]] on a dict read back by [json.load]: when the text repeats a
    key the last value stands.  [None] is the [KeyError]. *)
Fixpoint json_get (key : string) (obj : JSONObject) : option JSONValue :=
  match obj with
  | [] => None
  | (k, v) :: rest =>
      match json_get key rest with
      | Some later => Some later
      | None => if String.eqb k key then Some v else None
      end
  end.

Module MultiAIManager.

Record t := mk {
  providers : list AIProvider.t;
  conversation_context : list Msg;
  current_provider_index : Z;
  max_context_length : Z
}.

Definition set_providers (ps : list AIProvider.t) (m : t) : t :=
  mk ps (conversation_context m) (current_provider_index m) (max_context_length m).

Definition set_conversation_context (ctx : list Msg) (m : t) : t :=
  mk (providers m) ctx (current_provider_index m) (max_context_length m).

Definition set_current_provider_index (i : Z) (m : t) : t :=
  mk (providers m) (conversation_context m) i (max_context_length m).

(** [MultiAIManager.__init__] *)
Definition init : t := mk [] [] 0 20.

(** One call of [provider.send_message] made by the router's loop: the
    index into [available_providers], the index of that provider in
    [self.providers], and the dict it returned.  The list of these is kept
    beside the state to speak about the order of the attempts; the Python
    code does not store it. *)
Record Attempt := mkAttempt {
  position : nat;
  provider_id : nat;
  outcome : Result
}.

(** A finished call of [send_message]: the dict returned, the router after
    the call, the requests issued so far and the attempts of this call. *)
Record Outcome := mkOutcome {
  result : Result;
  manager : t;
  http_log : list Request;
  attempts : list Attempt
}.

(** One entry of the list [get_provider_status] returns. *)
Record Status := mkStatus {
  status_name : string;
  status_available : bool;
  status_messages_used : Z;
  status_daily_limit : Z;
  status_last_error : option string
}.

Definition add_provider (today : Z) (name api_key base_url model : string)
    (daily_limit : Z) (m : t) : t :=
  set_providers
    (providers m ++ [AIProvider.init today name api_key base_url model daily_limit]) m.

Definition reset_conversation (m : t) : t := set_conversation_context [] m.

(** The list [config] that [save_configuration] builds. *)
Definition configuration (m : t) : list JSONObject :=
  (λ provider,
     [("name", JString (AIProvider.name provider));
      ("base_url", JString (AIProvider.base_url provider));
      ("model", JString (AIProvider.model provider));
      ("daily_limit", JInt (AIProvider.daily_limit provider))]%string)
  <$> providers m.

(** [save_configuration]: the file system maps a path to the document
    dumped there; the router itself is not changed. *)
Definition save_configuration (m : t) (filepath : string)
    (fs : gmap string (list JSONObject)) : gmap string (list JSONObject) :=
  <[filepath := configuration m]> fs.

(** The [for provider_config in config] loop of [load_configuration], on
    the date [today].  An exception ([KeyError] for a missing key,
    [AttributeError] for a name that is no string) ends the loop and is
    caught by the caller: the providers added so far stay.  Python would
    also accept a [base_url] or [model] that is no string and a
    [daily_limit] that is no integer, and build a provider that the record
    [AIProvider.t] cannot hold: such a document is outside the embedding,
    which is the result [None]. *)
Fixpoint load_providers (today : Z) (api_keys : gmap string string)
    (config : list JSONObject) (m : t) : option t :=
  match config with
  | [] => Some m
  | provider_config :: rest =>
      match json_get "name" provider_config with
      | None => Some m
      | Some (JInt _) => Some m
      | Some (JString name) =>
          match api_keys !! Py.lower name with
          | None => load_providers today api_keys rest m
          | Some api_key =>
              match json_get "base_url" provider_config,
                    json_get "model" provider_config,
                    json_get "daily_limit" provider_config with
              | Some (JString base_url), Some (JString model), Some (JInt daily_limit) =>
                  load_providers today api_keys rest
                    (add_provider today name api_key base_url model daily_limit m)
              | None, _, _ | Some _, None, _ | Some _, Some _, None => Some m
              | Some _, Some _, Some _ => None
              end
          end
      end
  end.

(** [load_configuration]: a missing file is the [FileNotFoundError], which
    is caught and leaves the router as it is. *)
Definition load_configuration (today : Z) (m : t) (filepath : string)
    (api_keys : gmap string string) (fs : gmap string (list JSONObject))
  : option t :=
  match fs !! filepath with
  | None => Some m
  | Some config => load_providers today api_keys config m
  end.

Section Methods.

Variable today : Z.
Variable post : Network.

(** The positions (from [i] on) of the providers that can send. *)
Fixpoint available_from (i : nat) (ps : list AIProvider.t) : list nat :=
  match ps with
  | [] => []
  | p :: rest =>
      if (AIProvider.can_send_message today p).1
      then i :: available_from (S i) rest
      else available_from (S i) rest
  end.

(** [get_available_providers]: every provider is asked [can_send_message],
    which resets its counter when the date has advanced.  The returned list
    holds the providers themselves (references); here, their positions in
    [self.providers]. *)
Definition get_available_providers (m : t) : list nat * t :=
  (available_from 0 (providers m),
   set_providers ((λ p, (AIProvider.can_send_message today p).2) <$> providers m) m).

(** [if len(ctx) > cap: ctx = ctx[-cap:]] *)
Definition trim_context (cap : Z) (ctx : list Msg) : list Msg :=
  if Z.of_nat (length ctx) >? cap then Py.slice_from (- cap) ctx else ctx.

(** The body of the success branch that updates the context: two appends,
    then the trim. *)
Definition remember_turn (message response : string) (m : t) : t :=
  let ctx := conversation_context m
               ++ [mkMsg "user" message] ++ [mkMsg "assistant" response] in
  set_conversation_context (trim_context (max_context_length m) ctx) m.

(** What a call of [provider.send_message] leaves in the router: the
    provider object at [pid] was mutated in place, and so was the context
    list when it was passed. *)
Definition absorb (pid : nat) (sent : AIProvider.Effect Result) (m : t) : t :=
  let m := set_providers (<[pid := AIProvider.self sent]> (providers m)) m in
  match AIProvider.context_after sent with
  | Some ctx => set_conversation_context ctx m
  | None => m
  end.

(** The [for i in range(len(available_providers))] loop; [range] holds the
    values of [i] still to come.  [None] stands for an [IndexError] escaping
    the call (shown below not to happen). *)
Fixpoint send_loop (available_providers : list nat) (message : string)
    (preserve_context : bool) (range : list nat)
    (m : t) (log : list Request) (tried : list Attempt) : option Outcome :=
  match range with
  | [] =>
      Some (mkOutcome (Error "All available providers failed to respond")
                      m log tried)
  | i :: range' =>
      let provider_index :=
        (current_provider_index m + Z.of_nat i)
          `mod` Z.of_nat (length available_providers) in
      pid ← available_providers !! Z.to_nat provider_index;
      provider ← providers m !! pid;
      let context :=
        if preserve_context then Some (conversation_context m) else None in
      let sent := AIProvider.send_message today post provider message context log in
      let m := absorb pid sent m in
      let log := AIProvider.http_log sent in
      let tried :=
        tried ++ [mkAttempt (Z.to_nat provider_index) pid (AIProvider.returned sent)] in
      match AIProvider.returned sent with
      | Success response _ _ =>
          let m := if preserve_context then remember_turn message response m else m in
          Some (mkOutcome (AIProvider.returned sent)
                          (set_current_provider_index provider_index m) log tried)
      | Error _ =>
          send_loop available_providers message preserve_context range' m log tried
      end
  end.

(** [MultiAIManager.send_message].  Python returns the dict; the router and
    the request log are what the call leaves behind, and [attempts] records
    the calls of [provider.send_message] it made. *)
Definition send_message (m : t) (message : string)
    (preserve_context : bool) (log : list Request) : option Outcome :=
  match providers m with
  | [] => Some (mkOutcome (Error "No AI providers configured") m log [])
  | _ :: _ =>
      let '(available_providers, m) := get_available_providers m in
      match available_providers with
      | [] =>
          Some (mkOutcome
                  (Error "All AI providers have reached their daily limits")
                  m log [])
      | _ :: _ =>
          send_loop available_providers message preserve_context
                    (seq 0 (length available_providers)) m log []
      end
  end.

(** [get_provider_status] *)
Definition get_provider_status (m : t) : list Status * t :=
  let ps := AIProvider.reset_daily_counter today <$> providers m in
  ((λ provider,
      mkStatus (AIProvider.name provider) (AIProvider.is_available provider)
               (AIProvider.messages_used_today provider)
               (AIProvider.daily_limit provider)
               (AIProvider.last_error provider)) <$> ps,
   set_providers ps m).

End Methods.

End MultiAIManager.

(** [initialize_ai_providers], on the date [today], for the global router
    [ai_manager]: the three [add_provider] calls, each key read from the
    dict [api_keys] of the function, in which all three are present. *)
Definition initialize_ai_providers (today : Z) (ai_manager : MultiAIManager.t)
  : MultiAIManager.t :=
  let api_keys : gmap string string :=
    {[ "openai"%string := "your-openai-api-key"%string;
       "claude"%string := "your-claude-api-key"%string;
       "deepseek"%string := "your-deepseek-api-key"%string ]} in
  let ai_manager :=
    MultiAIManager.add_provider today "OpenAI"
      (default EmptyString (api_keys !! "openai"))
      "https://api.openai.com/v1" "gpt-4" 1000 ai_manager in
  let ai_manager :=
    MultiAIManager.add_provider today "Claude"
      (default EmptyString (api_keys !! "claude"))
      "https://api.anthropic.com/v1" "claude-3-sonnet-20240229" 1000 ai_manager in
  MultiAIManager.add_provider today "DeepSeek"
    (default EmptyString (api_keys !! "deepseek"))
    "https://api.deepseek.com/v1" "deepseek-chat" 1000 ai_manager.

(** ** Vocabulary of the properties *)

(** The position of the candidate list visited at the [i]-th turn of the
    loop when the remembered index is [start] and there are [n] candidates. *)
Definition position_at (start : Z) (n i : nat) : nat :=
  Z.to_nat ((start + Z.of_nat i) `mod` Z.of_nat n).

(** The order in which a call visits the [n] positions of its candidate
    list. *)
Definition rotation (start : Z) (n : nat) : list nat :=
  position_at start n <$> seq 0 n.

(** Following the specification's words for the router ("attempt each
    available provider exactly once, in rotation order", "return its
    response immediately", "continue to the next candidate"): the
    candidates, listed in the order of their turn, are sent the message one
    after the other until one succeeds, the context list and the request
    log passing from one attempt to the next.  The result lists what each
    call of [AIProvider.send_message] returned and left behind.  The
    router's loop is compared with it below. *)
Fixpoint try_in_turn (today : Z) (post : Network) (message : string)
    (preserve_context : bool) (candidates : list AIProvider.t)
    (context : list Msg) (log : list Request)
  : list (AIProvider.Effect Result) :=
  match candidates with
  | [] => []
  | p :: rest =>
      let sent :=
        AIProvider.send_message today post p message
          (if preserve_context then Some context else None) log in
      sent ::
        match AIProvider.returned sent with
        | Success _ _ _ => []
        | Error _ =>
            try_in_turn today post message preserve_context rest
              (default context (AIProvider.context_after sent))
              (AIProvider.http_log sent)
        end
  end.

(** The quota invariant of a provider whose limit is not negative. *)
Definition quota_respected (p : AIProvider.t) : Prop :=
  0 ≤ AIProvider.daily_limit p →
  AIProvider.messages_used_today p ≤ AIProvider.daily_limit p.

(** A provider that cannot send on the date [today], its counter being
    that of [today]: over quota, or marked unavailable. *)
Definition exhausted (today : Z) (p : AIProvider.t) : Prop :=
  AIProvider.last_reset p = today ∧
  (AIProvider.is_available p = false ∨
   AIProvider.daily_limit p ≤ AIProvider.messages_used_today p).

(** Two providers that agree on everything but, possibly, the API key. *)
Definition same_but_api_key (p q : AIProvider.t) : Prop :=
  AIProvider.name p = AIProvider.name q ∧
  AIProvider.base_url p = AIProvider.base_url q ∧
  AIProvider.model p = AIProvider.model q ∧
  AIProvider.daily_limit p = AIProvider.daily_limit q ∧
  AIProvider.messages_used_today p = AIProvider.messages_used_today q ∧
  AIProvider.last_reset p = AIProvider.last_reset q ∧
  AIProvider.is_available p = AIProvider.is_available q ∧
  AIProvider.last_error p = AIProvider.last_error q.

(** Two routers that agree on everything but the API keys. *)
Definition differ_only_in_api_keys (m1 m2 : MultiAIManager.t) : Prop :=
  Forall2 same_but_api_key (MultiAIManager.providers m1) (MultiAIManager.providers m2) ∧
  MultiAIManager.conversation_context m1 = MultiAIManager.conversation_context m2 ∧
  MultiAIManager.current_provider_index m1 = MultiAIManager.current_provider_index m2 ∧
  MultiAIManager.max_context_length m1 = MultiAIManager.max_context_length m2.

(** The calls a client of the router can make. *)
Inductive Op :=
| AddProvider (name api_key base_url model : string) (daily_limit : Z)
| GetAvailableProviders
| SendMessage (message : string) (preserve_context : bool)
| GetProviderStatus
| ResetConversation
| SaveConfiguration (filepath : string).

(** A call together with the date on which it runs and the network it
    meets. *)
Record Event := mkEvent { on_date : Z; network : Network; call : Op }.

(** The router, the requests issued so far and the file system. *)
Record World := mkWorld {
  router : MultiAIManager.t;
  requests : list Request;
  files : gmap string (list JSONObject)
}.

Definition step (e : Event) (w : World) : option World :=
  let m := router w in
  match call e with
  | AddProvider name api_key base_url model daily_limit =>
      Some (mkWorld
              (MultiAIManager.add_provider (on_date e) name api_key base_url model
                                           daily_limit m)
              (requests w) (files w))
  | GetAvailableProviders =>
      Some (mkWorld (MultiAIManager.get_available_providers (on_date e) m).2
                    (requests w) (files w))
  | SendMessage message preserve_context =>
      out ← MultiAIManager.send_message (on_date e) (network e) m message
                                               preserve_context (requests w);
      Some (mkWorld (MultiAIManager.manager out) (MultiAIManager.http_log out) (files w))
  | GetProviderStatus =>
      Some (mkWorld (MultiAIManager.get_provider_status (on_date e) m).2
                    (requests w) (files w))
  | ResetConversation =>
      Some (mkWorld (MultiAIManager.reset_conversation m) (requests w) (files w))
  | SaveConfiguration filepath =>
      Some (mkWorld m (requests w)
                    (MultiAIManager.save_configuration m filepath (files w)))
  end.

(** A sequence of calls, from a given world. *)
Fixpoint run (events : list Event) (w : World) : option World :=
  match events with
  | [] => Some w
  | e :: rest => w' ← step e w; run rest w'
  end.

(** The world of a freshly constructed router. *)
Definition initial_world : World := mkWorld MultiAIManager.init [] ∅.

(** ** Scenarios

    Concrete networks and routers on which the statements below are run. *)

Module Scenario.

(** Every request is answered with status 200 and a well-formed reply. *)
Definition answering : Network :=
  λ _ _, PostReturns 200 "ok" (BodyDecoded "Sure." 12).

(** Every request is answered with status 500 and no rate-limit signal. *)
Definition server_error : Network :=
  λ _ _, PostReturns 500 "Internal Server Error" (BodyRaises "Expecting value").

(** Every request is answered with status 429 and a rate-limit signal. *)
Definition rate_limited : Network :=
  λ _ _, PostReturns 429 "error: Rate_Limit_Exceeded" (BodyRaises "Expecting value").

(** The first request ever issued fails as in [rate_limited], the later
    ones are answered. *)
Definition first_rate_limited : Network :=
  λ n req, match n with O => rate_limited n req | S _ => answering n req end.

(** A router with the single provider "OpenAI", added on day 0. *)
Definition openai_only : MultiAIManager.t :=
  MultiAIManager.add_provider 0 "OpenAI" "sk-1" "https://api.openai.com/v1"
                              "gpt-4" 1000 MultiAIManager.init.

(** The router that [initialize_ai_providers] builds, on day 0. *)
Definition three_providers : MultiAIManager.t :=
  MultiAIManager.add_provider 0 "DeepSeek" "your-deepseek-api-key"
    "https://api.deepseek.com/v1" "deepseek-chat" 1000
    (MultiAIManager.add_provider 0 "Claude" "your-claude-api-key"
       "https://api.anthropic.com/v1" "claude-3-sonnet-20240229" 1000
       (MultiAIManager.add_provider 0 "OpenAI" "your-openai-api-key"
          "https://api.openai.com/v1" "gpt-4" 1000 MultiAIManager.init)).

(** The same router with other credentials. *)
Definition three_providers_rekeyed : MultiAIManager.t :=
  MultiAIManager.add_provider 0 "DeepSeek" "sk-ds"
    "https://api.deepseek.com/v1" "deepseek-chat" 1000
    (MultiAIManager.add_provider 0 "Claude" "sk-ant"
       "https://api.anthropic.com/v1" "claude-3-sonnet-20240229" 1000
       (MultiAIManager.add_provider 0 "OpenAI" "sk-oa"
          "https://api.openai.com/v1" "gpt-4" 1000 MultiAIManager.init)).

(** One provider with quota 2, both messages already used on day 0. *)
Definition quota_used_up : MultiAIManager.t :=
  MultiAIManager.mk
    [AIProvider.mk "OpenAI" "sk-1" "https://api.openai.com/v1" "gpt-4" 2 2 0 true None]
    [] 0 20.

(** A client that adds the provider "OpenAI" on day 0 and then sends [n]
    messages, each answered. *)
Definition openai_session (n : nat) : list Event :=
  mkEvent 0 answering
          (AddProvider "OpenAI" "sk-1" "https://api.openai.com/v1" "gpt-4" 1000)
  :: replicate n (mkEvent 0 answering (SendMessage "hello" true)).

(** The world after [openai_session n] ([initial_world] if a call raised). *)
Definition after_openai_session (n : nat) : World :=
  default initial_world (run (openai_session n) initial_world).

End Scenario.

(** ** The status endpoint of [ai_chat_enhanced.py] *)

Module AIChat.

(** The JSON body that [get_ai_status] returns, without its timestamp
    (the reading of the clock at the time of the answer); [status] is the
    text sent when the integration modules could not be imported. *)
Record AIStatus := mkAIStatus {
  providers : list MultiAIManager.Status;
  total_providers : nat;
  available_providers : nat;
  status : option string
}.

(** [get_ai_status], on the date [today], for the global router [m]. *)
Definition get_ai_status (ai_integration_available : bool) (today : Z)
    (m : MultiAIManager.t) : AIStatus * MultiAIManager.t :=
  if negb ai_integration_available
  then (mkAIStatus [] 0 0 (Some "AI integration not available"), m)
  else
    let '(status, m) := MultiAIManager.get_provider_status today m in
    (mkAIStatus status (length status)
       (length (filter (λ p, MultiAIManager.status_available p = true) status))
       None,
     m).

End AIChat.

(** ** More vocabulary *)

(** The vendors whose method appends to the list it is given
    ([_send_openai_message] and [_send_deepseek_message]). *)
Definition appends_to_context (p : AIProvider.t) : bool :=
  String.eqb (Py.lower (AIProvider.name p)) "openai"
  || String.eqb (Py.lower (AIProvider.name p)) "deepseek".

(** A request as the provider [p] builds it for the user text [message]:
    addressed to the endpoint of [p], carrying the key of [p] and no other,
    naming the model of [p], and ending with the user entry. *)
Definition issued_by (p : AIProvider.t) (message : string) (req : Request) : Prop :=
  timeout req = 30 ∧
  ((appends_to_context p = true ∧
    url req = (AIProvider.base_url p +:+ "/chat/completions")%string ∧
    headers req = [("Authorization", "Bearer " +:+ AIProvider.api_key p);
                   ("Content-Type", "application/json")]%string ∧
    ∃ earlier, json req = ChatCompletion (AIProvider.model p)
                            (earlier ++ [mkMsg "user" message]) 2000 7) ∨
   (Py.lower (AIProvider.name p) = "claude"%string ∧
    url req = (AIProvider.base_url p +:+ "/messages")%string ∧
    headers req = [("x-api-key", AIProvider.api_key p);
                   ("Content-Type", "application/json");
                   ("anthropic-version", "2023-06-01")]%string ∧
    ∃ earlier, json req = ClaudeMessages (AIProvider.model p) 2000
                            (earlier ++ [mkMsg "user" message]))).

(** The conversation a request carries to the vendor. *)
Definition sent_messages (req : Request) : list Msg :=
  match json req with
  | ChatCompletion _ messages _ _ => messages
  | ClaudeMessages _ _ messages => messages
  end.

(** What a provider is configured with, as against what it counts. *)
Definition settings (p : AIProvider.t)
  : string * string * string * string * Z :=
  (AIProvider.name p, AIProvider.api_key p, AIProvider.base_url p,
   AIProvider.model p, AIProvider.daily_limit p).

(** An entry whose role is one of the two the router writes. *)
Definition spoken (msg : Msg) : Prop :=
  role msg = "user"%string ∨ role msg = "assistant"%string.

(** The calls that add a provider to which the context would be passed
    for appending. *)
Definition adds_appending_vendor (e : Event) : bool :=
  match call e with
  | AddProvider name _ _ _ _ =>
      String.eqb (Py.lower name) "openai" || String.eqb (Py.lower name) "deepseek"
  | _ => false
  end.

(** A provider freshly created by [load_configuration] from an entry of a
    saved configuration. *)
Definition reloaded (today : Z) (api_keys : gmap string string)
    (p : AIProvider.t) : option AIProvider.t :=
  api_key ← api_keys !! Py.lower (AIProvider.name p);
  Some (AIProvider.init today (AIProvider.name p) api_key (AIProvider.base_url p)
                        (AIProvider.model p) (AIProvider.daily_limit p)).

(** The vendors [AIProvider.send_message] has a method for. *)
Definition known_vendor (p : AIProvider.t) : bool :=
  appends_to_context p || String.eqb (Py.lower (AIProvider.name p)) "claude".

(** A provider as [load_configuration] creates it on the date [today]:
    under the key registered for its lower-cased name, with nothing used
    and no error. *)
Definition fresh_on (today : Z) (api_keys : gmap string string)
    (p : AIProvider.t) : Prop :=
  api_keys !! Py.lower (AIProvider.name p) = Some (AIProvider.api_key p) ∧
  AIProvider.messages_used_today p = 0 ∧
  AIProvider.last_reset p = today ∧
  AIProvider.is_available p = true ∧
  AIProvider.last_error p = None.

(** An entry at which the loop of [load_configuration] raises: the name is
    missing or no string, or the name has a key and one of the other three
    fields is missing. *)
Definition raises_at (api_keys : gmap string string) (provider_config : JSONObject)
  : bool :=
  match json_get "name" provider_config with
  | None | Some (JInt _) => true
  | Some (JString name) =>
      match api_keys !! Py.lower name with
      | None => false
      | Some _ =>
          match json_get "base_url" provider_config,
                json_get "model" provider_config,
                json_get "daily_limit" provider_config with
          | Some _, Some _, Some _ => false
          | _, _, _ => true
          end
      end
  end.

Module Scenario2.

(** A router with the single provider "Claude", added on day 0. *)
Definition claude_only : MultiAIManager.t :=
  MultiAIManager.add_provider 0 "Claude" "sk-ant" "https://api.anthropic.com/v1"
                              "claude-3-sonnet-20240229" 1000 MultiAIManager.init.

(** A client that adds "Claude" on day 0 and sends [n] answered messages. *)
Definition claude_session (n : nat) : list Event :=
  mkEvent 0 Scenario.answering
          (AddProvider "Claude" "sk-ant" "https://api.anthropic.com/v1"
                       "claude-3-sonnet-20240229" 1000)
  :: replicate n (mkEvent 0 Scenario.answering (SendMessage "hello" true)).

(** The keys of [initialize_ai_providers], by lower-cased name. *)
Definition default_keys : gmap string string :=
  {[ "openai"%string := "your-openai-api-key"%string;
     "claude"%string := "your-claude-api-key"%string;
     "deepseek"%string := "your-deepseek-api-key"%string ]}.

(** A provider whose limit is 0, and one at its quota but not flagged. *)
Definition zero_limit : AIProvider.t :=
  AIProvider.init 0 "OpenAI" "sk-1" "https://api.openai.com/v1" "gpt-4" 0.

Definition at_quota : AIProvider.t :=
  AIProvider.mk "Claude" "sk-ant" "https://api.anthropic.com/v1"
                "claude-3-sonnet-20240229" 5 5 0 true None.

(** Every request is answered with status 200 and a body that is no JSON. *)
Definition undecodable : Network :=
  λ _ _, PostReturns 200 "<html>maintenance</html>" (BodyRaises "Expecting value").

(** A provider "OpenAI" and a provider "Claude", created on day 0. *)
Definition openai_provider : AIProvider.t :=
  AIProvider.init 0 "OpenAI" "sk-1" "https://api.openai.com/v1" "gpt-4" 1000.

Definition claude_provider : AIProvider.t :=
  AIProvider.init 0 "Claude" "sk-ant" "https://api.anthropic.com/v1"
                  "claude-3-sonnet-20240229" 1000.

(** A router with the single provider "Mistral", added on day 0. *)
Definition mistral_only : MultiAIManager.t :=
  MultiAIManager.add_provider 0 "Mistral" "sk-mi" "https://api.mistral.ai/v1"
                              "mistral-large" 500 MultiAIManager.init.

(** A conversation with an entry that is no turn. *)
Definition with_system_entry : list Msg :=
  [mkMsg "system" "Be brief."; mkMsg "user" "hi"; mkMsg "assistant" "Sure."].

(** A configuration file edited by hand: two complete entries (the second
    for a vendor without key), an entry that lost its [model], and a
    complete entry after it. *)
Definition complete_entries : list JSONObject :=
  [ [("name", JString "OpenAI"); ("base_url", JString "https://api.openai.com/v1");
     ("model", JString "gpt-4"); ("daily_limit", JInt 1000)];
    [("name", JString "Mistral"); ("base_url", JString "https://api.mistral.ai/v1");
     ("model", JString "mistral-large"); ("daily_limit", JInt 500)] ]%string.

Definition entry_without_model : JSONObject :=
  [("name", JString "Claude"); ("base_url", JString "https://api.anthropic.com/v1");
   ("daily_limit", JInt 1000)]%string.

Definition later_entries : list JSONObject :=
  [ [("name", JString "DeepSeek"); ("base_url", JString "https://api.deepseek.com/v1");
     ("model", JString "deepseek-chat"); ("daily_limit", JInt 1000)] ]%string.

Definition edited_by_hand : gmap string (list JSONObject) :=
  {[ "providers.json"%string :=
       complete_entries ++ entry_without_model :: later_entries ]}.

(** The file written by a router whose only provider has used its quota. *)
Definition used_up_saved : gmap string (list JSONObject) :=
  MultiAIManager.save_configuration Scenario.quota_used_up "providers.json" ∅.

End Scenario2.

(** ** The primitives on concrete inputs *)

Example lower_is_ascii_lowercase :
  Py.lower "HTTP 429: Rate_LIMIT @[`{" = "http 429: rate_limit @[`{"%string.
Proof. reflexivity. Qed.

Example contains_finds_substring :
  Py.contains "rate_limit" "error: rate_limit_exceeded" = true ∧
  Py.contains "rate_limit" "rate limit" = false ∧
  Py.contains "" "" = true.
Proof. repeat split; reflexivity. Qed.

Example str_formats_decimal :
  Py.str 500 = "500"%string ∧ Py.str 0 = "0"%string ∧ Py.str (-42) = "-42"%string.
Proof. repeat split; reflexivity. Qed.

Example slice_from_negative_start :
  Py.slice_from (-2) [1; 2; 3] = [2; 3] ∧
  Py.slice_from (-5) [1; 2; 3] = [1; 2; 3] ∧
  Py.slice_from 0 [1; 2; 3] = [1; 2; 3] ∧
  Py.slice_from 7 [1; 2; 3] = [].
Proof. repeat split; reflexivity. Qed.

(** The scenario of the specification: the first provider fails with a
    rate-limit body, the second answers.  The first is marked unavailable,
    the second's dict is returned and the rotation index is its position. *)
Example first_rate_limited_second_answers :
  ∃ out,
    MultiAIManager.send_message 0 Scenario.first_rate_limited
      Scenario.three_providers "hi" true [] = Some out ∧
    MultiAIManager.result out = Success "Sure." "Claude" 12 ∧
    AIProvider.is_available
      <$> MultiAIManager.providers (MultiAIManager.manager out)
      = [false; true; true] ∧
    AIProvider.messages_used_today
      <$> MultiAIManager.providers (MultiAIManager.manager out)
      = [0; 1; 0] ∧
    MultiAIManager.current_provider_index (MultiAIManager.manager out) = 1 ∧
    length (MultiAIManager.http_log out) = 2%nat.
Proof. eexists. split; [by vm_compute|]. by vm_compute. Qed.

(** ** Facts about a single provider *)

Section ProviderFacts.

Import AIProvider.

Variable today : Z.
Variable post : Network.

Lemma reset_daily_counter_same_day p :
  today ≤ last_reset p → reset_daily_counter today p = p.
Proof.
  intros Hday. unfold reset_daily_counter.
  destruct (Z.ltb_spec (last_reset p) today); [lia | done].
Qed.

Lemma reset_daily_counter_new_day p :
  last_reset p < today →
  reset_daily_counter today p =
    mk (name p) (api_key p) (base_url p) (model p) (daily_limit p)
       0 today true (last_error p).
Proof.
  intros Hday. unfold reset_daily_counter.
  destruct (Z.ltb_spec (last_reset p) today); [done | lia].
Qed.

Lemma reset_daily_counter_last_reset p :
  today ≤ last_reset (reset_daily_counter today p).
Proof.
  destruct (Z.lt_ge_cases (last_reset p) today).
  - rewrite reset_daily_counter_new_day by done. simpl. lia.
  - by rewrite reset_daily_counter_same_day.
Qed.

Lemma reset_daily_counter_idem p :
  reset_daily_counter today (reset_daily_counter today p) = reset_daily_counter today p.
Proof. apply reset_daily_counter_same_day, reset_daily_counter_last_reset. Qed.

Lemma reset_daily_counter_frame p :
  name (reset_daily_counter today p) = name p ∧
  api_key (reset_daily_counter today p) = api_key p ∧
  base_url (reset_daily_counter today p) = base_url p ∧
  model (reset_daily_counter today p) = model p ∧
  daily_limit (reset_daily_counter today p) = daily_limit p ∧
  last_error (reset_daily_counter today p) = last_error p.
Proof. unfold reset_daily_counter. by case_match. Qed.

Lemma can_send_message_self p :
  (can_send_message today p).2 = reset_daily_counter today p.
Proof. done. Qed.

Lemma can_send_message_true p :
  (can_send_message today p).1 = true ↔
  is_available (reset_daily_counter today p) = true ∧
  messages_used_today (reset_daily_counter today p)
    < daily_limit (reset_daily_counter today p).
Proof.
  unfold can_send_message. simpl.
  rewrite andb_true_iff, Z.ltb_lt. done.
Qed.

Lemma can_send_message_idem p :
  can_send_message today (reset_daily_counter today p) = can_send_message today p.
Proof. unfold can_send_message. by rewrite reset_daily_counter_idem. Qed.

(** What one request does to the provider that issues it. *)
Lemma handle_response_spec p req context' log :
  let sent := handle_response post p req context' log in
  context_after sent = context' ∧
  http_log sent = log ++ [req] ∧
  name (self sent) = name p ∧ api_key (self sent) = api_key p ∧
  base_url (self sent) = base_url p ∧ model (self sent) = model p ∧
  daily_limit (self sent) = daily_limit p ∧
  last_reset (self sent) = last_reset p ∧
  last_error (self sent) = last_error p ∧
  (messages_used_today (self sent) = messages_used_today p ∨
   messages_used_today (self sent) = messages_used_today p + 1) ∧
  (is_available (self sent) = is_available p ∨ is_available (self sent) = false) ∧
  ∀ response provider tokens_used,
    returned sent = inr (Success response provider tokens_used) →
    provider = name p ∧
    messages_used_today (self sent) = messages_used_today p + 1 ∧
    is_available (self sent) = is_available p.
Proof.
  unfold handle_response.
  repeat case_match; simpl; repeat split; auto; intros; simplify_eq; auto.
Qed.

(** The vendor methods differ in the request they build and in what they
    do to the caller's context list; the rest is [handle_response]. *)
Lemma dispatch_spec p message context log sent :
  dispatch post p message context log = Some sent →
  ∃ req context',
    sent = handle_response post p req context' log ∧
    (context' = context ∨
     ∃ shared, context = Some shared ∧
               context' = Some (shared ++ [mkMsg "user" message])).
Proof.
  unfold dispatch, _send_openai_message, _send_claude_message,
    _send_deepseek_message, context_or_new_append.
  intros Hsent. repeat case_match; simplify_eq; eauto 8.
Qed.

Lemma provider_send_cannot_send p message context log :
  (can_send_message today p).1 = false →
  send_message today post p message context log =
    mkEffect (Error ("Daily limit reached for " +:+ name p))
             (reset_daily_counter today p) context log.
Proof.
  intros Hno. unfold send_message.
  destruct (can_send_message today p) as [ok p'] eqn:Hcan.
  assert (p' = reset_daily_counter today p) as -> by (by inversion Hcan).
  simpl in Hno. subst ok. simpl.
  by destruct (reset_daily_counter_frame p) as (-> & _).
Qed.

Lemma provider_send_spec p message context log :
  let p0 := reset_daily_counter today p in
  let sent := send_message today post p message context log in
  name (self sent) = name p ∧ api_key (self sent) = api_key p ∧
  base_url (self sent) = base_url p ∧ model (self sent) = model p ∧
  daily_limit (self sent) = daily_limit p ∧
  last_reset (self sent) = last_reset p0 ∧
  (messages_used_today (self sent) = messages_used_today p0 ∨
   messages_used_today (self sent) = messages_used_today p0 + 1 ∧
   is_available p0 = true ∧ messages_used_today p0 < daily_limit p0) ∧
  (is_available (self sent) = is_available p0 ∨ is_available (self sent) = false) ∧
  (context_after sent = context ∨
   ∃ shared, context = Some shared ∧
             context_after sent = Some (shared ++ [mkMsg "user" message])) ∧
  log `prefix_of` http_log sent ∧
  ∀ response provider tokens_used,
    returned sent = Success response provider tokens_used →
    provider = name p ∧
    messages_used_today (self sent) = messages_used_today p0 + 1 ∧
    is_available (self sent) = true.
Proof.
  intros p0 sent. subst sent.
  destruct (reset_daily_counter_frame p) as (Hn & Hk & Hu & Hm & Hl & He).
  fold p0 in Hn, Hk, Hu, Hm, Hl, He.
  destruct ((can_send_message today p).1) eqn:Hcan.
  2:{ rewrite provider_send_cannot_send by done. fold p0. simpl.
      repeat split; auto; intros; simplify_eq. }
  apply can_send_message_true in Hcan as [Hav Hlt]. fold p0 in Hav, Hlt.
  unfold send_message, can_send_message. fold p0. rewrite Hav. simpl.
  destruct (Z.ltb_spec (messages_used_today p0) (daily_limit p0)); [|lia]. simpl.
  destruct (dispatch post p0 message context log) as [sent|] eqn:Hd.
  2:{ simpl. repeat split; auto; intros; simplify_eq. }
  apply dispatch_spec in Hd as (req & context' & -> & Hctx).
  pose proof (handle_response_spec p0 req context' log) as Hr. simpl in Hr.
  destruct Hr as (Hc & Hlog & Hn' & Hk' & Hu' & Hm' & Hl' & Hd' & He' & Hused & Hflag & Hok).
  assert (log `prefix_of` log ++ [req]) by (by apply prefix_app_r).
  destruct (returned (handle_response post p0 req context' log)) as [e|r] eqn:Hret; simpl.
  - rewrite Hc, Hlog. repeat split; try congruence; auto; intros; simplify_eq.
    destruct Hused as [->| ->]; auto.
  - rewrite Hc, Hlog.
    repeat split; try congruence; auto; intros; simplify_eq.
    + destruct Hused as [->| ->]; auto.
    + by destruct (Hok _ _ _ eq_refl) as (-> & ? & ?).
    + by destruct (Hok _ _ _ eq_refl) as (_ & ? & ?).
    + destruct (Hok _ _ _ eq_refl) as (_ & ? & ?). congruence.
Qed.

End ProviderFacts.

(** ** Facts about the rotation order *)

Lemma rotation_length start n : length (rotation start n) = n.
Proof. unfold rotation. by rewrite length_fmap, length_seq. Qed.

Lemma rotation_lookup start n i :
  (i < n)%nat →
  rotation start n !! i = Some (position_at start n i).
Proof.
  intros Hi. unfold rotation.
  by rewrite list_lookup_fmap, lookup_seq_lt.
Qed.

Lemma rotation_head start n :
  (0 < n)%nat → head (rotation start n) = Some (Z.to_nat (start `mod` Z.of_nat n)).
Proof.
  intros Hn. rewrite head_lookup, rotation_lookup by done.
  unfold position_at. by rewrite Z.add_0_r.
Qed.

(** Two offsets below [n] that land on the same position are equal. *)
Lemma position_at_inj start (n i j : nat) :
  (i < n)%nat → (j < n)%nat →
  position_at start n i = position_at start n j → i = j.
Proof.
  unfold position_at. intros Hi Hj Heq.
  assert (0 < Z.of_nat n) as Hn by lia.
  pose proof (Z.mod_pos_bound (start + Z.of_nat i) _ Hn) as Hbi.
  pose proof (Z.mod_pos_bound (start + Z.of_nat j) _ Hn) as Hbj.
  apply Z2Nat.inj in Heq; [|lia..].
  pose proof (Z.div_mod (start + Z.of_nat i) (Z.of_nat n) ltac:(lia)) as Hdi.
  pose proof (Z.div_mod (start + Z.of_nat j) (Z.of_nat n) ltac:(lia)) as Hdj.
  rewrite Heq in Hdi.
  assert ((start + Z.of_nat i) `div` Z.of_nat n
            = (start + Z.of_nat j) `div` Z.of_nat n) by nia.
  nia.
Qed.

Lemma position_at_lt start (n i : nat) :
  (0 < n)%nat → (position_at start n i < n)%nat.
Proof.
  unfold position_at. intros Hn.
  pose proof (Z.mod_pos_bound (start + Z.of_nat i) (Z.of_nat n) ltac:(lia)).
  lia.
Qed.

Lemma rotation_NoDup start n : NoDup (rotation start n).
Proof.
  apply NoDup_alt. intros i j k Hi Hj.
  pose proof (lookup_lt_Some _ _ _ Hi) as Hli.
  pose proof (lookup_lt_Some _ _ _ Hj) as Hlj.
  rewrite rotation_length in Hli, Hlj.
  rewrite rotation_lookup in Hi, Hj by done.
  simplify_eq. eapply position_at_inj; eauto.
Qed.

(** The rotation visits every position of the candidate list, once. *)
Lemma rotation_Permutation start n : rotation start n ≡ₚ seq 0 n.
Proof.
  apply submseteq_length_Permutation.
  - apply NoDup_submseteq; [apply rotation_NoDup|].
    intros k [i Hi]%list_elem_of_lookup.
    pose proof (lookup_lt_Some _ _ _ Hi) as Hlt.
    rewrite rotation_length in Hlt.
    rewrite rotation_lookup in Hi by done. simplify_eq.
    apply elem_of_seq. split; [lia|].
    apply position_at_lt. lia.
  - by rewrite rotation_length, length_seq.
Qed.

(** ** Facts about the candidate list *)

Section ManagerFacts.

Import MultiAIManager.

Variable today : Z.
Variable post : Network.

Lemma available_from_spec ps i pid :
  pid ∈ available_from today i ps ↔
  (i ≤ pid)%nat ∧
  ∃ p, ps !! (pid - i)%nat = Some p ∧ (AIProvider.can_send_message today p).1 = true.
Proof.
  revert i. induction ps as [|p ps IH]; intros i; cbn [available_from].
  - split; [by intros ?%elem_of_nil | by intros (_ & ? & ? & _)].
  - assert (pid ∈ available_from today (S i) ps ↔
            (i < pid)%nat ∧ ∃ q, (p :: ps) !! (pid - i)%nat = Some q ∧
                                 (AIProvider.can_send_message today q).1 = true) as Htail.
    { rewrite IH. split.
      - intros (Hle & q & Hq & Hcan). split; [lia|]. exists q. split; [|done].
        by replace (pid - i)%nat with (S (pid - S i)) by lia.
      - intros (Hle & q & Hq & Hcan). split; [lia|]. exists q. split; [|done].
        by replace (pid - i)%nat with (S (pid - S i)) in Hq by lia. }
    destruct ((AIProvider.can_send_message today p).1) eqn:Hp.
    + rewrite elem_of_cons, Htail. split.
      * intros [->|(Hlt & q & Hq & Hcan)].
        -- split; [lia|]. exists p. by rewrite Nat.sub_diag.
        -- split; [lia|]. eauto.
      * intros (Hle & q & Hq & Hcan).
        destruct (decide (pid = i)) as [->|]; [by left|].
        right. split; [lia|]. eauto.
    + rewrite Htail. split.
      * intros (Hlt & q & Hq & Hcan). split; [lia|]. eauto.
      * intros (Hle & q & Hq & Hcan).
        destruct (decide (pid = i)) as [->|].
        -- rewrite Nat.sub_diag in Hq. simpl in Hq. congruence.
        -- split; [lia|]. eauto.
Qed.

Lemma available_from_NoDup ps i : NoDup (available_from today i ps).
Proof.
  revert i. induction ps as [|p ps IH]; intros i; cbn [available_from];
    [constructor|].
  case_match; [|done].
  constructor; [|done].
  intros (Hle & _)%available_from_spec. lia.
Qed.

(** A candidate is a position of [self.providers] whose provider can send. *)
Lemma get_available_providers_spec m pid :
  pid ∈ (get_available_providers today m).1 ↔
  ∃ p, providers m !! pid = Some p ∧ (AIProvider.can_send_message today p).1 = true.
Proof.
  unfold get_available_providers. simpl. rewrite available_from_spec.
  rewrite Nat.sub_0_r. split; [by intros (_ & ?) | intros ?; split; [lia | done]].
Qed.

Lemma get_available_providers_NoDup m : NoDup (get_available_providers today m).1.
Proof. apply available_from_NoDup. Qed.

Lemma get_available_providers_providers m :
  providers (get_available_providers today m).2
    = AIProvider.reset_daily_counter today <$> providers m.
Proof. done. Qed.

End ManagerFacts.

(** ** Facts about the router's loop *)

Section LoopFacts.

Import MultiAIManager.

Variable today : Z.
Variable post : Network.

Lemma absorb_providers pid sent m :
  providers (absorb pid sent m) = <[pid := AIProvider.self sent]> (providers m).
Proof. unfold absorb. by case_match. Qed.

Lemma absorb_current_provider_index pid sent m :
  current_provider_index (absorb pid sent m) = current_provider_index m.
Proof. unfold absorb. by case_match. Qed.

Lemma absorb_max_context_length pid sent m :
  max_context_length (absorb pid sent m) = max_context_length m.
Proof. unfold absorb. by case_match. Qed.

Lemma absorb_conversation_context pid sent m :
  conversation_context (absorb pid sent m)
    = default (conversation_context m) (AIProvider.context_after sent).
Proof. unfold absorb. by case_match. Qed.

Lemma remember_turn_frame message response m :
  providers (remember_turn message response m) = providers m ∧
  current_provider_index (remember_turn message response m)
    = current_provider_index m ∧
  max_context_length (remember_turn message response m) = max_context_length m.
Proof. done. Qed.

(** One turn of the loop, spelled out. *)
Lemma send_loop_cons (available : list nat) message (preserve_context : bool) i range
    (m : t) log tried (pid : nat) provider :
  available !! position_at (current_provider_index m) (length available) i = Some pid →
  providers m !! pid = Some provider →
  let context := if preserve_context then Some (conversation_context m) else None in
  let sent := AIProvider.send_message today post provider message context log in
  let tried' := tried ++ [mkAttempt (position_at (current_provider_index m) (length available) i)
                                    pid (AIProvider.returned sent)] in
  send_loop today post available message preserve_context (i :: range) m log tried =
    match AIProvider.returned sent with
    | Success response _ _ =>
        Some (mkOutcome (AIProvider.returned sent)
                (set_current_provider_index
                   ((current_provider_index m + Z.of_nat i) `mod` Z.of_nat (length available))
                   (if preserve_context
                    then remember_turn message response (absorb pid sent m)
                    else absorb pid sent m))
                (AIProvider.http_log sent) tried')
    | Error _ =>
        send_loop today post available message preserve_context range
                  (absorb pid sent m) (AIProvider.http_log sent) tried'
    end.
Proof.
  intros Hpid Hprov. cbn [send_loop]. unfold position_at in Hpid.
  rewrite Hpid. cbn [mbind option_bind]. rewrite Hprov. done.
Qed.

Lemma send_loop_spec (available : list nat) message preserve_context range
    (m : t) log tried :
  available ≠ [] →
  Forall (λ pid, (pid < length (providers m))%nat) available →
  ∃ out new,
    send_loop today post available message preserve_context range m log tried
      = Some out ∧
    attempts out = tried ++ new ∧
    Forall (λ a, available !! position a = Some (provider_id a)) new ∧
    position <$> new `prefix_of`
      position_at (current_provider_index m) (length available) <$> range ∧
    length (providers (manager out)) = length (providers m) ∧
    max_context_length (manager out) = max_context_length m ∧
    log `prefix_of` http_log out ∧
    match result out with
    | Error e =>
        e = "All available providers failed to respond"%string ∧
        position <$> new
          = position_at (current_provider_index m) (length available) <$> range ∧
        Forall (λ a, is_error (outcome a) = true) new ∧
        current_provider_index (manager out) = current_provider_index m
    | Success _ _ _ =>
        ∃ failed won,
          new = failed ++ [won] ∧
          Forall (λ a, is_error (outcome a) = true) failed ∧
          outcome won = result out ∧
          current_provider_index (manager out) = Z.of_nat (position won)
    end.
Proof.
  intros Hne Hvalid.
  assert (0 < length available)%nat as Hn by (destruct available; [done | simpl; lia]).
  revert m log tried Hvalid.
  induction range as [|i range IH]; intros m log tried Hvalid.
  - eexists _, []. cbn [send_loop]. split; [done|]. simpl.
    rewrite app_nil_r. repeat split; auto.
  - set (k := position_at (current_provider_index m) (length available) i).
    destruct (lookup_lt_is_Some_2 available k) as [pid Hpid];
      [by apply position_at_lt|].
    assert (pid < length (providers m))%nat as Hlt.
    { eapply Forall_forall in Hvalid; [done|]. by eapply list_elem_of_lookup_2. }
    destruct (lookup_lt_is_Some_2 _ _ Hlt) as [provider Hprov].
    rewrite (send_loop_cons _ _ _ _ _ _ _ _ pid provider) by done.
    set (context := if preserve_context then _ else _).
    pose proof (provider_send_spec today post provider message context log)
      as (_ & _ & _ & _ & _ & _ & _ & _ & _ & Hlog & _).
    set (sent := AIProvider.send_message today post provider message context log) in *.
    fold k.
    destruct (AIProvider.returned sent) as [e|response prov tokens] eqn:Hret.
    + destruct (IH (absorb pid sent m) (AIProvider.http_log sent)
                  (tried ++ [mkAttempt k pid (Error e)]))
        as (out & new & Hrun & Hatt & Hpos & Hpre & Hlen & Hmax & Hlog' & Hres).
      { rewrite absorb_providers, length_insert. done. }
      rewrite absorb_current_provider_index in Hpre, Hres.
      rewrite absorb_providers, length_insert in Hlen.
      rewrite absorb_max_context_length in Hmax.
      exists out, (mkAttempt k pid (Error e) :: new).
      split; [done|]. split; [by rewrite Hatt, <-app_assoc|].
      split; [by constructor|].
      split; [rewrite !fmap_cons; by apply prefix_cons|].
      split; [done|]. split; [done|]. split; [by etrans|].
      destruct (result out).
      * destruct Hres as (-> & Hall & Herr & Hcur).
        repeat split; auto. rewrite !fmap_cons. by f_equal.
      * destruct Hres as (failed & won & -> & Herr & Hwon & Hcur).
        exists (mkAttempt k pid (Error e) :: failed), won.
        repeat split; auto.
    + eexists _, [mkAttempt k pid (Success response prov tokens)].
      split; [done|]. simpl.
      split; [done|]. split; [by repeat constructor|].
      split; [apply prefix_cons, prefix_nil|].
      assert (length (providers (if preserve_context
                then remember_turn message response (absorb pid sent m)
                else absorb pid sent m)) = length (providers m)
              ∧ max_context_length (if preserve_context
                then remember_turn message response (absorb pid sent m)
                else absorb pid sent m) = max_context_length m) as [? ?].
      { destruct preserve_context.
        - destruct (remember_turn_frame message response (absorb pid sent m))
            as (-> & _ & ->).
          by rewrite absorb_providers, length_insert, absorb_max_context_length.
        - by rewrite absorb_providers, length_insert, absorb_max_context_length. }
      split; [done|]. split; [done|]. split; [done|].
      exists [], (mkAttempt k pid (Success response prov tokens)).
      repeat split; auto. simpl. unfold k, position_at.
      pose proof (Z.mod_pos_bound (current_provider_index m + Z.of_nat i)
                    (Z.of_nat (length available)) ltac:(lia)).
      lia.
Qed.

(** A property of providers that every attempt preserves is preserved by
    the loop. *)
Lemma send_loop_providers_Forall (P : AIProvider.t → Prop)
    (available : list nat) message preserve_context range (m : t) log tried out :
  (∀ p msg context lg,
     P p → P (AIProvider.self (AIProvider.send_message today post p msg context lg))) →
  Forall P (providers m) →
  send_loop today post available message preserve_context range m log tried
    = Some out →
  Forall P (providers (manager out)).
Proof.
  intros Hstep. revert m log tried.
  induction range as [|i range IH]; intros m log tried HP Hrun.
  - cbn [send_loop] in Hrun. by simplify_eq.
  - destruct (available !! position_at (current_provider_index m) (length available) i)
      as [pid|] eqn:Hpid.
    2:{ cbn [send_loop] in Hrun. unfold position_at in Hpid.
        by rewrite Hpid in Hrun. }
    destruct (providers m !! pid) as [provider|] eqn:Hprov.
    2:{ cbn [send_loop] in Hrun. unfold position_at in Hpid.
        rewrite Hpid in Hrun. cbn [mbind option_bind] in Hrun.
        by rewrite Hprov in Hrun. }
    rewrite (send_loop_cons _ _ _ _ _ _ _ _ pid provider) in Hrun by done.
    set (context := if preserve_context then _ else _) in Hrun.
    set (sent := AIProvider.send_message today post provider message context log) in *.
    assert (Forall P (providers (absorb pid sent m))) as HP'.
    { rewrite absorb_providers. apply Forall_insert; [done|].
      apply Hstep. eapply Forall_lookup_1; eauto. }
    destruct (AIProvider.returned sent) as [e|response prov tokens].
    + by eapply IH.
    + simplify_eq. simpl. destruct preserve_context; [|done].
      by destruct (remember_turn_frame message response (absorb pid sent m)) as (-> & _).
Qed.

(** The provider whose attempt succeeds: it was untouched by the attempts
    before it, and its counter went up by one. *)
Lemma send_loop_winner (available : list nat) message preserve_context range
    (m : t) log tried out response prov tokens :
  NoDup available → NoDup range →
  (∀ i, i ∈ range → (i < length available)%nat) →
  send_loop today post available message preserve_context range m log tried
    = Some out →
  result out = Success response prov tokens →
  ∃ j pid before after,
    j ∈ range ∧
    current_provider_index (manager out)
      = Z.of_nat (position_at (current_provider_index m) (length available) j) ∧
    available !! position_at (current_provider_index m) (length available) j
      = Some pid ∧
    providers m !! pid = Some before ∧
    providers (manager out) !! pid = Some after ∧
    AIProvider.messages_used_today after
      = AIProvider.messages_used_today (AIProvider.reset_daily_counter today before) + 1 ∧
    prov = AIProvider.name before ∧
    AIProvider.is_available after = true.
Proof.
  intros Hnd. revert m log tried.
  induction range as [|i range IH]; intros m log tried Hrange Hlt Hrun Hres.
  - cbn [send_loop] in Hrun. by simplify_eq.
  - apply NoDup_cons in Hrange as [Hi Hrange].
    set (k := position_at (current_provider_index m) (length available) i).
    destruct (available !! k) as [pid|] eqn:Hpid.
    2:{ cbn [send_loop] in Hrun. unfold k, position_at in Hpid.
        by rewrite Hpid in Hrun. }
    destruct (providers m !! pid) as [provider|] eqn:Hprov.
    2:{ cbn [send_loop] in Hrun. unfold k, position_at in Hpid.
        rewrite Hpid in Hrun. cbn [mbind option_bind] in Hrun.
        by rewrite Hprov in Hrun. }
    rewrite (send_loop_cons _ _ _ _ _ _ _ _ pid provider) in Hrun by done.
    set (context := if preserve_context then _ else _) in Hrun.
    pose proof (provider_send_spec today post provider message context log)
      as (Hname & _ & _ & _ & _ & _ & _ & _ & _ & _ & Hok).
    set (sent := AIProvider.send_message today post provider message context log) in *.
    assert (0 < length available)%nat as Hn.
    { pose proof (Hlt i ltac:(by left)). lia. }
    destruct (AIProvider.returned sent) as [e|response' prov' tokens'] eqn:Hret.
    + destruct (IH _ _ _ Hrange ltac:(intros; apply Hlt; by right) Hrun Hres)
        as (j & pid' & before & after & Hj & Hcur & Hpid' & Hbefore & Hafter & Hrest).
      rewrite absorb_current_provider_index in Hcur, Hpid'.
      assert (pid' ≠ pid) as Hne.
      { intros ->.
        assert (position_at (current_provider_index m) (length available) j = k) as Heq
          by exact (NoDup_lookup _ _ _ _ Hnd Hpid' Hpid).
        apply position_at_inj in Heq; [by subst| |].
        - apply Hlt. by right.
        - apply Hlt. by left. }
      rewrite absorb_providers, list_lookup_insert_ne in Hbefore by done.
      exists j, pid', before, after. split; [by right|]. done.
    + simplify_eq. simpl in Hres. simplify_eq.
      destruct (Hok _ _ _ eq_refl) as (-> & Hused & Hav).
      exists i, pid, provider, (AIProvider.self sent).
      split; [by left|].
      split.
      { simpl. fold k. unfold k, position_at.
        pose proof (Z.mod_pos_bound (current_provider_index m + Z.of_nat i)
                      (Z.of_nat (length available)) ltac:(lia)).
        lia. }
      split; [done|]. split; [done|].
      split; [|done].
      simpl.
      assert (providers (absorb pid sent m) !! pid = Some (AIProvider.self sent)) as Hl.
      { rewrite absorb_providers. apply list_lookup_insert_eq.
        by eapply lookup_lt_Some. }
      destruct preserve_context; [|done].
      by destruct (remember_turn_frame message response (absorb pid sent m)) as (-> & _).
Qed.

End LoopFacts.

(** ** Facts about the conversation context *)

Section ContextFacts.

Import MultiAIManager.

Variable today : Z.
Variable post : Network.

Lemma slice_from_suffix {A} (start : Z) (l : list A) : Py.slice_from start l `suffix_of` l.
Proof. unfold Py.slice_from. apply suffix_drop. Qed.

(** With a positive bound, [l[-cap:]] is the last [cap] elements. *)
Lemma slice_from_last {A} (cap : Z) (l : list A) :
  0 < cap → Py.slice_from (- cap) l = drop (length l - Z.to_nat cap) l.
Proof.
  intros Hcap. unfold Py.slice_from.
  destruct (Z.ltb_spec (- cap) 0); [|lia].
  f_equal. lia.
Qed.

Lemma trim_context_suffix cap ctx : trim_context cap ctx `suffix_of` ctx.
Proof. unfold trim_context. case_match; [apply slice_from_suffix | done]. Qed.

Lemma trim_context_last cap ctx :
  0 < cap → trim_context cap ctx = drop (length ctx - Z.to_nat cap) ctx.
Proof.
  intros Hcap. unfold trim_context.
  destruct (Z.gtb_spec (Z.of_nat (length ctx)) cap).
  - by apply slice_from_last.
  - replace (length ctx - Z.to_nat cap)%nat with 0%nat by lia. done.
Qed.

Lemma trim_context_length cap ctx :
  0 < cap → Z.of_nat (length (trim_context cap ctx)) ≤ cap.
Proof. intros Hcap. rewrite trim_context_last, length_drop by done. lia. Qed.

(** A call made without the context leaves it alone. *)
Lemma send_loop_context_untouched (available : list nat) message range (m : t)
    log tried out :
  send_loop today post available message false range m log tried = Some out →
  conversation_context (manager out) = conversation_context m.
Proof.
  revert m log tried.
  induction range as [|i range IH]; intros m log tried Hrun.
  - cbn [send_loop] in Hrun. by simplify_eq.
  - destruct (available !! position_at (current_provider_index m) (length available) i)
      as [pid|] eqn:Hpid.
    2:{ cbn [send_loop] in Hrun. unfold position_at in Hpid.
        by rewrite Hpid in Hrun. }
    destruct (providers m !! pid) as [provider|] eqn:Hprov.
    2:{ cbn [send_loop] in Hrun. unfold position_at in Hpid.
        rewrite Hpid in Hrun. cbn [mbind option_bind] in Hrun.
        by rewrite Hprov in Hrun. }
    rewrite (send_loop_cons _ _ _ _ _ _ _ _ _ _ pid provider) in Hrun by done.
    pose proof (provider_send_spec today post provider message None log)
      as (_ & _ & _ & _ & _ & _ & _ & _ & Hctx & _).
    set (sent := AIProvider.send_message today post provider message None log) in *.
    assert (conversation_context (absorb pid sent m) = conversation_context m) as Hsame.
    { rewrite absorb_conversation_context.
      destruct Hctx as [-> | (shared & ? & _)]; [done | discriminate]. }
    destruct (AIProvider.returned sent) as [e|response prov tokens].
    + by rewrite (IH _ _ _ Hrun).
    + by simplify_eq/=.
Qed.

(** A call made with the context: every attempt may have appended the user
    entry to it, and a success appends the turn and trims. *)
Lemma send_loop_context_grows (available : list nat) message range (m : t)
    log tried out :
  send_loop today post available message true range m log tried = Some out →
  ∃ k, (k ≤ length range)%nat ∧
    let seen := conversation_context m ++ replicate k (mkMsg "user" message) in
    conversation_context (manager out) =
      match result out with
      | Error _ => seen
      | Success response _ _ =>
          trim_context (max_context_length m)
            (seen ++ [mkMsg "user" message; mkMsg "assistant" response])
      end.
Proof.
  revert m log tried.
  induction range as [|i range IH]; intros m log tried Hrun.
  - cbn [send_loop] in Hrun. simplify_eq. exists 0%nat. simpl.
    by rewrite app_nil_r.
  - destruct (available !! position_at (current_provider_index m) (length available) i)
      as [pid|] eqn:Hpid.
    2:{ cbn [send_loop] in Hrun. unfold position_at in Hpid.
        by rewrite Hpid in Hrun. }
    destruct (providers m !! pid) as [provider|] eqn:Hprov.
    2:{ cbn [send_loop] in Hrun. unfold position_at in Hpid.
        rewrite Hpid in Hrun. cbn [mbind option_bind] in Hrun.
        by rewrite Hprov in Hrun. }
    rewrite (send_loop_cons _ _ _ _ _ _ _ _ _ _ pid provider) in Hrun by done.
    pose proof (provider_send_spec today post provider message
                  (Some (conversation_context m)) log)
      as (_ & _ & _ & _ & _ & _ & _ & _ & Hctx & _).
    set (sent := AIProvider.send_message today post provider message
                   (Some (conversation_context m)) log) in *.
    assert (∃ k0, (k0 ≤ 1)%nat ∧
              conversation_context (absorb pid sent m)
                = conversation_context m ++ replicate k0 (mkMsg "user" message))
      as (k0 & Hk0 & Hseen).
    { rewrite absorb_conversation_context.
      destruct Hctx as [-> | (shared & ? & ->)]; simplify_eq/=.
      - exists 0%nat. split; [lia|]. by rewrite app_nil_r.
      - exists 1%nat. split; [lia|]. done. }
    destruct (AIProvider.returned sent) as [e|response prov tokens].
    + destruct (IH _ _ _ Hrun) as (k & Hk & Hout).
      exists (k0 + k)%nat. split; [simpl; lia|].
      simpl in *. rewrite Hout, Hseen, absorb_max_context_length.
      rewrite replicate_add, !app_assoc. done.
    + simplify_eq/=. exists k0. split; [lia|].
      unfold remember_turn. simpl.
      rewrite Hseen, absorb_max_context_length. done.
Qed.

End ContextFacts.

(** ** The loop against the attempts taken in turn *)

Section LoopRefinement.

Import MultiAIManager.

Variable today : Z.
Variable post : Network.

(** The rollover check that [send_message] begins with makes a provider
    and its checked copy indistinguishable to it. *)
Lemma provider_send_after_reset p message context log :
  AIProvider.send_message today post (AIProvider.reset_daily_counter today p)
                          message context log
    = AIProvider.send_message today post p message context log.
Proof.
  unfold AIProvider.send_message. by rewrite can_send_message_idem.
Qed.

Lemma try_in_turn_after_reset message preserve_context candidates context log :
  try_in_turn today post message preserve_context
              (AIProvider.reset_daily_counter today <$> candidates) context log
    = try_in_turn today post message preserve_context candidates context log.
Proof.
  revert context log.
  induction candidates as [|p candidates IH]; intros context log; [done|].
  rewrite fmap_cons. cbn [try_in_turn].
  rewrite provider_send_after_reset.
  f_equal. destruct (AIProvider.returned _); [apply IH | done].
Qed.

(** The loop is [try_in_turn] over the providers whose turn it is: same
    results, same providers left behind, same requests. *)
Lemma send_loop_refines (available : list nat) message (preserve_context : bool)
    range (m : t) log tried candidates :
  NoDup available → NoDup range →
  (∀ i, i ∈ range → (i < length available)%nat) →
  Forall2 (λ i p, ∃ pid,
             available !! position_at (current_provider_index m) (length available) i
               = Some pid ∧
             providers m !! pid = Some p) range candidates →
  ∃ out new,
    send_loop today post available message preserve_context range m log tried
      = Some out ∧
    attempts out = tried ++ new ∧
    let effects := try_in_turn today post message preserve_context candidates
                               (conversation_context m) log in
    position <$> new
      = position_at (current_provider_index m) (length available)
          <$> take (length effects) range ∧
    outcome <$> new = AIProvider.returned <$> effects ∧
    Forall (λ a, ∃ i, i ∈ range ∧
                      position a = position_at (current_provider_index m)
                                               (length available) i ∧
                      available !! position a = Some (provider_id a)) new ∧
    (∀ j a e, new !! j = Some a → effects !! j = Some e →
              providers (manager out) !! provider_id a = Some (AIProvider.self e)) ∧
    (∀ pid, pid ∉ provider_id <$> new →
            providers (manager out) !! pid = providers m !! pid) ∧
    http_log out = default log (AIProvider.http_log <$> last effects).
Proof.
  intros Hnd Hrange Hlt Hcands. revert m log tried Hrange Hlt Hcands.
  revert candidates.
  induction range as [|i range IH]; intros candidates m log tried Hrange Hlt Hcands.
  - apply Forall2_nil_inv_l in Hcands as ->.
    eexists _, []. cbn [send_loop]. split; [done|]. simpl.
    rewrite app_nil_r. repeat split; auto. done.
  - apply Forall2_cons_inv_l in Hcands
      as (p & candidates' & (pid & Hpid & Hprov) & Hcands & ->).
    apply NoDup_cons in Hrange as [Hi Hrange].
    set (k := position_at (current_provider_index m) (length available) i) in *.
    rewrite (send_loop_cons _ _ _ _ _ _ _ _ _ _ pid p) by done. fold k.
    cbn [try_in_turn].
    set (context := if preserve_context then _ else _).
    set (sent := AIProvider.send_message today post p message context log) in *.
    assert (pid < length (providers m))%nat as Hpidlt by (by eapply lookup_lt_Some).
    assert (providers (absorb pid sent m) !! pid = Some (AIProvider.self sent)) as Hself.
    { rewrite absorb_providers. by apply list_lookup_insert_eq. }
    assert (∀ pid', pid' ≠ pid →
              providers (absorb pid sent m) !! pid' = providers m !! pid') as Hother.
    { intros pid' Hne. rewrite absorb_providers. by apply list_lookup_insert_ne. }
    destruct (AIProvider.returned sent) as [e|response prov tokens] eqn:Hret.
    + (* the attempt failed: the loop goes on *)
      assert (∀ i' pid', i' ∈ range →
                available !! position_at (current_provider_index m)
                                         (length available) i' = Some pid' →
                pid' ≠ pid) as Hfresh.
      { intros i' pid' Hi' Hpid' ->.
        pose proof (NoDup_lookup _ _ _ _ Hnd Hpid' Hpid) as Heq.
        apply position_at_inj in Heq; [by subst| |].
        - apply Hlt. by right.
        - apply Hlt. by left. }
      destruct (IH candidates' (absorb pid sent m) (AIProvider.http_log sent)
                  (tried ++ [mkAttempt k pid (Error e)]))
        as (out & new & Hrun & Hatt & Hpos & Hout & Hin & Hleft & Hkept & Hlog).
      { done. }
      { intros i' Hi'. apply Hlt. by right. }
      { rewrite absorb_current_provider_index.
        apply Forall2_lookup. intros j.
        destruct (range !! j) as [i'|] eqn:Hj.
        - destruct (Forall2_lookup_l _ _ _ j i' Hcands Hj)
            as (p' & Hp' & pid' & Hpid' & Hprov').
          rewrite Hp'. constructor. exists pid'. split; [done|].
          rewrite Hother; [done|].
          eapply Hfresh; [|done]. by eapply list_elem_of_lookup_2.
        - apply lookup_ge_None in Hj as Hj'.
          rewrite (Forall2_length _ _ _ Hcands) in Hj'.
          apply lookup_ge_None in Hj'. rewrite Hj'. constructor. }
      rewrite absorb_current_provider_index in Hpos, Hin.
      rewrite absorb_conversation_context in Hpos, Hout, Hleft, Hlog.
      set (effects := try_in_turn today post message preserve_context candidates'
                        (default (conversation_context m) (AIProvider.context_after sent))
                        (AIProvider.http_log sent)) in *.
      exists out, (mkAttempt k pid (Error e) :: new).
      split; [done|]. split; [by rewrite Hatt, <-app_assoc|].
      assert (context = if preserve_context then Some (conversation_context m) else None)
        as Hcontext by done.
      cbn zeta.
      split.
      { rewrite fmap_cons. cbn [length take]. by rewrite fmap_cons, Hpos. }
      split.
      { rewrite !fmap_cons, Hout. simpl. by rewrite Hret. }
      assert (pid ∉ provider_id <$> new) as Hnotin.
      { intros (a & Ha & Hain)%list_elem_of_fmap.
        eapply Forall_forall in Hin as (i' & Hi' & Hposa & Hava); [|done].
        rewrite Hposa, <-Ha in Hava. by eapply Hfresh. }
      split.
      { constructor.
        - exists i. split; [by left|]. done.
        - eapply Forall_impl; [exact Hin|].
          intros a (i' & Hi' & ? & ?). exists i'. split; [by right | done]. }
      split.
      { intros [|j] a e' Ha He'; simplify_eq/=.
        - by rewrite Hkept.
        - by eapply Hleft. }
      split.
      { intros pid' Hpid'. rewrite fmap_cons in Hpid'.
        apply not_elem_of_cons in Hpid' as [Hne Hpid'].
        rewrite Hkept by done. by apply Hother. }
      rewrite Hlog. destruct effects as [|e0 rest]; [done|].
      rewrite last_cons_cons.
      destruct (proj2 (last_is_Some (e0 :: rest)) ltac:(done)) as [x ->]. done.
    + (* the attempt succeeded: the loop returns *)
      eexists _, [mkAttempt k pid (Success response prov tokens)].
      split; [done|]. cbn zeta. split; [done|].
      assert (providers (if preserve_context
                         then remember_turn message response (absorb pid sent m)
                         else absorb pid sent m)
              = providers (absorb pid sent m)) as Hps by (by destruct preserve_context).
      split; [done|]. split; [simpl; by rewrite Hret|].
      split.
      { constructor; [|constructor]. exists i. split; [by left|]. done. }
      split.
      { intros [|j] a e' Ha He'; simplify_eq/=. by rewrite Hps. }
      split; [|done].
      intros pid' Hpid'. simpl in Hpid'.
      apply not_elem_of_cons in Hpid' as [Hne _].
      simpl. rewrite Hps. by apply Hother.
Qed.

End LoopRefinement.

(** ** The properties of the router *)

Section RouterProperties.

Import MultiAIManager.

(** C7. With no provider configured, [send_message] returns the error
    "No AI providers configured"; it attempts nothing, issues no request
    and leaves the router as it was. *)
Theorem send_message_no_providers today post (m : t) message preserve_context log :
  providers m = [] →
  send_message today post m message preserve_context log
    = Some (mkOutcome (Error "No AI providers configured") m log []).
Proof. intros Hnone. unfold send_message. by rewrite Hnone. Qed.

Lemma send_message_no_providers_witness :
  providers init = [] ∧
  send_message 0 Scenario.answering init "hello" true []
    = Some (mkOutcome (Error "No AI providers configured") init [] []).
Proof.
  split; [reflexivity|].
  apply (send_message_no_providers 0 Scenario.answering init "hello" true []).
  reflexivity.
Defined.

Lemma set_providers_id (m : t) : set_providers (providers m) m = m.
Proof. by destruct m. Qed.

Lemma exhausted_cannot_send today p :
  exhausted today p →
  AIProvider.can_send_message today p = (false, p).
Proof.
  intros [Hday Hno]. unfold AIProvider.can_send_message.
  rewrite reset_daily_counter_same_day by lia.
  f_equal. destruct Hno as [-> | Hover]; [done|].
  apply andb_false_intro2. by apply Z.ltb_ge.
Qed.

Lemma get_available_providers_exhausted today (m : t) :
  Forall (exhausted today) (providers m) →
  get_available_providers today m = ([], m).
Proof.
  intros Hall. unfold get_available_providers.
  assert (∀ i, available_from today i (providers m) = []) as ->.
  { induction Hall as [|p ps Hp _ IH]; intros i; cbn [available_from]; [done|].
    rewrite (exhausted_cannot_send _ _ Hp). apply IH. }
  assert ((λ p, (AIProvider.can_send_message today p).2) <$> providers m
            = providers m) as ->.
  { induction Hall as [|p ps Hp _ IH]; [done|].
    rewrite fmap_cons, IH. by rewrite (exhausted_cannot_send _ _ Hp). }
  by rewrite set_providers_id.
Qed.

(** C8. With at least one provider configured, all of them over quota or
    marked unavailable and their reset date being today, [send_message]
    returns the error "All AI providers have reached their daily limits";
    it attempts nothing, issues no request and leaves the router as it was. *)
Theorem send_message_all_exhausted today post (m : t) message preserve_context log :
  providers m ≠ [] →
  Forall (exhausted today) (providers m) →
  send_message today post m message preserve_context log
    = Some (mkOutcome (Error "All AI providers have reached their daily limits")
                      m log []).
Proof.
  intros Hsome Hall. unfold send_message.
  destruct (providers m) eqn:Hps; [done|].
  rewrite get_available_providers_exhausted; [done|]. by rewrite Hps.
Qed.

Lemma send_message_all_exhausted_witness :
  providers Scenario.quota_used_up ≠ [] ∧
  Forall (exhausted 0) (providers Scenario.quota_used_up) ∧
  send_message 0 Scenario.answering Scenario.quota_used_up "hello" true []
    = Some (mkOutcome (Error "All AI providers have reached their daily limits")
                      Scenario.quota_used_up [] []).
Proof.
  assert (providers Scenario.quota_used_up ≠ []) as Hsome by discriminate.
  assert (Forall (exhausted 0) (providers Scenario.quota_used_up)) as Hall.
  { constructor; [|constructor]. split; [reflexivity|]. right. simpl. lia. }
  split; [exact Hsome|]. split; [exact Hall|].
  exact (send_message_all_exhausted 0 Scenario.answering Scenario.quota_used_up
           "hello" true [] Hsome Hall).
Defined.

Lemma configuration_same_but_api_key (m1 m2 : t) :
  Forall2 same_but_api_key (providers m1) (providers m2) →
  configuration m1 = configuration m2.
Proof.
  unfold configuration. intros Hsame.
  induction Hsame as [|p q ps qs (Hn & Hu & Hm & Hl & _) _ IH]; [done|].
  rewrite !fmap_cons, IH, Hn, Hu, Hm, Hl. done.
Qed.

(** C9. The configuration written by [save_configuration] holds, for each
    provider, the four fields name, base_url, model and daily_limit and
    nothing else; two routers that differ only in their API keys write the
    same file content. *)
Theorem save_configuration_hides_api_keys (m1 m2 : t) filepath fs :
  differ_only_in_api_keys m1 m2 →
  save_configuration m1 filepath fs = save_configuration m2 filepath fs ∧
  save_configuration m1 filepath fs !! filepath = Some (configuration m1) ∧
  length (configuration m1) = length (providers m1) ∧
  Forall (λ entry : JSONObject,
            entry.*1 = ["name"; "base_url"; "model"; "daily_limit"]%string)
         (configuration m1).
Proof.
  intros (Hsame & _). unfold save_configuration.
  split; [by rewrite (configuration_same_but_api_key m1 m2 Hsame)|].
  split; [apply lookup_insert_eq|].
  unfold configuration. split; [by rewrite length_fmap|].
  apply Forall_fmap, Forall_forall. done.
Qed.

Lemma save_configuration_hides_api_keys_witness :
  differ_only_in_api_keys Scenario.three_providers Scenario.three_providers_rekeyed ∧
  save_configuration Scenario.three_providers "providers.json" ∅
    = save_configuration Scenario.three_providers_rekeyed "providers.json" ∅.
Proof.
  assert (differ_only_in_api_keys Scenario.three_providers
            Scenario.three_providers_rekeyed) as Hdiff.
  { split; [|done]. repeat constructor. }
  split; [exact Hdiff|].
  exact (proj1 (save_configuration_hides_api_keys Scenario.three_providers
                  Scenario.three_providers_rekeyed "providers.json" ∅ Hdiff)).
Defined.

(** C6. When the stored reset date is earlier than today, the first access
    sets the counter to 0, the reset date to today and the availability
    flag to true; a further access on that date changes nothing; the reset
    is what [can_send_message] and the status and availability queries do
    to a provider, on a date not later than the stored one an access
    resets nothing, and the calls that do not query a provider leave the
    providers as they are. *)
Theorem lazy_daily_rollover today (p : AIProvider.t) :
  AIProvider.last_reset p < today →
  let p' := AIProvider.reset_daily_counter today p in
  p' = AIProvider.mk (AIProvider.name p) (AIProvider.api_key p)
         (AIProvider.base_url p) (AIProvider.model p) (AIProvider.daily_limit p)
         0 today true (AIProvider.last_error p) ∧
  AIProvider.reset_daily_counter today p' = p' ∧
  AIProvider.can_send_message today p = (0 <? AIProvider.daily_limit p, p') ∧
  AIProvider.can_send_message today p' = (0 <? AIProvider.daily_limit p, p') ∧
  (∀ m, providers (get_provider_status today m).2
          = AIProvider.reset_daily_counter today <$> providers m) ∧
  (∀ m, providers (get_available_providers today m).2
          = AIProvider.reset_daily_counter today <$> providers m) ∧
  (∀ day, day ≤ AIProvider.last_reset p → AIProvider.reset_daily_counter day p = p) ∧
  (∀ m, providers (reset_conversation m) = providers m) ∧
  (∀ m day name api_key base_url model daily_limit,
     providers (add_provider day name api_key base_url model daily_limit m)
       = providers m ++ [AIProvider.init day name api_key base_url model daily_limit]).
Proof.
  intros Hday p'.
  assert (p' = AIProvider.mk (AIProvider.name p) (AIProvider.api_key p)
         (AIProvider.base_url p) (AIProvider.model p) (AIProvider.daily_limit p)
         0 today true (AIProvider.last_error p)) as Hp'
    by (by apply reset_daily_counter_new_day).
  assert (AIProvider.reset_daily_counter today p' = p') as Hidem
    by apply reset_daily_counter_idem.
  split; [done|]. split; [done|].
  split.
  { unfold AIProvider.can_send_message. fold p'. by rewrite Hp'. }
  split.
  { unfold AIProvider.can_send_message. rewrite Hidem. by rewrite Hp'. }
  split; [done|]. split; [done|].
  split; [intros; by apply reset_daily_counter_same_day|].
  done.
Qed.

Lemma lazy_daily_rollover_witness :
  let p := AIProvider.mk "OpenAI" "sk-1" "https://api.openai.com/v1" "gpt-4"
                         1000 1000 0 false None in
  AIProvider.last_reset p < 1 ∧
  AIProvider.can_send_message 0 p = (false, p) ∧
  AIProvider.can_send_message 1 p
    = (true, AIProvider.mk "OpenAI" "sk-1" "https://api.openai.com/v1" "gpt-4"
                           1000 0 1 true None).
Proof.
  intros p.
  assert (AIProvider.last_reset p < 1) as Hday by (simpl; lia).
  split; [exact Hday|]. split; [reflexivity|].
  exact (proj1 (proj2 (proj2 (lazy_daily_rollover 1 p Hday)))).
Defined.

Lemma reset_daily_counter_quota today p :
  quota_respected p → quota_respected (AIProvider.reset_daily_counter today p).
Proof.
  unfold quota_respected, AIProvider.reset_daily_counter.
  case_match; simpl; [lia | done].
Qed.

Lemma provider_send_quota today post p message context log :
  quota_respected p →
  quota_respected
    (AIProvider.self (AIProvider.send_message today post p message context log)).
Proof.
  intros Hq%(reset_daily_counter_quota today).
  pose proof (provider_send_spec today post p message context log)
    as (_ & _ & _ & _ & Hl & _ & Hused & _).
  destruct (reset_daily_counter_frame today p) as (_ & _ & _ & _ & Hl0 & _).
  unfold quota_respected in *. rewrite Hl. rewrite Hl0 in Hq, Hused.
  intros Hnonneg. destruct Hused as [-> | (-> & _ & Hlt)]; [auto | lia].
Qed.

Lemma router_send_quota today post (m : t) message preserve_context log out :
  Forall quota_respected (providers m) →
  send_message today post m message preserve_context log = Some out →
  Forall quota_respected (providers (manager out)).
Proof.
  intros Hq. unfold send_message.
  destruct (providers m) eqn:Hps; [intros; by simplify_eq/=; rewrite Hps|].
  rewrite <-Hps in *. clear Hps.
  destruct (get_available_providers today m) as [available m0] eqn:Hgap.
  assert (Forall quota_respected (providers m0)) as Hq0.
  { assert (m0 = (get_available_providers today m).2) as -> by (by rewrite Hgap).
    rewrite get_available_providers_providers.
    apply Forall_fmap. eapply Forall_impl; [done|].
    intros p Hp. by apply reset_daily_counter_quota. }
  destruct available; [intros; by simplify_eq/=|].
  apply send_loop_providers_Forall; [|done].
  intros. by apply provider_send_quota.
Qed.

Lemma step_quota e w w' :
  Forall quota_respected (providers (router w)) →
  step e w = Some w' →
  Forall quota_respected (providers (router w')).
Proof.
  intros Hq. unfold step.
  destruct (call e) as [name api_key base_url model daily_limit| |message pc| | |filepath];
    intros Hstep; simplify_eq/=; try done.
  - apply Forall_app. split; [done|]. constructor; [|done].
    unfold quota_respected. simpl. lia.
  - apply Forall_fmap. eapply Forall_impl; [done|].
    intros p Hp. by apply reset_daily_counter_quota.
  - destruct (send_message _ _ _ _ _ _) as [out|] eqn:Hrun; simplify_eq/=.
    by eapply router_send_quota.
  - apply Forall_fmap. eapply Forall_impl; [done|].
    intros p Hp. by apply reset_daily_counter_quota.
Qed.

Lemma run_quota events w w' :
  Forall quota_respected (providers (router w)) →
  run events w = Some w' →
  Forall quota_respected (providers (router w')).
Proof.
  revert w. induction events as [|e events IH]; intros w Hq Hrun; simplify_eq/=.
  - done.
  - destruct (step e w) as [w1|] eqn:Hstep; simplify_eq/=.
    eapply IH; [|done]. by eapply step_quota.
Qed.

(** C10. In every state a client can reach from a freshly constructed
    router, each provider whose daily limit is not negative has used at
    most its limit; a further [send_message] of such a provider keeps it
    so, the counter going up by at most one and only when the guard found
    it below the limit, and a rollover puts it back to 0. *)
Theorem quota_never_exceeded events w :
  run events initial_world = Some w →
  Forall quota_respected (providers (router w)) ∧
  ∀ p today post message context log,
    p ∈ providers (router w) →
    let p0 := AIProvider.reset_daily_counter today p in
    let sent := AIProvider.send_message today post p message context log in
    quota_respected (AIProvider.self sent) ∧
    AIProvider.daily_limit (AIProvider.self sent) = AIProvider.daily_limit p ∧
    (AIProvider.messages_used_today (AIProvider.self sent)
       = AIProvider.messages_used_today p0 ∨
     AIProvider.messages_used_today (AIProvider.self sent)
       = AIProvider.messages_used_today p0 + 1 ∧
     AIProvider.messages_used_today p0 < AIProvider.daily_limit p) ∧
    (AIProvider.last_reset p < today → AIProvider.messages_used_today p0 = 0).
Proof.
  intros Hrun.
  assert (Forall quota_respected (providers (router w))) as Hq.
  { eapply run_quota; [|done]. constructor. }
  split; [done|].
  intros p today post message context log Hp p0 sent.
  pose proof (provider_send_spec today post p message context log)
    as (_ & _ & _ & _ & Hl & _ & Hused & _).
  destruct (reset_daily_counter_frame today p) as (_ & _ & _ & _ & Hl0 & _).
  fold p0 in Hused, Hl0. fold sent in Hused, Hl.
  split.
  { apply provider_send_quota. eapply Forall_forall in Hq; eauto. }
  split; [done|].
  split.
  { destruct Hused as [?|(? & _ & ?)]; [by left | right; split; [done | lia]]. }
  intros Hday. unfold p0. by rewrite reset_daily_counter_new_day.
Qed.

Lemma quota_never_exceeded_witness :
  run (Scenario.openai_session 3) initial_world = Some (Scenario.after_openai_session 3) ∧
  Forall quota_respected (providers (router (Scenario.after_openai_session 3))).
Proof.
  assert (run (Scenario.openai_session 3) initial_world
            = Some (Scenario.after_openai_session 3)) as Hrun by reflexivity.
  split; [exact Hrun|].
  exact (proj1 (quota_never_exceeded (Scenario.openai_session 3)
                  (Scenario.after_openai_session 3) Hrun)).
Defined.

(** With a candidate, a call is its loop over the candidates. *)
Lemma router_send_loop today post (m : t) message preserve_context log :
  (get_available_providers today m).1 ≠ [] →
  send_message today post m message preserve_context log =
    send_loop today post (get_available_providers today m).1 message preserve_context
      (seq 0 (length (get_available_providers today m).1))
      (get_available_providers today m).2 log [].
Proof.
  intros Havail. unfold send_message.
  destruct (providers m) eqn:Hps.
  { exfalso. apply Havail. unfold get_available_providers. by rewrite Hps. }
  clear Hps.
  destruct (get_available_providers today m) as [available m0]. simpl in *.
  by destruct available.
Qed.

(** Without a candidate, a call attempts nothing. *)
Lemma router_send_no_candidate today post (m : t) message preserve_context log out :
  (get_available_providers today m).1 = [] →
  send_message today post m message preserve_context log = Some out →
  attempts out = [] ∧ is_error (result out) = true ∧ http_log out = log.
Proof.
  intros Hnone. unfold send_message.
  destruct (providers m); [intros; by simplify_eq/=|].
  destruct (get_available_providers today m) as [available m0]. simpl in *.
  subst. intros; by simplify_eq/=.
Qed.

Lemma get_available_providers_valid today (m : t) :
  Forall (λ pid, (pid < length (providers (get_available_providers today m).2))%nat)
         (get_available_providers today m).1.
Proof.
  apply Forall_forall. intros pid (p & Hp & _)%get_available_providers_spec.
  rewrite get_available_providers_providers, length_fmap.
  by eapply lookup_lt_Some.
Qed.

Lemma get_available_providers_frame today (m : t) :
  current_provider_index (get_available_providers today m).2 = current_provider_index m ∧
  conversation_context (get_available_providers today m).2 = conversation_context m ∧
  max_context_length (get_available_providers today m).2 = max_context_length m.
Proof. done. Qed.

(** A call always returns. *)
Lemma router_send_total today post (m : t) message preserve_context log :
  is_Some (send_message today post m message preserve_context log).
Proof.
  destruct (decide ((get_available_providers today m).1 = [])) as [Hnone|Havail].
  { unfold send_message. destruct (providers m); [by eauto|].
    destruct (get_available_providers today m) as [available m0]. simpl in *.
    subst. eauto. }
  rewrite router_send_loop by done.
  destruct (send_loop_spec today post _ message preserve_context
              (seq 0 (length (get_available_providers today m).1))
              _ log [] Havail (get_available_providers_valid today m))
    as (out & _ & -> & _).
  eauto.
Qed.

(** A call made with [preserve_context] false leaves the context as it
    was, whatever happens to the attempts. *)
Lemma router_send_context_untouched today post (m : t) message log out :
  send_message today post m message false log = Some out →
  conversation_context (manager out) = conversation_context m.
Proof.
  intros Hrun.
  destruct (decide ((get_available_providers today m).1 = [])) as [Hnone|Havail].
  { unfold send_message in Hrun. destruct (providers m); [by simplify_eq/=|].
    destruct (get_available_providers today m) as [available m0] eqn:Hgap.
    simpl in *. subst. simplify_eq/=.
    by assert (m0 = (get_available_providers today m).2) as -> by (by rewrite Hgap). }
  rewrite router_send_loop in Hrun by done.
  by apply send_loop_context_untouched in Hrun.
Qed.

(** A call made with [preserve_context] true: the context gains the user
    entry once for some of the attempts and, on success, the turn; then it
    is trimmed. *)
Lemma router_send_context today post (m : t) message log out :
  send_message today post m message true log = Some out →
  ∃ k, (k ≤ length (get_available_providers today m).1)%nat ∧
    let seen := conversation_context m ++ replicate k (mkMsg "user" message) in
    conversation_context (manager out) =
      match result out with
      | Error _ => seen
      | Success response _ _ =>
          trim_context (max_context_length m)
            (seen ++ [mkMsg "user" message; mkMsg "assistant" response])
      end.
Proof.
  intros Hrun.
  destruct (decide ((get_available_providers today m).1 = [])) as [Hnone|Havail].
  { exists 0%nat. split; [lia|]. simpl. rewrite app_nil_r.
    unfold send_message in Hrun. destruct (providers m); [by simplify_eq/=|].
    destruct (get_available_providers today m) as [available m0] eqn:Hgap.
    simpl in *. subst. simplify_eq/=.
    by assert (m0 = (get_available_providers today m).2) as -> by (by rewrite Hgap). }
  rewrite router_send_loop in Hrun by done.
  apply send_loop_context_grows in Hrun as (k & Hk & Hout).
  rewrite length_seq in Hk. by exists k.
Qed.

(** After a successful call with [preserve_context] true and a positive cap,
    the context is within the cap and holds the most recent entries. *)
Lemma router_send_success_within_cap today post (m : t) message log out :
  send_message today post m message true log = Some out →
  is_error (result out) = false →
  0 < max_context_length m →
  Z.of_nat (length (conversation_context (manager out))) ≤ max_context_length m ∧
  ∃ k response,
    conversation_context (manager out) `suffix_of`
      conversation_context m ++ replicate k (mkMsg "user" message)
        ++ [mkMsg "user" message; mkMsg "assistant" response].
Proof.
  intros Hrun Hok Hcap.
  destruct (router_send_context _ _ _ _ _ _ Hrun) as (k & _ & Hout). simpl in Hout.
  destruct (result out) as [e|response provider tokens]; [done|].
  rewrite Hout. split; [by apply trim_context_length|].
  exists k, response. rewrite (app_assoc (conversation_context m)).
  apply trim_context_suffix.
Qed.

(** What the loop lemmas say of a whole call with candidates. *)
Lemma router_send_run today post (m : t) message preserve_context log :
  (get_available_providers today m).1 ≠ [] →
  let available := (get_available_providers today m).1 in
  let order := rotation (current_provider_index m) (length available) in
  ∃ out,
    send_message today post m message preserve_context log = Some out ∧
    position <$> attempts out `prefix_of` order ∧
    Forall (λ a, available !! position a = Some (provider_id a)) (attempts out) ∧
    match result out with
    | Success _ _ _ =>
        ∃ failed won,
          attempts out = failed ++ [won] ∧
          Forall (λ a, is_error (outcome a) = true) failed ∧
          outcome won = result out ∧
          current_provider_index (manager out) = Z.of_nat (position won)
    | Error e =>
        e = "All available providers failed to respond"%string ∧
        position <$> attempts out = order ∧
        Forall (λ a, is_error (outcome a) = true) (attempts out)
    end.
Proof.
  intros Havail available order.
  rewrite router_send_loop by done. fold available.
  destruct (send_loop_spec today post available message preserve_context
              (seq 0 (length available)) (get_available_providers today m).2
              log [] Havail (get_available_providers_valid today m))
    as (out & new & Hrun & Hatt & Hpos & Hpre & Hlen & Hmax & Hlog & Hres).
  simpl in Hatt. subst new.
  destruct (get_available_providers_frame today m) as (Hcur & _).
  rewrite Hcur in Hpre, Hres.
  exists out. split; [done|]. split; [done|]. split; [done|].
  destruct (result out); [|done].
  by destruct Hres as (? & ? & ? & _).
Qed.

(** The provider behind a successful call. *)
Lemma router_send_winner today post (m : t) message preserve_context log
    out response provider tokens won :
  send_message today post m message preserve_context log = Some out →
  result out = Success response provider tokens →
  last (attempts out) = Some won →
  (get_available_providers today m).1 !! position won = Some (provider_id won) →
  current_provider_index (manager out) = Z.of_nat (position won) →
  ∃ before after,
    providers m !! provider_id won = Some before ∧
    providers (manager out) !! provider_id won = Some after ∧
    provider = AIProvider.name before ∧
    AIProvider.is_available after = true ∧
    AIProvider.messages_used_today after
      = AIProvider.messages_used_today
          (AIProvider.reset_daily_counter today before) + 1.
Proof.
  intros Hrun Hresult Hlast Hpos Hidx.
  assert ((get_available_providers today m).1 ≠ []) as Havail.
  { intros Hnone. by rewrite Hnone in Hpos. }
  rewrite router_send_loop in Hrun by done.
  set (available := (get_available_providers today m).1) in *.
  destruct (send_loop_winner today post available message preserve_context
              (seq 0 (length available)) (get_available_providers today m).2
              log [] out response provider tokens)
    as (j & pid & before & after & Hj & Hidx' & Hpid & Hbefore & Hafter
        & Hused & Hname & Hflag).
  { apply get_available_providers_NoDup. }
  { apply NoDup_seq. }
  { intros i Hi%elem_of_seq. lia. }
  { done. }
  { done. }
  destruct (get_available_providers_frame today m) as (Hcur & _).
  rewrite Hcur in Hidx', Hpid.
  assert (position won = position_at (current_provider_index m) (length available) j)
    as Hposw by lia.
  assert (provider_id won = pid) as -> by (rewrite Hposw in Hpos; congruence).
  rewrite get_available_providers_providers in Hbefore.
  apply list_lookup_fmap_Some in Hbefore as (before0 & -> & Hbefore0).
  rewrite reset_daily_counter_idem in Hused.
  destruct (reset_daily_counter_frame today before0) as (Hn0 & _).
  exists before0, after. repeat split; auto. congruence.
Qed.

(** The providers whose turn it is, in order. *)
Lemma candidates_in_turn today (m : t) (order : list nat) :
  Forall (λ k, (k < length (get_available_providers today m).1)%nat) order →
  ∃ candidates,
    Forall2 (λ k p, ∃ pid, (get_available_providers today m).1 !! k = Some pid ∧
                           providers m !! pid = Some p) order candidates.
Proof.
  induction 1 as [|k order Hk _ [candidates IH]]; [by exists []|].
  destruct (lookup_lt_is_Some_2 _ _ Hk) as [pid Hpid].
  pose proof (list_elem_of_lookup_2 _ _ _ Hpid) as Hin.
  apply get_available_providers_spec in Hin as (p & Hp & _).
  exists (p :: candidates). constructor; [eauto | done].
Qed.

(** A call with candidates is [try_in_turn] over them, in rotation order. *)
Lemma router_send_refines today post (m : t) message preserve_context log :
  (get_available_providers today m).1 ≠ [] →
  let available := (get_available_providers today m).1 in
  let order := rotation (current_provider_index m) (length available) in
  ∃ out candidates,
    send_message today post m message preserve_context log = Some out ∧
    Forall2 (λ k p, ∃ pid, available !! k = Some pid ∧ providers m !! pid = Some p)
            order candidates ∧
    let effects := try_in_turn today post message preserve_context candidates
                               (conversation_context m) log in
    position <$> attempts out = take (length effects) order ∧
    outcome <$> attempts out = AIProvider.returned <$> effects ∧
    (∀ j a e, attempts out !! j = Some a → effects !! j = Some e →
              providers (manager out) !! provider_id a = Some (AIProvider.self e)) ∧
    (∀ pid p, pid ∉ provider_id <$> attempts out → providers m !! pid = Some p →
              providers (manager out) !! pid
                = Some (AIProvider.reset_daily_counter today p)) ∧
    http_log out = default log (AIProvider.http_log <$> last effects).
Proof.
  intros Havail available order.
  assert (0 < length available)%nat as Hn
    by (subst available; destruct (get_available_providers today m).1;
        [done | simpl; lia]).
  destruct (candidates_in_turn today m order) as [candidates Hcands].
  { apply Forall_forall. intros k [i Hi]%list_elem_of_lookup.
    pose proof (lookup_lt_Some _ _ _ Hi) as Hlt.
    unfold order in Hlt, Hi. rewrite rotation_length in Hlt.
    rewrite rotation_lookup in Hi by done. simplify_eq.
    by apply position_at_lt. }
  fold available in Hcands.
  destruct (get_available_providers_frame today m) as (Hcur & Hctx & _).
  destruct (send_loop_refines today post available message preserve_context
              (seq 0 (length available)) (get_available_providers today m).2 log []
              (AIProvider.reset_daily_counter today <$> candidates))
    as (out & new & Hrun & Hatt & Hpos & Hout & _ & Hleft & Hkept & Hlog).
  { apply get_available_providers_NoDup. }
  { apply NoDup_seq. }
  { intros i Hi%elem_of_seq. lia. }
  { rewrite Hcur. apply Forall2_fmap_r.
    unfold order, rotation in Hcands. apply Forall2_fmap_l in Hcands.
    eapply Forall2_impl; [exact Hcands|].
    intros i p (pid & Hpid & Hp). exists pid. split; [done|].
    rewrite get_available_providers_providers, list_lookup_fmap, Hp. done. }
  simpl in Hatt. subst new.
  rewrite Hcur, Hctx, try_in_turn_after_reset in *.
  exists out, candidates.
  split; [by rewrite router_send_loop|]. split; [done|]. cbn zeta.
  split; [by rewrite Hpos, fmap_take|]. split; [done|]. split; [done|].
  split; [|done].
  intros pid p Hpid Hp. rewrite Hkept by done.
  by rewrite get_available_providers_providers, list_lookup_fmap, Hp.
Qed.

(** C1. With a non-empty candidate list, the call is the specification's
    "try the candidates in rotation order until one succeeds": its attempts
    are, one for one, the calls of [AIProvider.send_message] on the
    providers whose turn it is, from the remembered index on, each handed
    the context and the request log the attempt before it left; every
    attempted provider is left as its call left it, the others as their
    rollover check left them, and the request log is that of the last
    attempt.  Positions and providers are attempted at most once.  When an
    attempt succeeds its dict is returned at once, every earlier attempt
    having failed, and the counter of that provider is one more than after
    its rollover check; the call returns the error "All available providers
    failed to respond" only after every candidate was attempted and failed. *)
Theorem send_message_rotation today post (m : t) message preserve_context log :
  (get_available_providers today m).1 ≠ [] →
  let available := (get_available_providers today m).1 in
  let order := rotation (current_provider_index m) (length available) in
  order ≡ₚ seq 0 (length available) ∧
  head order
    = Some (Z.to_nat (current_provider_index m `mod` Z.of_nat (length available))) ∧
  ∃ out candidates,
    send_message today post m message preserve_context log = Some out ∧
    Forall2 (λ k p, ∃ pid, available !! k = Some pid ∧ providers m !! pid = Some p)
            order candidates ∧
    let effects := try_in_turn today post message preserve_context candidates
                               (conversation_context m) log in
    position <$> attempts out = take (length effects) order ∧
    outcome <$> attempts out = AIProvider.returned <$> effects ∧
    (∀ j a e, attempts out !! j = Some a → effects !! j = Some e →
              providers (manager out) !! provider_id a = Some (AIProvider.self e)) ∧
    (∀ pid p, pid ∉ provider_id <$> attempts out → providers m !! pid = Some p →
              providers (manager out) !! pid
                = Some (AIProvider.reset_daily_counter today p)) ∧
    http_log out = default log (AIProvider.http_log <$> last effects) ∧
    position <$> attempts out `prefix_of` order ∧
    NoDup (position <$> attempts out) ∧
    NoDup (provider_id <$> attempts out) ∧
    Forall (λ a, available !! position a = Some (provider_id a)) (attempts out) ∧
    match result out with
    | Success _ provider _ =>
        ∃ failed won before after,
          attempts out = failed ++ [won] ∧
          Forall (λ a, is_error (outcome a) = true) failed ∧
          outcome won = result out ∧
          providers m !! provider_id won = Some before ∧
          providers (manager out) !! provider_id won = Some after ∧
          provider = AIProvider.name before ∧
          AIProvider.messages_used_today after
            = AIProvider.messages_used_today
                (AIProvider.reset_daily_counter today before) + 1
    | Error e =>
        e = "All available providers failed to respond"%string ∧
        position <$> attempts out = order ∧
        Forall (λ a, is_error (outcome a) = true) (attempts out)
    end.
Proof.
  intros Havail available order.
  assert (0 < length available)%nat as Hn
    by (subst available; destruct (get_available_providers today m).1;
        [done | simpl; lia]).
  split; [apply rotation_Permutation|].
  split; [by apply rotation_head|].
  destruct (router_send_refines today post m message preserve_context log Havail)
    as (out & candidates & Hrun & Hcands & Hturn & Hout & Hleft & Hkept & Hlog).
  destruct (router_send_run today post m message preserve_context log Havail)
    as (out' & Hrun' & Hpre & Hpos & Hres).
  assert (out' = out) as -> by congruence.
  fold available in Hpre, Hpos, Hres, Hcands. fold order in Hpre, Hres, Hcands, Hturn.
  assert (NoDup (position <$> attempts out)) as Hnd.
  { destruct Hpre as [rest Hrest].
    pose proof (rotation_NoDup (current_provider_index m) (length available)) as Hno.
    fold order in Hno. rewrite Hrest in Hno. by apply NoDup_app in Hno as (? & _). }
  exists out, candidates. split; [done|]. split; [done|]. cbn zeta.
  split; [done|]. split; [done|]. split; [done|]. split; [done|]. split; [done|].
  split; [done|]. split; [done|].
  split.
  { apply NoDup_alt. intros i j pid Hi Hj.
    apply list_lookup_fmap_Some in Hi as (a & -> & Ha).
    apply list_lookup_fmap_Some in Hj as (b & Hab & Hb).
    pose proof (Forall_lookup_1 _ _ _ _ Hpos Ha) as Hpa.
    pose proof (Forall_lookup_1 _ _ _ _ Hpos Hb) as Hpb. simpl in Hpa, Hpb.
    rewrite <-Hab in Hpb.
    pose proof (NoDup_lookup _ _ _ _ (get_available_providers_NoDup today m) Hpa Hpb)
      as Hsame.
    eapply NoDup_lookup; [exact Hnd| |].
    - rewrite list_lookup_fmap, Ha. done.
    - rewrite list_lookup_fmap, Hb. simpl. by rewrite Hsame. }
  split; [done|].
  destruct (result out) as [e|response provider tokens] eqn:Hresult; [done|].
  destruct Hres as (failed & won & Hnew & Hfailed & Hwon & Hidx).
  destruct (router_send_winner today post m message preserve_context log
              out response provider tokens won)
    as (before & after & Hbefore & Hafter & Hname & _ & Hused); try done.
  { by rewrite Hnew, last_snoc. }
  { rewrite Hnew in Hpos. apply Forall_app in Hpos as (_ & Hw).
    by rewrite Forall_singleton in Hw. }
  exists failed, won, before, after. done.
Qed.

Lemma send_message_rotation_witness :
  (get_available_providers 0 Scenario.three_providers).1 ≠ [] ∧
  ∃ out candidates,
    send_message 0 Scenario.first_rate_limited Scenario.three_providers
                 "hello" true [] = Some out ∧
    outcome <$> attempts out
      = AIProvider.returned
          <$> try_in_turn 0 Scenario.first_rate_limited "hello" true candidates [] [] ∧
    outcome <$> attempts out
      = [Error "HTTP 429: error: Rate_Limit_Exceeded"; Success "Sure." "Claude" 12] ∧
    position <$> attempts out `prefix_of` rotation 0 3.
Proof.
  assert ((get_available_providers 0 Scenario.three_providers).1 ≠ []) as Havail
    by discriminate.
  split; [exact Havail|].
  destruct (send_message_rotation 0 Scenario.first_rate_limited Scenario.three_providers
              "hello" true [] Havail)
    as (_ & _ & out & candidates & Hrun & _ & _ & Hout & _ & _ & _ & Hpre & _).
  exists out, candidates. split; [exact Hrun|]. split; [exact Hout|].
  split; [|exact Hpre].
  vm_compute in Hrun. injection Hrun as <-. reflexivity.
Defined.

(** The first attempt of a call is at the remembered index, taken modulo
    the number of candidates. *)
Lemma router_send_first today post (m : t) message preserve_context log
    out first :
  send_message today post m message preserve_context log = Some out →
  head (attempts out) = Some first →
  position first
    = Z.to_nat (current_provider_index m
                  `mod` Z.of_nat (length (get_available_providers today m).1)).
Proof.
  intros Hrun Hfirst.
  destruct (decide ((get_available_providers today m).1 = [])) as [Hnone|Havail].
  { destruct (router_send_no_candidate _ _ _ _ _ _ _ Hnone Hrun) as (Hatt & _).
    by rewrite Hatt in Hfirst. }
  destruct (router_send_run today post m message preserve_context log Havail)
    as (out' & Hrun' & [rest Hpre] & _).
  simplify_eq.
  set (n := length (get_available_providers today m).1) in *.
  assert (0 < n)%nat as Hn
    by (subst n; destruct (get_available_providers today m).1; [done | simpl; lia]).
  pose proof (rotation_head (current_provider_index m) n Hn) as Hhead.
  rewrite Hpre in Hhead.
  destruct (attempts out) as [|a rest']; simplify_eq/=. done.
Qed.

(** C5. After a successful call the rotation index is the position, in the
    candidate list of that call, of the provider that succeeded; whatever
    call comes next makes its first attempt at that index modulo the
    number of its own candidates. *)
Theorem rotation_index_after_success today post (m : t) message preserve_context
    log out :
  send_message today post m message preserve_context log = Some out →
  is_error (result out) = false →
  ∃ won winner response tokens,
    last (attempts out) = Some won ∧
    outcome won = result out ∧
    result out = Success response (AIProvider.name winner) tokens ∧
    (get_available_providers today m).1 !! position won = Some (provider_id won) ∧
    providers m !! provider_id won = Some winner ∧
    current_provider_index (manager out) = Z.of_nat (position won) ∧
    ∀ today' post' message' preserve_context' log' out' first,
      send_message today' post' (manager out) message' preserve_context' log'
        = Some out' →
      head (attempts out') = Some first →
      position first
        = Z.to_nat (Z.of_nat (position won)
                      `mod` Z.of_nat (length (get_available_providers
                                                today' (manager out)).1)).
Proof.
  intros Hrun Hok.
  assert ((get_available_providers today m).1 ≠ []) as Havail.
  { intros Hnone.
    destruct (router_send_no_candidate _ _ _ _ _ _ _ Hnone Hrun) as (_ & Herr & _).
    congruence. }
  destruct (router_send_run today post m message preserve_context log Havail)
    as (out' & Hrun' & Hpre & Hpos & Hres).
  simplify_eq.
  destruct (result out) as [e|response provider tokens] eqn:Hresult; [done|].
  destruct Hres as (failed & won & Hnew & Hfailed & Hwon & Hidx).
  assert (last (attempts out) = Some won) as Hlast by (by rewrite Hnew, last_snoc).
  assert ((get_available_providers today m).1 !! position won = Some (provider_id won))
    as Hposw.
  { rewrite Hnew in Hpos. apply Forall_app in Hpos as (_ & Hw).
    by rewrite Forall_singleton in Hw. }
  destruct (router_send_winner today post m message preserve_context log
              out response provider tokens won)
    as (before & after & Hbefore & Hafter & Hname & _ & Hused); try done.
  exists won, before, response, tokens.
  split; [done|]. split; [done|]. split; [by rewrite Hname|].
  split; [done|]. split; [done|]. split; [done|].
  intros today' post' message' pc' log' out' first Hnext Hfirst.
  rewrite <-Hidx. by eapply router_send_first.
Qed.

Lemma rotation_index_after_success_witness :
  ∃ out,
    send_message 0 Scenario.first_rate_limited Scenario.three_providers
                        "hello" true [] = Some out ∧
    is_error (result out) = false ∧
    current_provider_index (manager out) = 1.
Proof.
  eexists. split; [reflexivity|]. split; [reflexivity|].
  destruct (rotation_index_after_success 0 Scenario.first_rate_limited
              Scenario.three_providers "hello" true [] _ eq_refl eq_refl)
    as (won & winner & response & tokens & Hlast & _ & _ & _ & _ & Hidx & _).
  vm_compute in Hlast. injection Hlast as <-. exact Hidx.
Defined.

(** A response whose status is not 200. *)
Lemma handle_response_failure post p req context' log status_code text body :
  post (length log) req = PostReturns status_code text body →
  status_code ≠ 200 →
  AIProvider.handle_response post p req context' log =
    AIProvider.mkEffect
      (inr (Error ("HTTP " +:+ Py.str status_code +:+ ": " +:+ text)))
      (if Py.contains "rate_limit" (Py.lower text)
       then AIProvider.set_is_available false p else p)
      context' (log ++ [req]).
Proof.
  intros Hpost Hstatus. unfold AIProvider.handle_response. rewrite Hpost.
  by destruct (Z.eqb_spec status_code 200).
Qed.

Lemma dispatch_known_vendor post p message context log :
  Py.lower (AIProvider.name p) ∈ ["openai"; "claude"; "deepseek"]%string →
  is_Some (AIProvider.dispatch post p message context log).
Proof.
  unfold AIProvider.dispatch. intros Hname.
  repeat (apply elem_of_cons in Hname as [->|Hname]); [by eauto..|].
  by apply elem_of_nil in Hname.
Qed.

(** An unavailable provider refuses every call made on its reset date or
    before, and is left as it is. *)
Lemma provider_send_unavailable day post p message context log :
  AIProvider.is_available p = false →
  day ≤ AIProvider.last_reset p →
  AIProvider.send_message day post p message context log =
    AIProvider.mkEffect (Error ("Daily limit reached for " +:+ AIProvider.name p))
                        p context log.
Proof.
  intros Hflag Hday.
  rewrite provider_send_cannot_send.
  - by rewrite reset_daily_counter_same_day.
  - unfold AIProvider.can_send_message.
    rewrite reset_daily_counter_same_day by done. by rewrite Hflag.
Qed.

(** After a failed attempt the loop goes on to the next position of the
    rotation, if there is one. *)
Lemma router_send_continues today post (m : t) message preserve_context log
    out j a :
  send_message today post m message preserve_context log = Some out →
  attempts out !! j = Some a →
  is_error (outcome a) = true →
  (S j < length (get_available_providers today m).1)%nat →
  ∃ next,
    attempts out !! S j = Some next ∧
    position next
      = position_at (current_provider_index m)
                    (length (get_available_providers today m).1) (S j).
Proof.
  intros Hrun Ha Herr Hmore.
  assert ((get_available_providers today m).1 ≠ []) as Havail.
  { intros Hnone. rewrite Hnone in Hmore. simpl in Hmore. lia. }
  destruct (router_send_run today post m message preserve_context log Havail)
    as (out' & Hrun' & Hpre & _ & Hres).
  simplify_eq.
  set (n := length (get_available_providers today m).1) in *.
  assert (S j < length (attempts out))%nat as Hlen.
  { destruct (result out).
    - destruct Hres as (_ & Hall & _).
      rewrite <-(length_fmap position), Hall, rotation_length. done.
    - destruct Hres as (failed & won & Hnew & Hfailed & Hwon & _).
      rewrite Hnew, length_app. simpl.
      destruct (decide (j < length failed)%nat); [lia|].
      rewrite Hnew in Ha. rewrite lookup_app_r in Ha by lia.
      apply list_lookup_singleton_Some in Ha as [_ <-].
      rewrite Hwon in Herr. done. }
  destruct (lookup_lt_is_Some_2 _ _ Hlen) as [next Hnext].
  exists next. split; [done|].
  assert ((position <$> attempts out) !! S j = Some (position next)) as Hp
    by (by rewrite list_lookup_fmap, Hnext).
  eapply prefix_lookup_Some in Hp; [|done].
  rewrite rotation_lookup in Hp by done. congruence.
Qed.

(** C2, as the code has it.  An attempt answered with a status other than
    200 fails with the error "HTTP <status>: <body>"; the provider is marked
    unavailable exactly when the body, lower-cased, contains "rate_limit",
    and otherwise stays available.  Once unavailable, the provider refuses
    every call made up to its reset date and is not changed by it; the
    first access on a later date makes it available again.  In both cases
    the router goes on to the next candidate of the rotation. *)
Theorem failed_attempt_availability today post (p : AIProvider.t) message context
    log status_code text body :
  (AIProvider.can_send_message today p).1 = true →
  Py.lower (AIProvider.name p) ∈ ["openai"; "claude"; "deepseek"]%string →
  (∀ req, post (length log) req = PostReturns status_code text body) →
  status_code ≠ 200 →
  let sent := AIProvider.send_message today post p message context log in
  AIProvider.returned sent
    = Error ("HTTP " +:+ Py.str status_code +:+ ": " +:+ text) ∧
  AIProvider.is_available (AIProvider.self sent)
    = negb (Py.contains "rate_limit" (Py.lower text)) ∧
  (AIProvider.is_available (AIProvider.self sent) = false →
   ∀ day post' message' context' log',
     day ≤ AIProvider.last_reset (AIProvider.self sent) →
     AIProvider.send_message day post' (AIProvider.self sent) message' context' log'
       = AIProvider.mkEffect
           (Error ("Daily limit reached for " +:+ AIProvider.name p))
           (AIProvider.self sent) context' log') ∧
  (∀ day, AIProvider.last_reset (AIProvider.self sent) < day →
     AIProvider.is_available
       (AIProvider.reset_daily_counter day (AIProvider.self sent)) = true) ∧
  ∀ (m : t) preserve_context lg out j a,
    send_message today post m message preserve_context lg = Some out →
    attempts out !! j = Some a →
    is_error (outcome a) = true →
    (S j < length (get_available_providers today m).1)%nat →
    ∃ next,
      attempts out !! S j = Some next ∧
      position next
        = position_at (current_provider_index m)
                      (length (get_available_providers today m).1) (S j).
Proof.
  intros Hcan Hname Hpost Hstatus sent.
  set (p0 := AIProvider.reset_daily_counter today p).
  destruct (reset_daily_counter_frame today p) as (Hn & _). fold p0 in Hn.
  apply can_send_message_true in Hcan as [Hav Hlt]. fold p0 in Hav, Hlt.
  assert (∃ req context',
            sent = AIProvider.mkEffect
                     (Error ("HTTP " +:+ Py.str status_code +:+ ": " +:+ text))
                     (if Py.contains "rate_limit" (Py.lower text)
                      then AIProvider.set_is_available false p0 else p0)
                     context' (log ++ [req])) as (req & context' & Hsent).
  { subst sent. unfold AIProvider.send_message, AIProvider.can_send_message.
    fold p0. rewrite Hav. simpl.
    destruct (Z.ltb_spec (AIProvider.messages_used_today p0)
                         (AIProvider.daily_limit p0)); [|lia]. simpl.
    destruct (dispatch_known_vendor post p0 message context log) as [sent Hd];
      [by rewrite Hn|].
    rewrite Hd.
    apply dispatch_spec in Hd as (req & context' & -> & _).
    rewrite (handle_response_failure post p0 req context' log status_code text body)
      by done.
    simpl. eauto. }
  assert (AIProvider.name (AIProvider.self sent) = AIProvider.name p) as Hname'.
  { rewrite Hsent. simpl. by case_match. }
  split; [by rewrite Hsent|].
  split; [rewrite Hsent; simpl; by case_match|].
  split.
  { intros Hflag day post' message' context'' log' Hday.
    rewrite provider_send_unavailable by done. by rewrite Hname'. }
  split.
  { intros day Hday. by rewrite reset_daily_counter_new_day. }
  intros m pc lg out j a. apply router_send_continues.
Qed.

Lemma failed_attempt_availability_witness :
  let p := AIProvider.init 0 "OpenAI" "sk-1" "https://api.openai.com/v1" "gpt-4" 1000 in
  let sent := AIProvider.send_message 0 Scenario.rate_limited p "hello" None [] in
  (AIProvider.can_send_message 0 p).1 = true ∧
  Py.lower (AIProvider.name p) ∈ ["openai"; "claude"; "deepseek"]%string ∧
  AIProvider.returned sent = Error "HTTP 429: error: Rate_Limit_Exceeded" ∧
  AIProvider.is_available (AIProvider.self sent) = false.
Proof.
  intros p sent.
  assert ((AIProvider.can_send_message 0 p).1 = true) as Hcan by reflexivity.
  assert (Py.lower (AIProvider.name p) ∈ ["openai"; "claude"; "deepseek"]%string)
    as Hname by (vm_compute; left).
  assert (429 ≠ 200) as Hstatus by lia.
  split; [exact Hcan|]. split; [exact Hname|].
  destruct (failed_attempt_availability 0 Scenario.rate_limited p "hello" None []
              429 "error: Rate_Limit_Exceeded" (BodyRaises "Expecting value")
              Hcan Hname (λ _, eq_refl) Hstatus) as (Hret & Hflag & _).
  split; [exact Hret | exact Hflag].
Defined.

(** C2, as stated, fails: an attempt answered with status 500 and no
    rate-limit signal in the body fails, yet the provider stays available
    and can be chosen again the same day. *)
Lemma failure_without_signal_stays_available :
  let p := AIProvider.init 0 "OpenAI" "sk-1" "https://api.openai.com/v1" "gpt-4" 1000 in
  let sent := AIProvider.send_message 0 Scenario.server_error p "hello" None [] in
  AIProvider.returned sent = Error "HTTP 500: Internal Server Error" ∧
  AIProvider.is_available (AIProvider.self sent) = true ∧
  (AIProvider.can_send_message 0 (AIProvider.self sent)).1 = true.
Proof. by vm_compute. Qed.

(** C3 at a failing input.  After seven answered messages through the
    provider "OpenAI" the context holds 20 entries, the cap; a further call
    whose request is answered with status 500 returns the aggregate error
    and leaves 21 entries in the context. *)
Theorem context_over_cap_after_failed_send :
  let w := Scenario.after_openai_session 7 in
  run (Scenario.openai_session 7) initial_world = Some w ∧
  length (conversation_context (router w)) = 20%nat ∧
  max_context_length (router w) = 20 ∧
  ∃ out,
    send_message 0 Scenario.server_error (router w) "hello" true (requests w)
      = Some out ∧
    result out = Error "All available providers failed to respond" ∧
    max_context_length (manager out) = 20 ∧
    length (conversation_context (manager out)) = 21%nat.
Proof.
  split; [by vm_compute|]. split; [by vm_compute|]. split; [by vm_compute|].
  eexists. split; [by vm_compute|]. by vm_compute.
Qed.

(** C4 at a failing input.  With one answered message in the context, a
    call through the provider "OpenAI" whose request is answered with
    status 500 returns the aggregate error, yet the context has gained the
    user entry of that call; and a second answered call appends the user
    entry twice before the assistant entry. *)
Theorem failed_send_changes_context :
  let w := Scenario.after_openai_session 1 in
  let turn := [mkMsg "user" "hello"; mkMsg "assistant" "Sure."] in
  run (Scenario.openai_session 1) initial_world = Some w ∧
  conversation_context (router w) = turn ∧
  (∃ out,
     send_message 0 Scenario.server_error (router w) "again" true (requests w)
       = Some out ∧
     result out = Error "All available providers failed to respond" ∧
     conversation_context (manager out) = turn ++ [mkMsg "user" "again"]) ∧
  (∃ out,
     send_message 0 Scenario.answering (router w) "again" true (requests w)
       = Some out ∧
     result out = Success "Sure." "OpenAI" 12 ∧
     conversation_context (manager out)
       = turn ++ [mkMsg "user" "again"; mkMsg "user" "again";
                  mkMsg "assistant" "Sure."]).
Proof.
  split; [by vm_compute|]. split; [by vm_compute|].
  split; eexists; (split; [by vm_compute|]); by vm_compute.
Qed.

End RouterProperties.

(** ** Further facts about a provider *)

Section ProviderRequests.

Variable today : Z.
Variable post : Network.

Lemma settings_eq p q :
  settings p = settings q ↔
  AIProvider.name p = AIProvider.name q ∧ AIProvider.api_key p = AIProvider.api_key q ∧
  AIProvider.base_url p = AIProvider.base_url q ∧ AIProvider.model p = AIProvider.model q ∧
  AIProvider.daily_limit p = AIProvider.daily_limit q.
Proof. unfold settings. split; [intros; by simplify_eq | by intros (-> & -> & -> & -> & ->)]. Qed.

Lemma issued_by_settings p q message req :
  settings p = settings q → issued_by p message req → issued_by q message req.
Proof.
  intros (Hn & Hk & Hu & Hm & _)%settings_eq. unfold issued_by, appends_to_context.
  by rewrite Hn, Hk, Hu, Hm.
Qed.

Lemma reset_daily_counter_settings p :
  settings (AIProvider.reset_daily_counter today p) = settings p.
Proof.
  apply settings_eq.
  by destruct (reset_daily_counter_frame today p) as (? & ? & ? & ? & ? & _).
Qed.

Lemma provider_send_settings p message context log :
  settings (AIProvider.self (AIProvider.send_message today post p message context log))
    = settings p.
Proof.
  apply settings_eq.
  by destruct (provider_send_spec today post p message context log)
    as (? & ? & ? & ? & ? & _).
Qed.

(** The request a vendor method issues. *)
Lemma dispatch_request p message context log sent :
  AIProvider.dispatch post p message context log = Some sent →
  ∃ req,
    AIProvider.http_log sent = log ++ [req] ∧
    issued_by p message req ∧
    (context = None → sent_messages req = [mkMsg "user" message]) ∧
    (appends_to_context p = false ∨ context = Some [] ∨ context = None →
     AIProvider.context_after sent = context).
Proof.
  unfold AIProvider.dispatch, issued_by, appends_to_context.
  destruct (String.eqb_spec (Py.lower (AIProvider.name p)) "openai") as [Ho|Ho].
  - intros Hsent. simplify_eq. unfold AIProvider._send_openai_message.
    destruct (AIProvider.context_or_new_append context (mkMsg "user" message))
      as [messages context'] eqn:Happ.
    destruct (handle_response_spec post p
                (mkRequest (AIProvider.base_url p +:+ "/chat/completions")
                   [("Authorization", "Bearer " +:+ AIProvider.api_key p);
                    ("Content-Type", "application/json")]%string
                   (ChatCompletion (AIProvider.model p) messages 2000 7) 30)
                context' log) as (Hc & Hlog & _).
    eexists. split; [exact Hlog|]. simpl.
    split; [|split].
    + split; [done|]. left. split; [done|]. split; [done|]. split; [done|].
      unfold AIProvider.context_or_new_append in Happ.
      destruct context as [[|x l]|]; simplify_eq; [by exists [] | by eexists | by exists []].
    + intros ->. unfold AIProvider.context_or_new_append in Happ. by simplify_eq.
    + rewrite Hc. intros [?|[->| ->]]; [done| |];
        unfold AIProvider.context_or_new_append in Happ; by simplify_eq.
  - destruct (String.eqb_spec (Py.lower (AIProvider.name p)) "claude") as [Hc|Hc].
    + intros Hsent. simplify_eq. unfold AIProvider._send_claude_message.
      destruct (handle_response_spec post p
                  (mkRequest (AIProvider.base_url p +:+ "/messages")
                     [("x-api-key", AIProvider.api_key p);
                      ("Content-Type", "application/json");
                      ("anthropic-version", "2023-06-01")]%string
                     (ClaudeMessages (AIProvider.model p) 2000
                        (AIProvider.claude_messages_of context ++ [mkMsg "user" message]))
                     30)
                  context log) as (Hctx & Hlog & _).
      eexists. split; [exact Hlog|]. simpl.
      split; [|split].
      * split; [done|]. right. split; [done|]. split; [done|]. split; [done|]. by eexists.
      * by intros ->.
      * done.
    + destruct (String.eqb_spec (Py.lower (AIProvider.name p)) "deepseek") as [Hd|Hd];
        [|done].
      intros Hsent. simplify_eq. unfold AIProvider._send_deepseek_message.
      destruct (AIProvider.context_or_new_append context (mkMsg "user" message))
        as [messages context'] eqn:Happ.
      destruct (handle_response_spec post p
                  (mkRequest (AIProvider.base_url p +:+ "/chat/completions")
                     [("Authorization", "Bearer " +:+ AIProvider.api_key p);
                      ("Content-Type", "application/json")]%string
                     (ChatCompletion (AIProvider.model p) messages 2000 7) 30)
                  context' log) as (Hc' & Hlog & _).
      eexists. split; [exact Hlog|]. simpl.
      split; [|split].
      * split; [done|]. left. split; [done|]. split; [done|]. split; [done|].
        unfold AIProvider.context_or_new_append in Happ.
        destruct context as [[|x l]|]; simplify_eq; [by exists [] | by eexists | by exists []].
      * intros ->. unfold AIProvider.context_or_new_append in Happ. by simplify_eq.
      * rewrite Hc'. intros [?|[->| ->]]; [done| |];
          unfold AIProvider.context_or_new_append in Happ; by simplify_eq.
Qed.

(** The requests of one call of [AIProvider.send_message]: none, or one
    built by that provider. *)
Lemma provider_send_requests p message context log :
  let sent := AIProvider.send_message today post p message context log in
  (AIProvider.http_log sent = log ∨
   ∃ req, AIProvider.http_log sent = log ++ [req] ∧
          issued_by p message req ∧
          (context = None → sent_messages req = [mkMsg "user" message])) ∧
  (appends_to_context p = false ∨ context = Some [] ∨ context = None →
   AIProvider.context_after sent = context).
Proof.
  intros sent. subst sent.
  destruct ((AIProvider.can_send_message today p).1) eqn:Hcan.
  2:{ rewrite provider_send_cannot_send by done. simpl. auto. }
  apply can_send_message_true in Hcan as [Hav Hlt].
  set (p0 := AIProvider.reset_daily_counter today p) in *.
  unfold AIProvider.send_message, AIProvider.can_send_message. fold p0.
  rewrite Hav. simpl.
  destruct (Z.ltb_spec (AIProvider.messages_used_today p0) (AIProvider.daily_limit p0));
    [|lia]. simpl.
  destruct (AIProvider.dispatch post p0 message context log) as [sent|] eqn:Hd;
    [|simpl; auto].
  apply dispatch_request in Hd as (req & Hlog & Hby & Hmsgs & Hctx).
  assert (appends_to_context p0 = appends_to_context p) as Happ.
  { unfold appends_to_context.
    destruct (reset_daily_counter_frame today p) as (Hn & _). fold p0 in Hn.
    by rewrite Hn. }
  rewrite Happ in Hctx.
  assert (issued_by p message req) as Hby'.
  { eapply issued_by_settings; [|done]. apply reset_daily_counter_settings. }
  destruct (AIProvider.returned sent); simpl; (split; [right; eauto | done]).
Qed.

End ProviderRequests.

(** ** Further facts about the router's loop *)

Section LoopRequests.

Import MultiAIManager.

Variable today : Z.
Variable post : Network.

(** A turn of the loop that returned, read backwards. *)
Lemma send_loop_cons_inv (available : list nat) message (preserve_context : bool)
    i range (m : t) log tried out :
  send_loop today post available message preserve_context (i :: range) m log tried
    = Some out →
  ∃ pid provider,
    available !! position_at (current_provider_index m) (length available) i = Some pid ∧
    providers m !! pid = Some provider ∧
    let context := if preserve_context then Some (conversation_context m) else None in
    let sent := AIProvider.send_message today post provider message context log in
    let tried' := tried ++ [mkAttempt (position_at (current_provider_index m)
                                         (length available) i)
                                      pid (AIProvider.returned sent)] in
    match AIProvider.returned sent with
    | Success response _ _ =>
        out = mkOutcome (AIProvider.returned sent)
                (set_current_provider_index
                   ((current_provider_index m + Z.of_nat i) `mod` Z.of_nat (length available))
                   (if preserve_context
                    then remember_turn message response (absorb pid sent m)
                    else absorb pid sent m))
                (AIProvider.http_log sent) tried'
    | Error _ =>
        send_loop today post available message preserve_context range
                  (absorb pid sent m) (AIProvider.http_log sent) tried' = Some out
    end.
Proof.
  intros Hrun.
  destruct (available !! position_at (current_provider_index m) (length available) i)
    as [pid|] eqn:Hpid.
  2:{ cbn [send_loop] in Hrun. unfold position_at in Hpid. by rewrite Hpid in Hrun. }
  destruct (providers m !! pid) as [provider|] eqn:Hprov.
  2:{ cbn [send_loop] in Hrun. unfold position_at in Hpid.
      rewrite Hpid in Hrun. cbn [mbind option_bind] in Hrun. by rewrite Hprov in Hrun. }
  rewrite (send_loop_cons _ _ _ _ _ _ _ _ _ _ pid provider) in Hrun by done.
  exists pid, provider. split; [done|]. split; [done|]. simpl.
  destruct (AIProvider.returned _); [done | by simplify_eq].
Qed.

Lemma absorb_settings pid sent (m : t) provider :
  providers m !! pid = Some provider →
  settings (AIProvider.self sent) = settings provider →
  settings <$> providers (absorb pid sent m) = settings <$> providers m.
Proof.
  intros Hprov Hsame. rewrite absorb_providers, list_fmap_insert, Hsame.
  apply list_insert_id. by rewrite list_lookup_fmap, Hprov.
Qed.

(** The loop changes no provider's settings. *)
Lemma send_loop_settings (available : list nat) message preserve_context range
    (m : t) log tried out :
  send_loop today post available message preserve_context range m log tried
    = Some out →
  settings <$> providers (manager out) = settings <$> providers m.
Proof.
  revert m log tried.
  induction range as [|i range IH]; intros m log tried Hrun.
  - cbn [send_loop] in Hrun. by simplify_eq.
  - apply send_loop_cons_inv in Hrun as (pid & provider & Hpid & Hprov & Hrun).
    simpl in Hrun.
    set (context := if preserve_context then _ else _) in Hrun.
    pose proof (provider_send_settings today post provider message context log) as Hset.
    set (sent := AIProvider.send_message today post provider message context log) in *.
    pose proof (absorb_settings pid sent m provider Hprov Hset) as Habs.
    destruct (AIProvider.returned sent) as [e|response prov tokens].
    + by rewrite (IH _ _ _ Hrun).
    + subst out. simpl. by destruct preserve_context.
Qed.

(** The requests of the loop: at most one for each attempt, each built by
    a candidate. *)
Lemma send_loop_requests (available : list nat) message preserve_context range
    (m : t) log tried out :
  send_loop today post available message preserve_context range m log tried
    = Some out →
  ∃ new,
    http_log out = log ++ new ∧
    (length tried + length new ≤ length (attempts out))%nat ∧
    (length (attempts out) ≤ length tried + length range)%nat ∧
    Forall (λ req, ∃ pid p, pid ∈ available ∧ providers m !! pid = Some p ∧
                            issued_by p message req ∧
                            (preserve_context = false →
                             sent_messages req = [mkMsg "user" message])) new.
Proof.
  revert m log tried.
  induction range as [|i range IH]; intros m log tried Hrun.
  - cbn [send_loop] in Hrun. simplify_eq. exists []. simpl.
    rewrite app_nil_r. repeat split; auto; lia.
  - apply send_loop_cons_inv in Hrun as (pid & provider & Hpid & Hprov & Hrun).
    simpl in Hrun.
    set (context := if preserve_context then _ else _) in Hrun.
    pose proof (provider_send_settings today post provider message context log) as Hset.
    pose proof (provider_send_requests today post provider message context log)
      as [Hreq _].
    set (sent := AIProvider.send_message today post provider message context log) in *.
    assert (∃ mine, AIProvider.http_log sent = log ++ mine ∧ (length mine ≤ 1)%nat ∧
              Forall (λ req, ∃ pid p, pid ∈ available ∧ providers m !! pid = Some p ∧
                                      issued_by p message req ∧
                                      (preserve_context = false →
                                       sent_messages req = [mkMsg "user" message])) mine)
      as (mine & Hmine & Hone & Hall).
    { destruct Hreq as [Hsame|(req & Hlog & Hby & Hmsgs)].
      - exists []. rewrite app_nil_r. split; [done|]. split; [simpl; lia | constructor].
      - exists [req]. split; [done|]. split; [simpl; lia|].
        constructor; [|constructor].
        exists pid, provider. split; [exact (list_elem_of_lookup_2 _ _ _ Hpid)|].
        split; [done|]. split; [done|].
        intros ->. by apply Hmsgs. }
    destruct (AIProvider.returned sent) as [e|response prov tokens].
    + destruct (IH _ _ _ Hrun) as (new & Hlog & Hlen & Hlen' & Hnew).
      exists (mine ++ new).
      rewrite Hlog, Hmine, <-app_assoc. split; [done|].
      rewrite length_app in *. simpl in *.
      split; [lia|]. split; [lia|].
      apply Forall_app. split; [done|].
      eapply Forall_impl; [exact Hnew|].
      intros req (pid' & p' & Hin & Hp' & Hby & Hmsgs).
      rewrite absorb_providers in Hp'.
      destruct (decide (pid' = pid)) as [->|Hne].
      * rewrite list_lookup_insert_eq in Hp' by (by eapply lookup_lt_Some).
        injection Hp' as <-. exists pid, provider. split; [done|]. split; [done|].
        split; [|done]. eapply issued_by_settings; [exact Hset | exact Hby].
      * rewrite list_lookup_insert_ne in Hp' by done. eauto 8.
    + subst out. simpl. exists mine. split; [done|].
      rewrite length_app. simpl. split; [lia|]. split; [lia|]. done.
Qed.

(** Without a vendor that appends to the list it is given, or with an
    empty context, a failed attempt leaves the context alone. *)
Lemma send_loop_context_exact (available : list nat) message range (m : t)
    log tried out :
  conversation_context m = [] ∨
    Forall (λ p, appends_to_context p = false) (providers m) →
  send_loop today post available message true range m log tried = Some out →
  conversation_context (manager out) =
    match result out with
    | Error _ => conversation_context m
    | Success response _ _ =>
        trim_context (max_context_length m)
          (conversation_context m
             ++ [mkMsg "user" message; mkMsg "assistant" response])
    end.
Proof.
  revert m log tried.
  induction range as [|i range IH]; intros m log tried Hsafe Hrun.
  - cbn [send_loop] in Hrun. by simplify_eq.
  - apply send_loop_cons_inv in Hrun as (pid & provider & Hpid & Hprov & Hrun).
    simpl in Hrun.
    pose proof (provider_send_settings today post provider message
                  (Some (conversation_context m)) log) as Hset.
    pose proof (provider_send_requests today post provider message
                  (Some (conversation_context m)) log) as [_ Hctx].
    set (sent := AIProvider.send_message today post provider message
                   (Some (conversation_context m)) log) in *.
    assert (conversation_context (absorb pid sent m) = conversation_context m) as Hsame.
    { rewrite absorb_conversation_context, Hctx; [done|].
      destruct Hsafe as [-> | Hall]; [by right; left|].
      left. by eapply Forall_lookup_1 in Hall. }
    destruct (AIProvider.returned sent) as [e|response prov tokens].
    + assert (conversation_context (absorb pid sent m) = [] ∨
              Forall (λ p, appends_to_context p = false)
                     (providers (absorb pid sent m))) as Hsafe'.
      { rewrite Hsame. destruct Hsafe as [?|Hall]; [by left|]. right.
        rewrite absorb_providers. apply Forall_insert; [done|].
        apply settings_eq in Hset as (Hn & _).
        unfold appends_to_context. rewrite Hn.
        by eapply Forall_lookup_1 in Hall. }
      rewrite (IH _ _ _ Hsafe' Hrun).
      by rewrite Hsame, absorb_max_context_length.
    + subst out. simpl. unfold remember_turn. simpl.
      by rewrite Hsame, absorb_max_context_length.
Qed.

End LoopRequests.

(** ** Further properties of a call *)

Section CallProperties.

Import MultiAIManager.

Lemma get_available_providers_lookup today (m : t) pid p0 :
  providers (get_available_providers today m).2 !! pid = Some p0 →
  ∃ p, providers m !! pid = Some p ∧ p0 = AIProvider.reset_daily_counter today p.
Proof.
  rewrite get_available_providers_providers.
  intros (p & -> & Hp)%list_lookup_fmap_Some. eauto.
Qed.

(** The requests of a call. *)
Lemma router_send_requests today post (m : t) message preserve_context log :
  ∃ out new,
    send_message today post m message preserve_context log = Some out ∧
    http_log out = log ++ new ∧
    (length new ≤ length (attempts out))%nat ∧
    (length (attempts out) ≤ length (get_available_providers today m).1)%nat ∧
    Forall (λ req, ∃ pid p,
              providers m !! pid = Some p ∧
              (AIProvider.can_send_message today p).1 = true ∧
              issued_by p message req ∧
              (preserve_context = false →
               sent_messages req = [mkMsg "user" message])) new.
Proof.
  destruct (router_send_total today post m message preserve_context log) as [out Hrun].
  destruct (decide ((get_available_providers today m).1 = [])) as [Hnone|Havail].
  { destruct (router_send_no_candidate _ _ _ _ _ _ _ Hnone Hrun) as (Hatt & _ & Hlog).
    exists out, []. rewrite app_nil_r, Hatt, Hnone.
    split; [done|]. split; [done|]. split; [done|]. split; [done|]. constructor. }
  pose proof Hrun as Hloop. rewrite router_send_loop in Hloop by done.
  apply send_loop_requests in Hloop as (new & Hlog & Hlen & Hlen' & Hnew).
  rewrite length_seq in Hlen'.
  exists out, new. split; [done|]. split; [done|].
  split; [exact Hlen|]. split; [exact Hlen'|].
  eapply Forall_impl; [exact Hnew|].
  intros req (pid & p0 & Hin & Hp0 & Hby & Hmsgs).
  apply get_available_providers_lookup in Hp0 as (p & Hp & ->).
  apply get_available_providers_spec in Hin as (p' & Hp' & Hcan).
  assert (p' = p) as -> by congruence.
  exists pid, p. split; [done|]. split; [done|]. split; [|done].
  eapply issued_by_settings; [|exact Hby]. apply reset_daily_counter_settings.
Qed.

(** X1. [send_message] always returns, and what it returns is one of
    four things: the error "No AI providers configured" when no provider
    is configured; the error "All AI providers have reached their daily
    limits" when providers are configured and none can send; the error
    "All available providers failed to respond" when some could send; or a
    success dict whose [provider] is the name of a configured provider that
    could send.  The text of a provider's own error never reaches the
    caller, and the requests issued earlier stay at the front of the log. *)
Theorem send_message_outcomes today post (m : t) message preserve_context log :
  ∃ out,
    send_message today post m message preserve_context log = Some out ∧
    log `prefix_of` http_log out ∧
    match result out with
    | Error e =>
        (providers m = [] ∧ e = "No AI providers configured"%string) ∨
        (providers m ≠ [] ∧ (get_available_providers today m).1 = [] ∧
         e = "All AI providers have reached their daily limits"%string) ∨
        ((get_available_providers today m).1 ≠ [] ∧
         e = "All available providers failed to respond"%string)
    | Success _ provider _ =>
        ∃ p, p ∈ providers m ∧ provider = AIProvider.name p ∧
             (AIProvider.can_send_message today p).1 = true
    end.
Proof.
  destruct (router_send_requests today post m message preserve_context log)
    as (out & new & Hrun & Hlog & _).
  exists out. split; [done|]. split; [rewrite Hlog; by apply prefix_app_r|].
  destruct (decide ((get_available_providers today m).1 = [])) as [Hnone|Havail].
  - unfold send_message in Hrun.
    destruct (providers m) as [|p ps] eqn:Hps; [simplify_eq/=; by left|].
    destruct (get_available_providers today m) as [available m0]. simpl in *.
    subst. simplify_eq/=. right. left. done.
  - destruct (router_send_run today post m message preserve_context log Havail)
      as (out' & Hrun' & _ & Hpos & Hres).
    simplify_eq.
    destruct (result out) as [e|response provider tokens] eqn:Hresult.
    + destruct Hres as (-> & _). right. right. done.
    + destruct Hres as (failed & won & Hnew & _ & _ & Hidx).
      assert ((get_available_providers today m).1 !! position won
                = Some (provider_id won)) as Hposw.
      { rewrite Hnew in Hpos. apply Forall_app in Hpos as (_ & Hw).
        by rewrite Forall_singleton in Hw. }
      destruct (router_send_winner today post m message preserve_context log
                  out response provider tokens won)
        as (before & after & Hbefore & _ & Hname & _); try done.
      { by rewrite Hnew, last_snoc. }
      exists before. split; [by eapply list_elem_of_lookup_2|]. split; [done|].
      apply list_elem_of_lookup_2, get_available_providers_spec in Hposw
        as (p & Hp & Hcan).
      by simplify_eq.
Qed.

(** X2. A call made with [preserve_context] false neither reads nor writes
    the conversation: every request it issues carries the user entry alone,
    and the context of the router is afterwards what it was. *)
Theorem send_without_context_is_stateless today post (m : t) message log :
  ∃ out new,
    send_message today post m message false log = Some out ∧
    conversation_context (manager out) = conversation_context m ∧
    http_log out = log ++ new ∧
    Forall (λ req, sent_messages req = [mkMsg "user" message]) new.
Proof.
  destruct (router_send_requests today post m message false log)
    as (out & new & Hrun & Hlog & _ & _ & Hnew).
  exists out, new. split; [done|].
  split; [by eapply router_send_context_untouched|]. split; [done|].
  eapply Forall_impl; [exact Hnew|].
  intros req (pid & p & _ & _ & _ & Hmsgs). by apply Hmsgs.
Qed.

(** X3. Every request a call issues was built by a configured provider
    that could send when the call began: it goes to that provider's own
    endpoint, carries that provider's key and no other, names its model,
    and ends with the user entry.  There is at most one request for each
    attempt, and at most one attempt for each candidate. *)
Theorem requests_carry_own_credentials today post (m : t) message preserve_context log :
  ∃ out new,
    send_message today post m message preserve_context log = Some out ∧
    http_log out = log ++ new ∧
    (length new ≤ length (attempts out))%nat ∧
    (length (attempts out) ≤ length (get_available_providers today m).1)%nat ∧
    Forall (λ req, ∃ p, p ∈ providers m ∧
                        (AIProvider.can_send_message today p).1 = true ∧
                        issued_by p message req) new.
Proof.
  destruct (router_send_requests today post m message preserve_context log)
    as (out & new & Hrun & Hlog & Hlen & Hlen' & Hnew).
  exists out, new. split; [done|]. split; [done|]. split; [done|]. split; [done|].
  eapply Forall_impl; [exact Hnew|].
  intros req (pid & p & Hp & Hcan & Hby & _).
  exists p. split; [by eapply list_elem_of_lookup_2|]. done.
Qed.

(** The context after a call that passes it to no appending vendor. *)
Lemma router_send_context_exact today post (m : t) message log out :
  conversation_context m = [] ∨
    Forall (λ p, appends_to_context p = false) (providers m) →
  send_message today post m message true log = Some out →
  conversation_context (manager out) =
    match result out with
    | Error _ => conversation_context m
    | Success response _ _ =>
        trim_context (max_context_length m)
          (conversation_context m
             ++ [mkMsg "user" message; mkMsg "assistant" response])
    end.
Proof.
  intros Hsafe Hrun.
  destruct (decide ((get_available_providers today m).1 = [])) as [Hnone|Havail].
  { destruct (router_send_no_candidate _ _ _ _ _ _ _ Hnone Hrun) as (_ & Herr & _).
    destruct (router_send_context _ _ _ _ _ _ Hrun) as (k & Hk & Hout).
    rewrite Hnone in Hk. simpl in Hk. assert (k = 0%nat) as -> by lia.
    simpl in Hout. rewrite app_nil_r in Hout.
    destruct (result out); [done | discriminate]. }
  rewrite router_send_loop in Hrun by done.
  apply send_loop_context_exact in Hrun; [done|].
  destruct Hsafe as [?|Hall]; [by left|]. right.
  rewrite get_available_providers_providers. apply Forall_fmap.
  eapply Forall_impl; [exact Hall|]. intros p Hp. simpl.
  unfold appends_to_context in *.
  by destruct (reset_daily_counter_frame today p) as (-> & _).
Qed.

(** X4. When no configured provider is named openai or deepseek (in any
    letter case), or when the context is empty, a call with
    [preserve_context] true that fails leaves the context exactly as it
    was, and one that succeeds appends exactly the user entry and the
    assistant entry, then keeps the last [max_context_length] entries. *)
Theorem context_exact_without_appending_vendor today post (m : t) message log :
  conversation_context m = [] ∨
    Forall (λ p, appends_to_context p = false) (providers m) →
  ∃ out,
    send_message today post m message true log = Some out ∧
    conversation_context (manager out) =
      match result out with
      | Error _ => conversation_context m
      | Success response _ _ =>
          trim_context (max_context_length m)
            (conversation_context m
               ++ [mkMsg "user" message; mkMsg "assistant" response])
      end.
Proof.
  intros Hsafe.
  destruct (router_send_total today post m message true log) as [out Hrun].
  exists out. split; [done|]. by eapply router_send_context_exact.
Qed.

Lemma context_exact_without_appending_vendor_witness :
  Forall (λ p, appends_to_context p = false) (providers Scenario2.claude_only) ∧
  ∃ out,
    send_message 0 Scenario.server_error Scenario2.claude_only "hello" true []
      = Some out ∧
    conversation_context (manager out) = [].
Proof.
  assert (Forall (λ p, appends_to_context p = false)
                 (providers Scenario2.claude_only)) as Hsafe
    by (constructor; [reflexivity | constructor]).
  split; [exact Hsafe|].
  destruct (context_exact_without_appending_vendor 0 Scenario.server_error
              Scenario2.claude_only "hello" [] (or_intror Hsafe))
    as (out & Hrun & Hctx).
  exists out. split; [exact Hrun|].
  vm_compute in Hrun. injection Hrun as <-. reflexivity.
Defined.

(** X5. After [reset_conversation], the next call with [preserve_context]
    true leaves either the empty context (when it fails) or exactly the
    two entries of its own turn (when it succeeds), whatever the vendor,
    provided the cap is at least 2. *)
Theorem reset_conversation_then_send today post (m : t) message log :
  2 ≤ max_context_length m →
  ∃ out,
    send_message today post (reset_conversation m) message true log = Some out ∧
    conversation_context (manager out) =
      match result out with
      | Error _ => []
      | Success response _ _ =>
          [mkMsg "user" message; mkMsg "assistant" response]
      end.
Proof.
  intros Hcap.
  destruct (router_send_total today post (reset_conversation m) message true log)
    as [out Hrun].
  exists out. split; [done|].
  assert (conversation_context (reset_conversation m) = [] ∨
          Forall (λ p, appends_to_context p = false)
                 (providers (reset_conversation m))) as Hsafe by (by left).
  rewrite (router_send_context_exact _ _ _ _ _ _ Hsafe Hrun).
  destruct (result out) as [e|response provider tokens]; [done|].
  simpl. unfold trim_context. simpl.
  destruct (Z.gtb_spec (Z.of_nat 2) (max_context_length m)); [lia | done].
Qed.

Lemma reset_conversation_then_send_witness :
  2 ≤ max_context_length (router (Scenario.after_openai_session 7)) ∧
  ∃ out,
    send_message 0 Scenario.answering
      (reset_conversation (router (Scenario.after_openai_session 7)))
      "hello" true [] = Some out ∧
    conversation_context (manager out)
      = [mkMsg "user" "hello"; mkMsg "assistant" "Sure."].
Proof.
  assert (2 ≤ max_context_length (router (Scenario.after_openai_session 7)))
    as Hcap by (vm_compute; discriminate).
  split; [exact Hcap|].
  destruct (reset_conversation_then_send 0 Scenario.answering
              (router (Scenario.after_openai_session 7)) "hello" [] Hcap)
    as (out & Hrun & Hctx).
  exists out. split; [exact Hrun|].
  vm_compute in Hrun. injection Hrun as <-. reflexivity.
Defined.

(** X6. After a successful call with [preserve_context] true and a
    positive cap, the context is the last [max_context_length] entries of
    the grown list (the old context, the user entries appended on the way,
    then the turn): the oldest entries are the ones dropped. *)
Theorem successful_send_keeps_recent_context today post (m : t) message log out
    response provider tokens :
  send_message today post m message true log = Some out →
  result out = Success response provider tokens →
  0 < max_context_length m →
  ∃ k, (k ≤ length (get_available_providers today m).1)%nat ∧
    let grown := conversation_context m ++ replicate k (mkMsg "user" message)
                   ++ [mkMsg "user" message; mkMsg "assistant" response] in
    conversation_context (manager out)
      = drop (length grown - Z.to_nat (max_context_length m)) grown ∧
    Z.of_nat (length (conversation_context (manager out))) ≤ max_context_length m ∧
    last (conversation_context (manager out)) = Some (mkMsg "assistant" response).
Proof.
  intros Hrun Hres Hcap.
  destruct (router_send_context _ _ _ _ _ _ Hrun) as (k & Hk & Hout).
  simpl in Hout. rewrite Hres in Hout.
  exists k. split; [done|]. simpl.
  rewrite <-app_assoc in Hout. rewrite Hout.
  set (grown := conversation_context m ++ _).
  rewrite trim_context_last by done.
  split; [done|]. split.
  { rewrite length_drop. lia. }
  assert (length grown = S (S (length (conversation_context m) + k))) as Hlen.
  { unfold grown. rewrite !length_app, length_replicate. simpl. lia. }
  rewrite last_lookup, length_drop, lookup_drop.
  replace (length grown - Z.to_nat (max_context_length m)
           + pred (length grown - (length grown - Z.to_nat (max_context_length m))))%nat
    with (length (conversation_context m ++ replicate k (mkMsg "user" message)) + 1)%nat
    by (rewrite length_app, length_replicate; lia).
  unfold grown. rewrite app_assoc.
  rewrite lookup_app_r by lia.
  by replace (_ - _)%nat with 1%nat by lia.
Qed.

Lemma successful_send_keeps_recent_context_witness :
  ∃ out,
    send_message 0 Scenario.answering (router (Scenario.after_openai_session 7))
                 "hello" true [] = Some out ∧
    result out = Success "Sure." "OpenAI" 12 ∧
    0 < max_context_length (router (Scenario.after_openai_session 7)) ∧
    Z.of_nat (length (conversation_context (manager out))) ≤ 20.
Proof.
  destruct (router_send_total 0 Scenario.answering
              (router (Scenario.after_openai_session 7)) "hello" true [])
    as [out Hrun].
  assert (result out = Success "Sure." "OpenAI" 12) as Hres.
  { vm_compute in Hrun. injection Hrun as <-. reflexivity. }
  assert (0 < max_context_length (router (Scenario.after_openai_session 7)))
    as Hcap by (vm_compute; reflexivity).
  exists out. split; [exact Hrun|]. split; [exact Hres|]. split; [exact Hcap|].
  destruct (successful_send_keeps_recent_context 0 Scenario.answering
              (router (Scenario.after_openai_session 7)) "hello" [] out
              "Sure." "OpenAI" 12 Hrun Hres Hcap) as (k & _ & _ & Hlen & _).
  assert (max_context_length (router (Scenario.after_openai_session 7)) = 20)
    as Hmax by (vm_compute; reflexivity).
  rewrite Hmax in Hlen. exact Hlen.
Defined.

End CallProperties.

(** ** The status queries *)

Section StatusProperties.

Import MultiAIManager.

Lemma get_provider_status_providers today (m : t) :
  providers (get_provider_status today m).2
    = AIProvider.reset_daily_counter today <$> providers m.
Proof. done. Qed.

(** X7. [get_provider_status] is not read-only, but it is idempotent on a
    given date: it puts every provider through the rollover check and
    touches nothing else, and asked again on the same date it returns the
    same list and changes nothing.  The list has one entry for each
    configured provider, in configuration order, under its name and limit. *)
Theorem status_query_is_idempotent today (m : t) :
  let report := get_provider_status today m in
  get_provider_status today report.2 = report ∧
  providers report.2 = AIProvider.reset_daily_counter today <$> providers m ∧
  settings <$> providers report.2 = settings <$> providers m ∧
  conversation_context report.2 = conversation_context m ∧
  current_provider_index report.2 = current_provider_index m ∧
  max_context_length report.2 = max_context_length m ∧
  status_name <$> report.1 = AIProvider.name <$> providers m ∧
  status_daily_limit <$> report.1 = AIProvider.daily_limit <$> providers m.
Proof.
  intros report. subst report.
  assert (AIProvider.reset_daily_counter today
            <$> (AIProvider.reset_daily_counter today <$> providers m)
          = AIProvider.reset_daily_counter today <$> providers m) as Hidem.
  { rewrite <-list_fmap_compose. apply list_fmap_ext.
    intros i p _. apply reset_daily_counter_idem. }
  split.
  { unfold get_provider_status. simpl. rewrite Hidem. done. }
  split; [done|].
  split.
  { rewrite get_provider_status_providers, <-list_fmap_compose.
    apply list_fmap_ext. intros i p _. apply reset_daily_counter_settings. }
  split; [done|]. split; [done|]. split; [done|].
  unfold get_provider_status. simpl. rewrite <-!list_fmap_compose.
  split; apply list_fmap_ext; intros i p _; simpl;
    by destruct (reset_daily_counter_frame today p) as (? & ? & ? & ? & ? & ?).
Qed.

Lemma available_from_flagged today i ps :
  (length (available_from today i ps)
   ≤ length (filter (λ p, AIProvider.is_available p = true)
                    (AIProvider.reset_daily_counter today <$> ps)))%nat.
Proof.
  revert i. induction ps as [|p ps IH]; intros i; [done|].
  cbn [available_from]. rewrite fmap_cons.
  destruct ((AIProvider.can_send_message today p).1) eqn:Hcan.
  - apply can_send_message_true in Hcan as [Hav _].
    rewrite filter_cons_True by done. simpl. specialize (IH (S i)). lia.
  - rewrite filter_cons. case_decide; simpl; specialize (IH (S i)); lia.
Qed.

(** X8. The body of the [/ai-status] answer: [total_providers] is the
    number of configured providers, and [available_providers] counts the
    providers whose flag is set after the rollover check, whatever their
    quota; so it lies between the number of providers that can send and the
    total.  Without the integration modules the answer is empty and the
    router is not consulted. *)
Theorem ai_status_counts today (m : t) :
  let answer := AIChat.get_ai_status true today m in
  AIChat.total_providers answer.1 = length (providers m) ∧
  AIChat.available_providers answer.1
    = length (filter (λ p, AIProvider.is_available p = true)
                     (AIProvider.reset_daily_counter today <$> providers m)) ∧
  (length (get_available_providers today m).1
     ≤ AIChat.available_providers answer.1)%nat ∧
  (AIChat.available_providers answer.1 ≤ AIChat.total_providers answer.1)%nat ∧
  answer.2 = (get_provider_status today m).2 ∧
  AIChat.get_ai_status false today m
    = (AIChat.mkAIStatus [] 0 0 (Some "AI integration not available"), m).
Proof.
  intros answer. subst answer. unfold AIChat.get_ai_status, get_provider_status.
  simpl. rewrite !length_fmap.
  assert (length (filter (λ p, status_available p = true)
            ((λ provider,
                mkStatus (AIProvider.name provider) (AIProvider.is_available provider)
                  (AIProvider.messages_used_today provider)
                  (AIProvider.daily_limit provider) (AIProvider.last_error provider))
               <$> (AIProvider.reset_daily_counter today <$> providers m)))
          = length (filter (λ p, AIProvider.is_available p = true)
                      (AIProvider.reset_daily_counter today <$> providers m))) as ->.
  { induction (AIProvider.reset_daily_counter today <$> providers m) as [|p ps IH];
      [done|].
    rewrite fmap_cons, !filter_cons. simpl.
    repeat case_decide; simpl; try congruence; done. }
  split; [done|]. split; [done|].
  split; [apply available_from_flagged|].
  split; [|done].
  etrans; [apply length_filter|]. by rewrite length_fmap.
Qed.

(** A provider at its quota is counted as available although it cannot
    send. *)
Example ai_status_counts_full_provider :
  let m := mk [Scenario2.at_quota] [] 0 20 in
  AIChat.available_providers (AIChat.get_ai_status true 0 m).1 = 1%nat ∧
  (get_available_providers 0 m).1 = [].
Proof. split; reflexivity. Qed.

End StatusProperties.

(** ** What every sequence of calls keeps *)

Section RunProperties.

Import MultiAIManager.

Lemma run_invariant (I : World → Prop) events w w' :
  (∀ e w1 w2, I w1 → step e w1 = Some w2 → I w2) →
  I w → run events w = Some w' → I w'.
Proof.
  intros Hstep. revert w.
  induction events as [|e events IH]; intros w Hw Hrun; simplify_eq/=; [done|].
  destruct (step e w) as [w1|] eqn:He; simplify_eq/=. eauto.
Qed.

Lemma get_available_providers_max today (m : t) :
  (length (get_available_providers today m).1 ≤ length (providers m))%nat.
Proof.
  assert ((get_available_providers today m).1 ⊆+ seq 0 (length (providers m)))
    as Hsub.
  { apply NoDup_submseteq; [apply get_available_providers_NoDup|].
    intros pid (p & Hp & _)%get_available_providers_spec.
    apply elem_of_seq. split; [lia|]. simpl. by eapply lookup_lt_Some. }
  apply submseteq_length in Hsub. by rewrite length_seq in Hsub.
Qed.

Lemma reset_all_settings today (ps : list AIProvider.t) :
  settings <$> (AIProvider.reset_daily_counter today <$> ps) = settings <$> ps.
Proof.
  rewrite <-list_fmap_compose. apply list_fmap_ext.
  intros i p _. apply reset_daily_counter_settings.
Qed.

(** What a call of the router leaves of the router. *)
Lemma router_send_frame today post (m : t) message preserve_context log out :
  send_message today post m message preserve_context log = Some out →
  settings <$> providers (manager out) = settings <$> providers m ∧
  max_context_length (manager out) = max_context_length m ∧
  (current_provider_index (manager out) = current_provider_index m ∨
   0 ≤ current_provider_index (manager out)
     < Z.of_nat (length (get_available_providers today m).1)).
Proof.
  intros Hrun.
  assert (settings <$> providers (get_available_providers today m).2
          = settings <$> providers m) as Hreset
    by (rewrite get_available_providers_providers; apply reset_all_settings).
  destruct (decide ((get_available_providers today m).1 = [])) as [Hnone|Havail].
  { unfold send_message in Hrun. destruct (providers m) eqn:Hps.
    - simplify_eq/=. rewrite Hps. auto.
    - rewrite <-Hps in *. clear Hps.
      destruct (get_available_providers today m) as [available m0] eqn:Hgap.
      simpl in *. subst. simplify_eq/=.
      assert (m0 = (get_available_providers today m).2) as -> by (by rewrite Hgap).
      auto. }
  pose proof Hrun as Hloop. rewrite router_send_loop in Hloop by done.
  pose proof (send_loop_settings _ _ _ _ _ _ _ _ _ _ Hloop) as Hset.
  destruct (send_loop_spec today post (get_available_providers today m).1 message
              preserve_context (seq 0 (length (get_available_providers today m).1))
              (get_available_providers today m).2 log [] Havail
              (get_available_providers_valid today m))
    as (out' & new & Hrun' & _ & Hpos & _ & _ & Hmax & _ & Hres).
  assert (out' = out) as -> by congruence.
  split; [by rewrite Hset|]. split; [done|].
  destruct (result out).
  - left. by destruct Hres as (_ & _ & _ & ->).
  - right. destruct Hres as (failed & won & -> & _ & _ & ->).
    apply Forall_app in Hpos as (_ & Hw). rewrite Forall_singleton in Hw.
    apply lookup_lt_Some in Hw. lia.
Qed.

(** A property of providers kept by the rollover check and by a send is
    kept by a call of the router. *)
Lemma router_send_providers_Forall (P : AIProvider.t → Prop) today post (m : t)
    message preserve_context log out :
  (∀ p, P p → P (AIProvider.reset_daily_counter today p)) →
  (∀ p msg context lg,
     P p → P (AIProvider.self (AIProvider.send_message today post p msg context lg))) →
  Forall P (providers m) →
  send_message today post m message preserve_context log = Some out →
  Forall P (providers (manager out)).
Proof.
  intros Hreset Hsend HP Hrun.
  assert (Forall P (providers (get_available_providers today m).2)) as HP0.
  { rewrite get_available_providers_providers. apply Forall_fmap.
    eapply Forall_impl; [exact HP|]. intros p Hp. by apply Hreset. }
  destruct (decide ((get_available_providers today m).1 = [])) as [Hnone|Havail].
  { unfold send_message in Hrun. destruct (providers m) eqn:Hps.
    - simplify_eq/=. by rewrite Hps.
    - rewrite <-Hps in *. clear Hps.
      destruct (get_available_providers today m) as [available m0] eqn:Hgap.
      simpl in *. subst. by simplify_eq/=. }
  rewrite router_send_loop in Hrun by done.
  by eapply send_loop_providers_Forall.
Qed.

(** The same for any call of a client, new providers included. *)
Lemma step_providers_Forall (P : AIProvider.t → Prop) e w w' :
  (∀ today p, P p → P (AIProvider.reset_daily_counter today p)) →
  (∀ today post p msg context lg,
     P p → P (AIProvider.self (AIProvider.send_message today post p msg context lg))) →
  match call e with
  | AddProvider name api_key base_url model daily_limit =>
      P (AIProvider.init (on_date e) name api_key base_url model daily_limit)
  | _ => True
  end →
  Forall P (providers (router w)) →
  step e w = Some w' →
  Forall P (providers (router w')).
Proof.
  intros Hreset Hsend Hnew HP. unfold step.
  destruct (call e) as [name api_key base_url model daily_limit| |message pc| | |filepath];
    intros Hstep; simplify_eq/=; try done.
  - apply Forall_app. split; [done|]. by constructor.
  - apply Forall_fmap. eapply Forall_impl; [exact HP|]. intros p Hp. by apply Hreset.
  - destruct (send_message _ _ _ _ _ _) as [out|] eqn:Hrun; simplify_eq/=.
    eapply router_send_providers_Forall; eauto.
  - apply Forall_fmap. eapply Forall_impl; [exact HP|]. intros p Hp. by apply Hreset.
Qed.

(** What one call of a client leaves of the router. *)
Lemma step_frame e w w' :
  step e w = Some w' →
  settings <$> providers (router w) `prefix_of` settings <$> providers (router w') ∧
  max_context_length (router w') = max_context_length (router w) ∧
  (current_provider_index (router w') = current_provider_index (router w) ∨
   0 ≤ current_provider_index (router w')
     < Z.of_nat (length (providers (router w)))) ∧
  (length (providers (router w)) ≤ length (providers (router w')))%nat.
Proof.
  unfold step.
  destruct (call e) as [name api_key base_url model daily_limit| |message pc| | |filepath];
    intros Hstep.
  - injection Hstep as <-. cbn [router]. unfold add_provider. cbn.
    rewrite fmap_app, length_app. split; [by apply prefix_app_r|].
    repeat split; auto. lia.
  - injection Hstep as <-. simpl.
    change (λ p, AIProvider.reset_daily_counter (on_date e) p)
      with (AIProvider.reset_daily_counter (on_date e)).
    rewrite reset_all_settings, length_fmap. auto.
  - destruct (send_message _ _ _ _ _ _) as [out|] eqn:Hrun; [|done].
    injection Hstep as <-. cbn [router].
    destruct (router_send_frame _ _ _ _ _ _ _ Hrun) as (Hset & Hmax & Hidx).
    pose proof (get_available_providers_max (on_date e) (router w)) as Hle.
    rewrite Hset. split; [done|]. split; [done|].
    split; [destruct Hidx as [?|?]; [by left | right; lia]|].
    apply (f_equal length) in Hset. rewrite !length_fmap in Hset. lia.
  - injection Hstep as <-. simpl.
    change (λ p, AIProvider.reset_daily_counter (on_date e) p)
      with (AIProvider.reset_daily_counter (on_date e)).
    rewrite reset_all_settings, length_fmap. auto.
  - injection Hstep as <-. cbn [router]. auto.
  - injection Hstep as <-. cbn [router]. auto.
Qed.

End RunProperties.

(** ** Sessions of a client *)

Section SessionProperties.

Import MultiAIManager.

(** No call of a client raises. *)
Lemma step_total e w : is_Some (step e w).
Proof.
  unfold step. destruct (call e) as [? ? ? ? ?| |message pc| | |?]; try by eexists.
  destruct (router_send_total (on_date e) (network e) (router w) message pc (requests w))
    as [out ->].
  by eexists.
Qed.

Lemma run_total events w : is_Some (run events w).
Proof.
  revert w. induction events as [|e events IH]; intros w; [by eexists|].
  cbn [run]. destruct (step_total e w) as [w1 ->]. apply IH.
Qed.

Lemma run_frame events w w' :
  run events w = Some w' →
  settings <$> providers (router w) `prefix_of` settings <$> providers (router w') ∧
  max_context_length (router w') = max_context_length (router w).
Proof.
  revert w. induction events as [|e events IH]; intros w Hrun.
  - cbn [run] in Hrun. by simplify_eq.
  - cbn [run] in Hrun. destruct (step e w) as [w1|] eqn:Hstep; [|done].
    cbn [mbind option_bind] in Hrun.
    destruct (step_frame _ _ _ Hstep) as (Hpre & Hmax & _).
    destruct (IH _ Hrun) as (Hpre' & Hmax').
    split; [by etrans | congruence].
Qed.

(** X9. No sequence of calls removes or reorders a provider or changes
    what one is configured with (name, key, endpoint, model, daily limit):
    the providers of the router before are, settings for settings, a prefix
    of the providers after; and the cap of the context stays what it was. *)
Theorem providers_are_only_appended events w w' :
  run events w = Some w' →
  settings <$> providers (router w) `prefix_of` settings <$> providers (router w') ∧
  max_context_length (router w') = max_context_length (router w).
Proof. apply run_frame. Qed.

Lemma providers_are_only_appended_witness :
  let w := mkWorld Scenario.three_providers [] ∅ in
  let events :=
    [mkEvent 1 Scenario.first_rate_limited (SendMessage "hello" true);
     mkEvent 1 Scenario.answering
             (AddProvider "Mistral" "sk-mi" "https://api.mistral.ai/v1"
                          "mistral-large" 500);
     mkEvent 2 Scenario.answering GetProviderStatus] in
  ∃ w',
    run events w = Some w' ∧
    settings <$> providers (router w) `prefix_of` settings <$> providers (router w') ∧
    length (providers (router w')) = 4%nat.
Proof.
  intros w events.
  destruct (run_total events w) as [w' Hrun].
  exists w'. split; [exact Hrun|].
  split; [exact (proj1 (providers_are_only_appended events w w' Hrun))|].
  vm_compute in Hrun. injection Hrun as <-. reflexivity.
Defined.



(** The entries of the context after a call are entries of the context
    before it, or entries of the turn. *)
Lemma router_send_spoken today post (m : t) message preserve_context log out :
  Forall spoken (conversation_context m) →
  send_message today post m message preserve_context log = Some out →
  Forall spoken (conversation_context (manager out)).
Proof.
  intros Hctx Hrun. destruct preserve_context.
  2:{ by rewrite (router_send_context_untouched _ _ _ _ _ _ Hrun). }
  destruct (router_send_context _ _ _ _ _ _ Hrun) as (k & _ & Hout). simpl in Hout.
  assert (Forall spoken (conversation_context m ++ replicate k (mkMsg "user" message)))
    as Hseen.
  { apply Forall_app. split; [done|]. apply Forall_replicate. by left. }
  destruct (result out) as [e|response provider tokens]; rewrite Hout; [done|].
  assert (Forall spoken (conversation_context m ++ replicate k (mkMsg "user" message)
                           ++ [mkMsg "user" message; mkMsg "assistant" response]))
    as Hgrown.
  { rewrite app_assoc. apply Forall_app. split; [done|].
    apply Forall_cons. split; [by left|]. apply Forall_singleton. by right. }
  rewrite app_assoc in Hgrown.
  destruct (trim_context_suffix (max_context_length m)
              ((conversation_context m ++ replicate k (mkMsg "user" message))
                 ++ [mkMsg "user" message; mkMsg "assistant" response]))
    as [dropped Hkept].
  rewrite Hkept in Hgrown. by apply Forall_app in Hgrown as (_ & ?).
Qed.

Lemma step_spoken e w w' :
  Forall spoken (conversation_context (router w)) →
  step e w = Some w' →
  Forall spoken (conversation_context (router w')).
Proof.
  intros Hctx. unfold step.
  destruct (call e) as [name api_key base_url model daily_limit| |message pc| | |filepath];
    intros Hstep; simplify_eq/=; try done.
  destruct (send_message _ _ _ _ _ _) as [out|] eqn:Hrun; simplify_eq/=.
  by eapply router_send_spoken.
Qed.

Lemma claude_messages_of_spoken ctx :
  Forall spoken ctx → AIProvider.claude_messages_of (Some ctx) = ctx.
Proof.
  intros Hsp. induction Hsp as [|msg ctx Hmsg _ IH]; [done|].
  cbn [AIProvider.claude_messages_of omap list_omap] in *.
  destruct msg as [r c]. destruct Hmsg as [Hr|Hr]; simpl in Hr; subst r; simpl;
    by rewrite IH.
Qed.

(** X11. Whatever a client does with a new router, the context holds only
    entries whose role is "user" or "assistant"; so the loop of
    [_send_claude_message] that copies those two roles copies the whole
    context. *)
Theorem context_holds_only_turns events :
  ∃ w,
    run events initial_world = Some w ∧
    Forall spoken (conversation_context (router w)) ∧
    AIProvider.claude_messages_of (Some (conversation_context (router w)))
      = conversation_context (router w).
Proof.
  destruct (run_total events initial_world) as [w Hrun].
  exists w. split; [done|].
  assert (Forall spoken (conversation_context (router w))) as Hsp.
  { revert Hrun.
    apply (run_invariant (λ w, Forall spoken (conversation_context (router w)))).
    - intros e w1 w2. apply step_spoken.
    - constructor. }
  split; [done|]. by apply claude_messages_of_spoken.
Qed.

End SessionProperties.

(** ** The cap of the context *)

Section CapProperties.

Import MultiAIManager.

Lemma appends_to_context_settings p q :
  settings p = settings q → appends_to_context p = appends_to_context q.
Proof. intros (Hn & _)%settings_eq. unfold appends_to_context. by rewrite Hn. Qed.

(** One call of a client that adds no appending vendor keeps the context
    within the cap. *)
Lemma step_within_cap e w w' :
  adds_appending_vendor e = false →
  Forall (λ p, appends_to_context p = false) (providers (router w)) →
  0 < max_context_length (router w) →
  Z.of_nat (length (conversation_context (router w))) ≤ max_context_length (router w) →
  step e w = Some w' →
  Forall (λ p, appends_to_context p = false) (providers (router w')) ∧
  Z.of_nat (length (conversation_context (router w'))) ≤ max_context_length (router w').
Proof.
  intros Hadd Hps Hcap Hlen Hstep. split.
  { eapply (step_providers_Forall (λ p, appends_to_context p = false)); [| | |done|done].
    - intros today p <-. apply appends_to_context_settings, reset_daily_counter_settings.
    - intros today post p msg context lg <-.
      apply appends_to_context_settings, provider_send_settings.
    - unfold adds_appending_vendor in Hadd. by destruct (call e). }
  destruct (step_frame _ _ _ Hstep) as (_ & Hmax & _). rewrite Hmax.
  revert Hstep. unfold step.
  destruct (call e) as [name api_key base_url model daily_limit| |message pc| | |filepath];
    intros Hstep; simplify_eq/=; try done; try lia.
  destruct (send_message _ _ _ _ _ _) as [out|] eqn:Hrun; simplify_eq/=.
  destruct pc.
  2:{ by rewrite (router_send_context_untouched _ _ _ _ _ _ Hrun). }
  rewrite (router_send_context_exact _ _ _ _ _ _ (or_intror Hps) Hrun).
  destruct (result out); [done|]. by apply trim_context_length.
Qed.

Lemma run_within_cap events w w' :
  Forall (λ e, adds_appending_vendor e = false) events →
  Forall (λ p, appends_to_context p = false) (providers (router w)) →
  0 < max_context_length (router w) →
  Z.of_nat (length (conversation_context (router w))) ≤ max_context_length (router w) →
  run events w = Some w' →
  Z.of_nat (length (conversation_context (router w'))) ≤ max_context_length (router w').
Proof.
  intros Hevents. revert w.
  induction Hevents as [|e events He _ IH]; intros w Hps Hcap Hlen Hrun.
  - cbn [run] in Hrun. by simplify_eq.
  - cbn [run] in Hrun. destruct (step e w) as [w1|] eqn:Hstep; [|done].
    cbn [mbind option_bind] in Hrun.
    destruct (step_within_cap _ _ _ He Hps Hcap Hlen Hstep) as (Hps1 & Hlen1).
    destruct (step_frame _ _ _ Hstep) as (_ & Hmax & _).
    apply (IH w1); [done|lia|done|done].
Qed.

(** X12. As long as no provider named openai or deepseek (in any letter
    case) is added, the context of a new router never holds more than 20
    entries, whatever the calls and whatever the vendors answer. *)
Theorem context_within_cap_without_appending_vendor events :
  Forall (λ e, adds_appending_vendor e = false) events →
  ∃ w,
    run events initial_world = Some w ∧
    Z.of_nat (length (conversation_context (router w))) ≤ 20.
Proof.
  intros Hevents.
  destruct (run_total events initial_world) as [w Hrun].
  exists w. split; [done|].
  destruct (run_frame _ _ _ Hrun) as (_ & Hmax). simpl in Hmax. rewrite <-Hmax.
  eapply run_within_cap; [done| | | |done]; simpl; [constructor|lia|lia].
Qed.

Lemma context_within_cap_without_appending_vendor_witness :
  Forall (λ e, adds_appending_vendor e = false) (Scenario2.claude_session 12) ∧
  ∃ w,
    run (Scenario2.claude_session 12) initial_world = Some w ∧
    Z.of_nat (length (conversation_context (router w))) ≤ 20 ∧
    length (conversation_context (router w)) = 20%nat.
Proof.
  assert (Forall (λ e, adds_appending_vendor e = false) (Scenario2.claude_session 12))
    as Hevents.
  { unfold Scenario2.claude_session. apply Forall_cons. split; [reflexivity|].
    apply Forall_replicate. reflexivity. }
  split; [exact Hevents|].
  destruct (context_within_cap_without_appending_vendor _ Hevents) as (w & Hrun & Hlen).
  exists w. split; [exact Hrun|]. split; [exact Hlen|].
  vm_compute in Hrun. injection Hrun as <-. reflexivity.
Defined.

End CapProperties.

(** ** Saving and loading the configuration *)

Section ConfigurationProperties.

Import MultiAIManager.

Lemma set_providers_add_provider ps today name api_key base_url model daily_limit (m : t) :
  set_providers ps (add_provider today name api_key base_url model daily_limit m)
    = set_providers ps m.
Proof. done. Qed.

Lemma load_providers_saved today (api_keys : gmap string string) ps (m' : t) :
  load_providers today api_keys (configuration (set_providers ps m')) m'
    = Some (set_providers (providers m' ++ omap (reloaded today api_keys) ps) m').
Proof.
  unfold configuration. cbn [providers set_providers].
  revert m'. induction ps as [|p ps IH]; intros m'.
  - cbn. rewrite app_nil_r. by destruct m'.
  - rewrite fmap_cons. cbn [load_providers json_get]. simpl String.eqb.
    cbn [omap list_omap]. unfold reloaded at 1.
    destruct (api_keys !! Py.lower (AIProvider.name p)) as [api_key|] eqn:Hkey.
    + cbn [mbind option_bind]. rewrite IH. f_equal.
      rewrite set_providers_add_provider. f_equal.
      unfold add_provider. cbn [providers set_providers]. by rewrite <-app_assoc.
    + cbn [mbind option_bind]. by rewrite IH.
Qed.

Lemma load_providers_configuration today (api_keys : gmap string string) (m m' : t) :
  load_providers today api_keys (configuration m) m'
    = Some (set_providers
              (providers m' ++ omap (reloaded today api_keys) (providers m)) m').
Proof. exact (load_providers_saved today api_keys (providers m) m'). Qed.

Lemma load_configuration_saved today (m m' : t) filepath
    (api_keys : gmap string string) fs :
  load_configuration today m' filepath api_keys (save_configuration m filepath fs)
    = Some (set_providers
              (providers m' ++ omap (reloaded today api_keys) (providers m)) m').
Proof.
  unfold load_configuration, save_configuration.
  rewrite lookup_insert_eq. apply load_providers_configuration.
Qed.

(** X13. Loading, into any router, the file that [save_configuration]
    wrote for a router [m] appends one new provider for each provider of
    [m] whose lower-cased name has a key, in the order of [m], and skips
    the others; nothing else of the loading router changes. *)
Theorem load_configuration_after_save today (m m' : t) filepath
    (api_keys : gmap string string) fs :
  load_configuration today m' filepath api_keys (save_configuration m filepath fs)
    = Some (set_providers
              (providers m' ++ omap (reloaded today api_keys) (providers m)) m').
Proof. apply load_configuration_saved. Qed.

Lemma reloaded_fresh today (api_keys : gmap string string) p q :
  reloaded today api_keys p = Some q →
  fresh_on today api_keys q ∧
  AIProvider.name q = AIProvider.name p ∧ AIProvider.base_url q = AIProvider.base_url p ∧
  AIProvider.model q = AIProvider.model p ∧
  AIProvider.daily_limit q = AIProvider.daily_limit p.
Proof.
  unfold reloaded, fresh_on.
  destruct (api_keys !! Py.lower (AIProvider.name p)) as [api_key|] eqn:Hkey; [|done].
  intros Hq. simplify_eq/=. done.
Qed.

(** X14. When every provider's lower-cased name has a key, saving a router
    and loading the file into a new router gives a router with the same
    configuration (saving it again writes the same file), whose providers
    carry the registered keys and start the day with nothing used: the
    counters, the flags and the errors are not part of the round trip. *)
Theorem configuration_round_trip today (m : t) filepath
    (api_keys : gmap string string) fs :
  Forall (λ p, is_Some (api_keys !! Py.lower (AIProvider.name p))) (providers m) →
  ∃ m',
    load_configuration today init filepath api_keys (save_configuration m filepath fs)
      = Some m' ∧
    configuration m' = configuration m ∧
    save_configuration m' filepath (save_configuration m filepath fs)
      = save_configuration m filepath fs ∧
    Forall (fresh_on today api_keys) (providers m').
Proof.
  intros Hkeys. eexists. split; [apply load_configuration_saved|].
  cbn [providers set_providers init app].
  assert (configuration
            (set_providers (omap (reloaded today api_keys) (providers m)) init)
          = configuration m ∧
          Forall (fresh_on today api_keys) (omap (reloaded today api_keys) (providers m)))
    as [Hconf Hfresh].
  { unfold configuration. cbn [providers set_providers].
    induction Hkeys as [|p ps [api_key Hp] _ [IHc IHf]]; [done|].
    cbn [omap list_omap].
    destruct (reloaded today api_keys p) as [q|] eqn:Hq.
    2:{ unfold reloaded in Hq. by rewrite Hp in Hq. }
    destruct (reloaded_fresh _ _ _ _ Hq) as (Hf & Hn & Hu & Hm & Hl).
    split; [|by constructor].
    rewrite !fmap_cons. fold (omap (reloaded today api_keys) ps).
    rewrite IHc, Hn, Hu, Hm, Hl. done. }
  split; [done|]. split; [|done].
  unfold save_configuration. by rewrite Hconf, insert_insert_eq.
Qed.

Lemma configuration_round_trip_witness :
  Forall (λ p, is_Some (Scenario2.default_keys !! Py.lower (AIProvider.name p)))
         (providers Scenario.quota_used_up) ∧
  ∃ m',
    load_configuration 0 init "providers.json" Scenario2.default_keys Scenario2.used_up_saved
      = Some m' ∧
    configuration m' = configuration Scenario.quota_used_up ∧
    AIProvider.messages_used_today <$> providers Scenario.quota_used_up = [2] ∧
    AIProvider.messages_used_today <$> providers m' = [0] ∧
    (get_available_providers 0 Scenario.quota_used_up).1 = [] ∧
    (get_available_providers 0 m').1 = [0%nat].
Proof.
  assert (Forall (λ p, is_Some (Scenario2.default_keys !! Py.lower (AIProvider.name p)))
                 (providers Scenario.quota_used_up)) as Hkeys.
  { apply Forall_singleton. by eexists. }
  split; [exact Hkeys|].
  destruct (configuration_round_trip 0 Scenario.quota_used_up "providers.json"
              Scenario2.default_keys ∅ Hkeys) as (m' & Hload & Hconf & _ & _).
  exists m'. split; [exact Hload|]. split; [exact Hconf|].
  vm_compute in Hload. injection Hload as <-. repeat split; reflexivity.
Defined.

Lemma load_providers_only_appends today (api_keys : gmap string string) config
    (m m' : t) :
  load_providers today api_keys config m = Some m' →
  ∃ new, m' = set_providers (providers m ++ new) m ∧
         Forall (fresh_on today api_keys) new ∧
         (length new ≤ length config)%nat.
Proof.
  assert (∀ m : t, set_providers (providers m ++ []) m = m) as Hid
    by (intros [? ? ? ?]; unfold set_providers; simpl; by rewrite app_nil_r).
  revert m. induction config as [|obj config IH]; intros m Hload.
  { cbn [load_providers] in Hload. simplify_eq. exists []. by rewrite Hid. }
  cbn [load_providers] in Hload.
  destruct (json_get "name" obj) as [[name|n]|];
    [|simplify_eq; exists []; rewrite Hid; split; [done|]; split; [done|simpl; lia]..].
  destruct (api_keys !! Py.lower name) as [api_key|] eqn:Hkey.
  2:{ destruct (IH _ Hload) as (new & -> & Hnew & Hlen). exists new.
      split; [done|]. split; [done|]. simpl. lia. }
  destruct (json_get "base_url" obj) as [[base_url|?]|],
           (json_get "model" obj) as [[model|?]|],
           (json_get "daily_limit" obj) as [[?|daily_limit]|];
    try done;
    try (simplify_eq; exists []; rewrite Hid; split; [done|]; split; [done|simpl; lia]).
  destruct (IH _ Hload) as (new & -> & Hnew & Hlen).
  exists (AIProvider.init today name api_key base_url model daily_limit :: new).
  split.
  { unfold add_provider. cbn [providers set_providers]. by rewrite <-app_assoc. }
  split; [|simpl; lia].
  constructor; [|done]. unfold fresh_on. simpl. done.
Qed.

(** X15. Whatever the file holds, [load_configuration] only appends: the
    providers present stay as they are and in place, the new ones (at most
    one for each entry of the file) carry the key registered for their
    name and start with nothing used; a missing file adds none.  Context,
    rotation index and cap are not touched. *)
Theorem load_configuration_only_appends today (m m' : t) filepath
    (api_keys : gmap string string) (fs : gmap string (list JSONObject)) :
  load_configuration today m filepath api_keys fs = Some m' →
  ∃ new,
    m' = set_providers (providers m ++ new) m ∧
    Forall (fresh_on today api_keys) new ∧
    (length new ≤ length (default [] (fs !! filepath)))%nat.
Proof.
  unfold load_configuration. destruct (fs !! filepath) as [config|].
  - apply load_providers_only_appends.
  - intros Hm. simplify_eq. exists []. split; [|done].
    destruct m'. unfold set_providers. simpl. by rewrite app_nil_r.
Qed.

Lemma load_configuration_only_appends_witness :
  ∃ m',
    load_configuration 0 init "providers.json" Scenario2.default_keys Scenario2.edited_by_hand
      = Some m' ∧
    ∃ new,
      m' = set_providers (providers init ++ new) init ∧
      Forall (fresh_on 0 Scenario2.default_keys) new ∧
      (length new ≤ 4)%nat ∧
      AIProvider.name <$> providers m' = ["OpenAI"%string].
Proof.
  assert (load_configuration 0 init "providers.json" Scenario2.default_keys
            Scenario2.edited_by_hand
          = Some (mk [AIProvider.init 0 "OpenAI" "your-openai-api-key"
                        "https://api.openai.com/v1" "gpt-4" 1000] [] 0 20)) as Hload
    by reflexivity.
  eexists. split; [exact Hload|].
  destruct (load_configuration_only_appends 0 init _ "providers.json"
              Scenario2.default_keys Scenario2.edited_by_hand Hload) as (new & Hm & Hnew & Hlen).
  exists new. split; [exact Hm|]. split; [exact Hnew|]. split; [exact Hlen|].
  reflexivity.
Defined.

Lemma load_providers_raises today (api_keys : gmap string string) good bad rest (m : t) :
  raises_at api_keys bad = true →
  load_providers today api_keys (good ++ bad :: rest) m
    = load_providers today api_keys good m.
Proof.
  intros Hbad. revert m. induction good as [|obj good IH]; intros m.
  - cbn [app load_providers]. unfold raises_at in Hbad.
    destruct (json_get "name" bad) as [[name|n]|]; try done.
    destruct (api_keys !! Py.lower name) as [api_key|]; [|done].
    destruct (json_get "base_url" bad) as [[?|?]|],
             (json_get "model" bad) as [[?|?]|],
             (json_get "daily_limit" bad) as [[?|?]|]; done.
  - rewrite <-app_comm_cons. cbn [load_providers].
    destruct (json_get "name" obj) as [[name|n]|]; try done.
    destruct (api_keys !! Py.lower name) as [api_key|]; [|done].
    destruct (json_get "base_url" obj) as [[?|?]|],
             (json_get "model" obj) as [[?|?]|],
             (json_get "daily_limit" obj) as [[?|?]|]; done.
Qed.

(** X16. Loading stops at the first entry that raises (no usable name, or
    a name with a key and a missing field): the entries before it are
    loaded as if the file ended there, and the entries after it are never
    looked at. *)
Theorem load_stops_at_malformed_entry today (m : t) filepath
    (api_keys : gmap string string) (fs : gmap string (list JSONObject))
    good bad rest :
  fs !! filepath = Some (good ++ bad :: rest) →
  raises_at api_keys bad = true →
  load_configuration today m filepath api_keys fs
    = load_configuration today m filepath api_keys (<[filepath := good]> fs).
Proof.
  intros Hfile Hbad. unfold load_configuration.
  rewrite Hfile, lookup_insert_eq. by apply load_providers_raises.
Qed.

Lemma load_stops_at_malformed_entry_witness :
  Scenario2.edited_by_hand !! "providers.json"%string
    = Some (Scenario2.complete_entries ++ Scenario2.entry_without_model :: Scenario2.later_entries) ∧
  raises_at Scenario2.default_keys Scenario2.entry_without_model = true ∧
  load_configuration 0 init "providers.json" Scenario2.default_keys Scenario2.edited_by_hand
    = load_configuration 0 init "providers.json" Scenario2.default_keys
        (<["providers.json"%string := Scenario2.complete_entries]> Scenario2.edited_by_hand).
Proof.
  assert (Scenario2.edited_by_hand !! "providers.json"%string
            = Some (Scenario2.complete_entries ++ Scenario2.entry_without_model :: Scenario2.later_entries)) as Hfile
    by reflexivity.
  assert (raises_at Scenario2.default_keys Scenario2.entry_without_model = true) as Hbad
    by reflexivity.
  split; [exact Hfile|]. split; [exact Hbad|].
  exact (load_stops_at_malformed_entry 0 init "providers.json" Scenario2.default_keys
           Scenario2.edited_by_hand Scenario2.complete_entries Scenario2.entry_without_model Scenario2.later_entries Hfile Hbad).
Defined.

End ConfigurationProperties.

(** ** One attempt, by what the network does *)

Section AttemptProperties.

Variable today : Z.
Variable post : Network.

Lemma known_vendor_dispatch p message context log :
  known_vendor p = true →
  ∃ req context',
    AIProvider.dispatch post p message context log
      = Some (AIProvider.handle_response post p req context' log) ∧
    issued_by p message req.
Proof.
  intros Hknown.
  assert (Py.lower (AIProvider.name p) ∈ ["openai"; "claude"; "deepseek"]%string)
    as Hname.
  { unfold known_vendor, appends_to_context in Hknown.
    apply orb_true_iff in Hknown as [Hknown|Hknown];
      [apply orb_true_iff in Hknown as [Hknown|Hknown]|];
      apply String.eqb_eq in Hknown; rewrite Hknown; set_solver. }
  destruct (dispatch_known_vendor post p message context log Hname) as [sent Hsent].
  pose proof Hsent as Hsent'.
  apply dispatch_spec in Hsent' as (req & context' & -> & _).
  exists req, context'. split; [done|].
  apply dispatch_request in Hsent as (req' & Hlog & Hby & _).
  destruct (handle_response_spec post p req context' log) as (_ & Hlog' & _).
  rewrite Hlog' in Hlog. apply app_inj_tail in Hlog as [_ ->]. done.
Qed.

Lemma unknown_vendor_dispatch p message context log :
  known_vendor p = false →
  AIProvider.dispatch post p message context log = None.
Proof.
  unfold known_vendor, appends_to_context, AIProvider.dispatch. intros Hunknown.
  apply orb_false_iff in Hunknown as [Hunknown ->].
  apply orb_false_iff in Hunknown as [-> ->]. done.
Qed.

(** X17. One attempt of a provider that can send and has a vendor method,
    by what the network does with its request.  The request is issued and
    logged in every case.  An exception of the transport is returned as
    the error and recorded in [last_error]; the counter is not charged.  A
    status 200 charges the counter before the body is decoded: a body that
    cannot be decoded is returned as an error, and recorded, with the
    message charged all the same.  Any other status is returned as "HTTP
    <status>: <body>", charges nothing, records nothing in [last_error],
    and clears the availability flag exactly when the body, lower-cased,
    contains "rate_limit". *)
Theorem attempt_by_network_outcome p message context log :
  (AIProvider.can_send_message today p).1 = true →
  known_vendor p = true →
  let sent := AIProvider.send_message today post p message context log in
  let q := AIProvider.reset_daily_counter today p in
  ∃ req,
    AIProvider.http_log sent = log ++ [req] ∧
    issued_by p message req ∧
    match post (length log) req with
    | PostRaises e =>
        AIProvider.returned sent = Error e ∧
        AIProvider.messages_used_today (AIProvider.self sent)
          = AIProvider.messages_used_today q ∧
        AIProvider.is_available (AIProvider.self sent) = true ∧
        AIProvider.last_error (AIProvider.self sent) = Some e
    | PostReturns status_code text body =>
        if status_code =? 200 then
          AIProvider.messages_used_today (AIProvider.self sent)
            = AIProvider.messages_used_today q + 1 ∧
          AIProvider.is_available (AIProvider.self sent) = true ∧
          match body with
          | BodyRaises e =>
              AIProvider.returned sent = Error e ∧
              AIProvider.last_error (AIProvider.self sent) = Some e
          | BodyDecoded reply tokens =>
              AIProvider.returned sent = Success reply (AIProvider.name p) tokens ∧
              AIProvider.last_error (AIProvider.self sent) = AIProvider.last_error p
          end
        else
          AIProvider.returned sent
            = Error ("HTTP " +:+ Py.str status_code +:+ ": " +:+ text) ∧
          AIProvider.messages_used_today (AIProvider.self sent)
            = AIProvider.messages_used_today q ∧
          AIProvider.is_available (AIProvider.self sent)
            = negb (Py.contains "rate_limit" (Py.lower text)) ∧
          AIProvider.last_error (AIProvider.self sent) = AIProvider.last_error p
    end.
Proof.
  intros Hcan Hknown sent q. subst sent.
  apply can_send_message_true in Hcan as [Hav Hlt]. fold q in Hav, Hlt.
  destruct (reset_daily_counter_frame today p) as (Hn & _ & _ & _ & _ & He).
  fold q in Hn, He.
  assert (known_vendor q = true) as Hknown'.
  { unfold known_vendor, appends_to_context in *. by rewrite Hn. }
  destruct (known_vendor_dispatch q message context log Hknown')
    as (req & context' & Hd & Hby).
  exists req.
  unfold AIProvider.send_message, AIProvider.can_send_message. fold q.
  rewrite Hav. simpl.
  destruct (Z.ltb_spec (AIProvider.messages_used_today q) (AIProvider.daily_limit q));
    [|lia]. simpl.
  rewrite Hd. unfold AIProvider.handle_response.
  assert (issued_by p message req) as Hby'.
  { eapply issued_by_settings; [|done]. apply reset_daily_counter_settings. }
  destruct (post (length log) req) as [e|status_code text body]; simpl.
  { done. }
  destruct (status_code =? 200); simpl.
  - destruct body as [e|reply tokens]; simpl; rewrite ?Hn; done.
  - destruct (Py.contains "rate_limit" (Py.lower text)); simpl; done.
Qed.

End AttemptProperties.

Lemma attempt_by_network_outcome_witness :
  (AIProvider.can_send_message 0 Scenario2.openai_provider).1 = true ∧
  known_vendor Scenario2.openai_provider = true ∧
  let sent := AIProvider.send_message 0 Scenario2.undecodable Scenario2.openai_provider "hello" None [] in
  AIProvider.returned sent = Error "Expecting value" ∧
  AIProvider.messages_used_today (AIProvider.self sent) = 1 ∧
  AIProvider.last_error (AIProvider.self sent) = Some "Expecting value"%string.
Proof.
  assert ((AIProvider.can_send_message 0 Scenario2.openai_provider).1 = true) as Hcan
    by reflexivity.
  assert (known_vendor Scenario2.openai_provider = true) as Hknown by reflexivity.
  split; [exact Hcan|]. split; [exact Hknown|].
  destruct (attempt_by_network_outcome 0 Scenario2.undecodable Scenario2.openai_provider "hello" None []
              Hcan Hknown) as (req & _ & _ & Hout).
  simpl in Hout. destruct Hout as (Hused & _ & Hret & Herr).
  split; [exact Hret|]. split; [exact Hused|exact Herr].
Defined.

(** ** Providers without a vendor method *)

Section UnknownVendors.

Import MultiAIManager.

Variable today : Z.
Variable post : Network.

Lemma provider_send_unknown_vendor p message context log :
  known_vendor p = false →
  ∃ e, AIProvider.send_message today post p message context log
       = AIProvider.mkEffect (Error e) (AIProvider.reset_daily_counter today p)
                             context log.
Proof.
  intros Hunknown.
  destruct ((AIProvider.can_send_message today p).1) eqn:Hcan.
  2:{ rewrite provider_send_cannot_send by done. by eexists. }
  apply can_send_message_true in Hcan as [Hav Hlt].
  set (q := AIProvider.reset_daily_counter today p) in *.
  destruct (reset_daily_counter_frame today p) as (Hn & _). fold q in Hn.
  assert (known_vendor q = false) as Hunknown'.
  { unfold known_vendor, appends_to_context in *. by rewrite Hn. }
  unfold AIProvider.send_message, AIProvider.can_send_message. fold q.
  rewrite Hav. simpl.
  destruct (Z.ltb_spec (AIProvider.messages_used_today q) (AIProvider.daily_limit q));
    [|lia]. simpl.
  rewrite (unknown_vendor_dispatch post q message context log Hunknown').
  by eexists.
Qed.

Lemma send_loop_unknown_vendors (available : list nat) message (preserve_context : bool)
    range (m : t) log tried out :
  Forall (λ p, known_vendor p = false ∧ AIProvider.reset_daily_counter today p = p)
         (providers m) →
  send_loop today post available message preserve_context range m log tried
    = Some out →
  manager out = m ∧ http_log out = log ∧
  result out = Error "All available providers failed to respond" ∧
  length (attempts out) = (length tried + length range)%nat.
Proof.
  intros Hps. revert tried.
  induction range as [|i range IH]; intros tried Hrun.
  - cbn [send_loop] in Hrun. simplify_eq. simpl. repeat split; lia.
  - apply send_loop_cons_inv in Hrun as (pid & provider & Hpid & Hprov & Hrun).
    simpl in Hrun.
    set (context := if preserve_context then _ else _) in Hrun.
    pose proof (Forall_lookup_1 _ _ _ _ Hps Hprov) as [Hunknown Hreset].
    destruct (provider_send_unknown_vendor provider message context log Hunknown)
      as [e Hsent].
    rewrite Hsent, Hreset in Hrun. cbn [AIProvider.returned AIProvider.http_log] in Hrun.
    assert (absorb pid (AIProvider.mkEffect (Error e) provider context log) m = m)
      as Habs.
    { unfold absorb. cbn [AIProvider.self AIProvider.context_after].
      rewrite list_insert_id by done. subst context.
      destruct m, preserve_context; done. }
    rewrite Habs in Hrun.
    destruct (IH _ Hrun) as (Hm & Hlog & Hres & Hlen).
    split; [done|]. split; [done|]. split; [done|].
    rewrite Hlen, length_app. simpl. lia.
Qed.

(** X18. [add_provider] accepts any name, but a router whose providers
    all have a name other than openai, claude and deepseek (in any letter
    case) never reaches a vendor: every call fails, issues no request, and
    leaves the router as the rollover check left it, each candidate having
    been attempted once. *)
Theorem unknown_vendors_never_answer (m : t) message preserve_context log :
  Forall (λ p, known_vendor p = false) (providers m) →
  ∃ out,
    send_message today post m message preserve_context log = Some out ∧
    is_error (result out) = true ∧
    http_log out = log ∧
    manager out = (get_available_providers today m).2 ∧
    length (attempts out) = length (get_available_providers today m).1.
Proof.
  intros Hps.
  destruct (router_send_total today post m message preserve_context log) as [out Hrun].
  exists out. split; [done|].
  destruct (decide ((get_available_providers today m).1 = [])) as [Hnone|Havail].
  { destruct (router_send_no_candidate _ _ _ _ _ _ _ Hnone Hrun) as (Hatt & Herr & Hlog).
    rewrite Hatt, Hnone. split; [done|]. split; [done|]. split; [|done].
    unfold send_message in Hrun. destruct (providers m) eqn:Hnil.
    - injection Hrun as <-. cbn [manager]. unfold get_available_providers.
      rewrite Hnil. destruct m as [ps ctx idx cap]. simpl in Hnil. by subst ps.
    - rewrite <-Hnil in *.
      destruct (get_available_providers today m) as [available m0] eqn:Hgap.
      simpl in *. subst. injection Hrun as Hout. by rewrite <-Hout. }
  rewrite router_send_loop in Hrun by done.
  apply send_loop_unknown_vendors in Hrun as (Hm & Hlog & Hres & Hlen).
  - rewrite Hres, Hlen, length_seq. done.
  - rewrite get_available_providers_providers. apply Forall_fmap.
    eapply Forall_impl; [exact Hps|]. intros p Hp. simpl. split.
    + destruct (reset_daily_counter_frame today p) as (Hn & _).
      unfold known_vendor, appends_to_context in *. by rewrite Hn.
    + apply reset_daily_counter_idem.
Qed.

End UnknownVendors.

Lemma unknown_vendors_never_answer_witness :
  Forall (λ p, known_vendor p = false) (MultiAIManager.providers Scenario2.mistral_only) ∧
  ∃ out,
    MultiAIManager.send_message 0 Scenario.answering Scenario2.mistral_only "hello" true []
      = Some out ∧
    MultiAIManager.result out = Error "All available providers failed to respond" ∧
    MultiAIManager.http_log out = [] ∧
    MultiAIManager.outcome <$> MultiAIManager.attempts out
      = [Error "Unknown provider: Mistral"].
Proof.
  assert (Forall (λ p, known_vendor p = false) (MultiAIManager.providers Scenario2.mistral_only))
    as Hps by (apply Forall_singleton; reflexivity).
  split; [exact Hps|].
  destruct (unknown_vendors_never_answer 0 Scenario.answering Scenario2.mistral_only "hello" true []
              Hps) as (out & Hrun & _ & Hlog & _).
  exists out. split; [exact Hrun|]. split; [|split; [exact Hlog|]];
    vm_compute in Hrun; injection Hrun as <-; reflexivity.
Defined.

(** ** The conversation a vendor is sent *)

Section VendorMessages.

Variable today : Z.
Variable post : Network.

(** What the wrapper [AIProvider.send_message] returns of a vendor method's
    context and log. *)
Lemma provider_send_known_vendor p message context log :
  (AIProvider.can_send_message today p).1 = true →
  let q := AIProvider.reset_daily_counter today p in
  ∀ sent, AIProvider.dispatch post q message context log = Some sent →
  AIProvider.context_after (AIProvider.send_message today post p message context log)
    = AIProvider.context_after sent ∧
  AIProvider.http_log (AIProvider.send_message today post p message context log)
    = AIProvider.http_log sent.
Proof.
  intros Hcan q sent Hd.
  apply can_send_message_true in Hcan as [Hav Hlt]. fold q in Hav, Hlt.
  unfold AIProvider.send_message, AIProvider.can_send_message. fold q.
  rewrite Hav. simpl.
  destruct (Z.ltb_spec (AIProvider.messages_used_today q) (AIProvider.daily_limit q));
    [|lia]. simpl.
  rewrite Hd. by destruct (AIProvider.returned sent).
Qed.

(** X19. What a provider that can send puts in its request when it is
    handed the list [ctx], and what it does to that list.  The methods for
    openai and deepseek send the list followed by the user entry and, when
    the list is not empty, leave the user entry appended to the caller's
    list.  The method for claude sends the user and assistant entries of
    the list followed by the user entry (the whole list, when it holds
    nothing else) and leaves the caller's list as it was. *)
Theorem vendor_request_messages p message ctx log :
  (AIProvider.can_send_message today p).1 = true →
  known_vendor p = true →
  let sent := AIProvider.send_message today post p message (Some ctx) log in
  ∃ req,
    AIProvider.http_log sent = log ++ [req] ∧
    if appends_to_context p
    then
      sent_messages req = ctx ++ [mkMsg "user" message] ∧
      AIProvider.context_after sent
        = Some (match ctx with [] => [] | _ => ctx ++ [mkMsg "user" message] end)
    else
      sent_messages req
        = AIProvider.claude_messages_of (Some ctx) ++ [mkMsg "user" message] ∧
      AIProvider.context_after sent = Some ctx ∧
      (Forall spoken ctx → sent_messages req = ctx ++ [mkMsg "user" message]).
Proof.
  intros Hcan Hknown sent. subst sent.
  set (q := AIProvider.reset_daily_counter today p).
  destruct (reset_daily_counter_frame today p) as (Hn & _). fold q in Hn.
  pose proof (provider_send_known_vendor p message (Some ctx) log Hcan) as Hwrap.
  simpl in Hwrap. fold q in Hwrap.
  unfold known_vendor in Hknown. unfold appends_to_context in *.
  rewrite <-Hn in Hknown |- *.
  unfold AIProvider.dispatch in Hwrap.
  destruct (String.eqb (Py.lower (AIProvider.name q)) "openai") eqn:Ho.
  { destruct (Hwrap _ eq_refl) as [-> ->]. simpl.
    unfold AIProvider._send_openai_message.
    destruct ctx as [|msg ctx]; cbn [AIProvider.context_or_new_append];
      match goal with
      | |- context [AIProvider.handle_response post q ?r ?c log] =>
          destruct (handle_response_spec post q r c log) as (-> & -> & _)
      end; eexists; (split; [reflexivity|]); done. }
  destruct (String.eqb (Py.lower (AIProvider.name q)) "claude") eqn:Hc.
  { destruct (Hwrap _ eq_refl) as [-> ->].
    assert (String.eqb (Py.lower (AIProvider.name q)) "deepseek" = false) as ->.
    { apply String.eqb_eq in Hc. by rewrite Hc. }
    simpl. unfold AIProvider._send_claude_message.
    match goal with
    | |- context [AIProvider.handle_response post q ?r ?c log] =>
        destruct (handle_response_spec post q r c log) as (-> & -> & _)
    end.
    eexists. split; [reflexivity|]. split; [done|]. split; [done|].
    intros Hsp. cbn [sent_messages json]. by rewrite (claude_messages_of_spoken ctx Hsp). }
  simpl in Hknown. rewrite orb_false_r in Hknown. rewrite Hknown in Hwrap |- *.
  destruct (Hwrap _ eq_refl) as [-> ->]. simpl.
  unfold AIProvider._send_deepseek_message.
  destruct ctx as [|msg ctx]; cbn [AIProvider.context_or_new_append];
    match goal with
    | |- context [AIProvider.handle_response post q ?r ?c log] =>
        destruct (handle_response_spec post q r c log) as (-> & -> & _)
    end; eexists; (split; [reflexivity|]); done.
Qed.

End VendorMessages.

Lemma vendor_request_messages_witness :
  (AIProvider.can_send_message 0 Scenario2.claude_provider).1 = true ∧
  known_vendor Scenario2.claude_provider = true ∧
  let sent := AIProvider.send_message 0 Scenario.answering Scenario2.claude_provider
                "hello" (Some Scenario2.with_system_entry) [] in
  ∃ req,
    AIProvider.http_log sent = [req] ∧
    sent_messages req
      = [mkMsg "user" "hi"; mkMsg "assistant" "Sure."; mkMsg "user" "hello"] ∧
    AIProvider.context_after sent = Some Scenario2.with_system_entry.
Proof.
  assert ((AIProvider.can_send_message 0 Scenario2.claude_provider).1 = true) as Hcan
    by reflexivity.
  assert (known_vendor Scenario2.claude_provider = true) as Hknown by reflexivity.
  split; [exact Hcan|]. split; [exact Hknown|].
  destruct (vendor_request_messages 0 Scenario.answering Scenario2.claude_provider
              "hello" Scenario2.with_system_entry [] Hcan Hknown)
    as (req & Hlog & Hsent).
  exists req. split; [exact Hlog|].
  change (appends_to_context Scenario2.claude_provider) with false in Hsent.
  destruct Hsent as (Hmsgs & Hctx & _).
  split; [exact Hmsgs | exact Hctx].
Defined.

(** ** The default providers *)

Section DefaultProviders.

Import MultiAIManager.

(** X20. [initialize_ai_providers] appends the providers "OpenAI", "Claude"
    and "DeepSeek", each of a vendor that [AIProvider.send_message] has a
    method for, and leaves the rest of the router alone; called twice it
    adds them twice.  Loading the configuration saved from an initialized
    router, with the keys of [initialize_ai_providers], does to any router
    what [initialize_ai_providers] itself does on that date. *)
Theorem saved_defaults_reload_as_initialized today saved_on (m : t) filepath fs :
  load_configuration today m filepath Scenario2.default_keys
    (save_configuration (initialize_ai_providers saved_on init) filepath fs)
    = Some (initialize_ai_providers today m) ∧
  (∃ added,
     AIProvider.name <$> added = ["OpenAI"; "Claude"; "DeepSeek"]%string ∧
     Forall (λ p, known_vendor p = true) added ∧
     initialize_ai_providers today m = set_providers (providers m ++ added) m ∧
     initialize_ai_providers today (initialize_ai_providers today m)
       = set_providers (providers m ++ added ++ added) m).
Proof.
  split.
  - rewrite load_configuration_saved. f_equal.
    unfold initialize_ai_providers, add_provider, set_providers. cbn [providers
      conversation_context current_provider_index max_context_length].
    rewrite <-!app_assoc. reflexivity.
  - eexists. split; [|split; [|split]].
    3:{ unfold initialize_ai_providers, add_provider, set_providers. cbn [providers
          conversation_context current_provider_index max_context_length].
        rewrite <-!app_assoc. reflexivity. }
    + reflexivity.
    + repeat constructor.
    + unfold initialize_ai_providers, add_provider, set_providers. cbn [providers
        conversation_context current_provider_index max_context_length].
      rewrite <-!app_assoc. reflexivity.
Qed.

End DefaultProviders.
